(** * Multi-modal video / image generator: frame sampling and job polling

    A shallow embedding of the two pieces of logic of the studio that are
    more than form plumbing:

    - [extractFrames] (component [VideoAnalyze]): the client-side frame
      sampler, an event-driven loop over the [<video>] element's
      [loadedmetadata], [seeked] and [error] events;
    - [services/geminiService.ts]: the request builders ([editImage],
      [analyzeImage], [analyzeVideoFrames]) and the long-running job poller
      [handleVideoOperation].

    Numbers are JavaScript numbers.  The only arithmetic the sampler does on
    them is comparing and adding small whole numbers and taking the floor of
    the video duration; all of it is exact on doubles, so a finite double is
    modelled by the rational it denotes. *)

From Stdlib Require Import ZArith QArith Qround List String Ascii Bool Lia.
From Stdlib Require Import DecimalString.
Import ListNotations.

Local Open Scope string_scope.
Local Open Scope Z_scope.

(* ================================================================== *)
(** ** JavaScript values used by the code *)

Module Js.

(** A JavaScript number: a finite double (as a rational), an infinity, or
    NaN. *)
Inductive number : Type :=
| Num (q : Q)
| PosInfinity
| NegInfinity
| NaN.

Definition of_Z (z : Z) : number := Num (inject_Z z).

(** [a >= b]; every comparison with NaN is false. *)
Definition ge (a b : number) : bool :=
  match a, b with
  | NaN, _ | _, NaN => false
  | PosInfinity, _ => true
  | _, NegInfinity => true
  | NegInfinity, _ => false
  | _, PosInfinity => false
  | Num x, Num y => Qle_bool y x
  end.

(** [Math.floor]. *)
Definition Math_floor (a : number) : number :=
  match a with
  | Num q => of_Z (Qfloor q)
  | other => other
  end.

(** [Math.min] of two arguments; NaN if either one is. *)
Definition Math_min (a b : number) : number :=
  match a, b with
  | NaN, _ | _, NaN => NaN
  | NegInfinity, _ | _, NegInfinity => NegInfinity
  | PosInfinity, other | other, PosInfinity => other
  | Num x, Num y => if Qle_bool x y then Num x else Num y
  end.

(** Decimal text of a whole number, as a template literal prints it. *)
Definition Z_toString (z : Z) : string :=
  NilZero.string_of_int (Z.to_int z).

(** The decimals of [r / den], for [0 <= r < den]: digit after digit until
    nothing is left, at most [n] of them. *)
Fixpoint decimals (n : nat) (r den : Z) : string :=
  match n with
  | O => ""
  | S n' =>
      if r =? 0 then ""
      else Z_toString (10 * r / den) ++ decimals n' (10 * r mod den) den
  end.

(** Decimal text of a rational that is not negative: the whole part and,
    when the number is not whole, a point and the decimals. *)
Definition Q_toString (q : Q) : string :=
  let whole := Qfloor q in
  let r := Qnum q - whole * Zpos (Qden q) in
  if r =? 0 then Z_toString whole
  else Z_toString whole ++ "." ++ decimals 17 r (Zpos (Qden q)).

(** Text of a number inside a template literal: a whole number prints as
    its digits, 3.4 prints as "3.4", -3.4 as "-3.4".  The engine prints
    the shortest decimal that reads back as the same double, and switches
    to exponents from [1e21] on and below [1e-6]; the text below is that
    one for whole numbers under [1e21] and for numbers with few decimals,
    which covers what the code prints, [frameCount] and
    [Math.min(maxFrames, Math.floor(duration))]. *)
Definition toString (a : number) : string :=
  match a with
  | Num q =>
      if Qnum q <? 0 then "-" ++ Q_toString (- q) else Q_toString q
  | PosInfinity => "Infinity"
  | NegInfinity => "-Infinity"
  | NaN => "NaN"
  end.

(** Truthiness of a string: only the empty string is falsy. *)
Definition truthy (s : string) : bool :=
  match s with
  | EmptyString => false
  | _ => true
  end.

(** [prompt || fallback] on strings. *)
Definition or_else (s fallback : string) : string :=
  if truthy s then s else fallback.

(** [s.split(sep)] for a one-character separator. *)
Fixpoint split (sep : ascii) (s : string) : list string :=
  match s with
  | EmptyString => [EmptyString]
  | String c rest =>
      if Ascii.eqb c sep then EmptyString :: split sep rest
      else match split sep rest with
           | [] => [String c EmptyString]
           | piece :: pieces => String c piece :: pieces
           end
  end.

(** What a thrown value is: [new Error(message)], the TypeError the engine
    raises when a property of [undefined] is read, or a value that is not
    an [Error] at all (a [FileReader]'s error event). *)
Inductive exn : Type :=
| Error (message : string)
| TypeError (message : string)
| NotAnError.

(** The state of a promise as an observer sees it. *)
Inductive promise (A : Type) : Type :=
| Pending
| Fulfilled (value : A)
| Rejected (reason : exn).

Arguments Pending {A}.
Arguments Fulfilled {A} value.
Arguments Rejected {A} reason.

End Js.

Import Js.

(* ================================================================== *)
(** ** The frame sampler: [extractFrames] in [VideoAnalyze] *)

Module FrameSampler.

(** [const interval = 1; const maxFrames = 16;] *)
Definition interval : Z := 1.
Definition maxFrames : Z := 16.

(** What the browser is doing with the [<video>] element. *)
Inductive phase : Type :=
| NoSource      (* [video.src] was never assigned *)
| Loading       (* source assigned, metadata not known yet *)
| Ready         (* metadata known *)
| Broken.       (* the element reported an error *)

(** The promise returned by [extractFrames].  [resolve(frames)] hands out
    the [frames] array itself, not a copy: a resolved promise's value is
    read from the [frames] field of the state. *)
Inductive settlement : Type :=
| Unsettled
| ResolvedWithFrames
| RejectedWith (reason : exn).

Record state : Type := mkState {
  (* the video element *)
  video_phase : phase;
  seeking : bool;               (* a seek was requested and not confirmed *)
  video_currentTime : Z;        (* [video.currentTime], as last assigned *)
  onseeked_set : bool;          (* [video.onseeked] has been assigned *)
  (* the canvas *)
  canvas_width : Z;
  canvas_height : Z;
  drawn : list Z;               (* timeline positions passed to drawImage *)
  (* variables of the closures *)
  duration : number;
  currentTime : Z;
  frameCount : Z;
  frames : list string;
  (* object URLs *)
  created : nat;                (* calls of [URL.createObjectURL(file)] *)
  revoked : nat;                (* calls of [URL.revokeObjectURL(objectURL)] *)
  (* outputs *)
  settled : settlement;
  progress : list string        (* arguments of [setProgress], in order *)
}.

(** [video.currentTime = t]: the element starts seeking to [t]. *)
Definition set_seek (t : Z) (s : state) : state :=
  mkState (video_phase s) true t (onseeked_set s) (canvas_width s)
          (canvas_height s) (drawn s) (duration s) (currentTime s)
          (frameCount s) (frames s) (created s) (revoked s) (settled s)
          (progress s).

Definition set_video (p : phase) (sk : bool) (s : state) : state :=
  mkState p sk (video_currentTime s) (onseeked_set s) (canvas_width s)
          (canvas_height s) (drawn s) (duration s) (currentTime s)
          (frameCount s) (frames s) (created s) (revoked s) (settled s)
          (progress s).

Definition set_onseeked (s : state) : state :=
  mkState (video_phase s) (seeking s) (video_currentTime s) true
          (canvas_width s) (canvas_height s) (drawn s) (duration s)
          (currentTime s) (frameCount s) (frames s) (created s) (revoked s)
          (settled s) (progress s).

Definition set_canvas (w h : Z) (s : state) : state :=
  mkState (video_phase s) (seeking s) (video_currentTime s) (onseeked_set s)
          w h (drawn s)
          (duration s) (currentTime s) (frameCount s) (frames s)
          (created s) (revoked s) (settled s) (progress s).

Definition set_closure (d : number) (t n : Z) (s : state) : state :=
  mkState (video_phase s) (seeking s) (video_currentTime s) (onseeked_set s)
          (canvas_width s) (canvas_height s) (drawn s) d t n (frames s)
          (created s) (revoked s) (settled s) (progress s).

Definition set_currentTime (t : Z) (s : state) : state :=
  set_closure (duration s) t (frameCount s) s.

Definition revokeObjectURL (s : state) : state :=
  mkState (video_phase s) (seeking s) (video_currentTime s) (onseeked_set s)
          (canvas_width s) (canvas_height s) (drawn s) (duration s)
          (currentTime s) (frameCount s) (frames s) (created s)
          (S (revoked s)) (settled s)
          (progress s).

(** Settling a promise that is already settled does nothing. *)
Definition settle (o : settlement) (s : state) : state :=
  match settled s with
  | Unsettled =>
      mkState (video_phase s) (seeking s) (video_currentTime s)
              (onseeked_set s)
              (canvas_width s) (canvas_height s) (drawn s) (duration s)
              (currentTime s) (frameCount s) (frames s) (created s)
              (revoked s) o (progress s)
  | _ => s
  end.

Definition resolve_frames : state -> state := settle ResolvedWithFrames.
Definition reject (e : exn) : state -> state := settle (RejectedWith e).

(** The text of
    [`Extracting frames... ${frameCount}/${Math.min(maxFrames, Math.floor(duration))}`]. *)
Definition progress_message (count : Z) (d : number) : string :=
  "Extracting frames... " ++ Z_toString count ++ "/"
    ++ toString (Math_min (of_Z maxFrames) (Math_floor d)).

(** Events the browser fires on the video element. *)
Inductive event : Type :=
| Loadedmetadata (duration : number) (videoWidth videoHeight : Z)
| Seeked
| ErrorEvent.

Section Handlers.

(** The JPEG data URL (quality 0.8) of the picture the video shows at a
    timeline position, at the video's native size. *)
Variable jpeg : Z -> string.

(** Whether [canvas.getContext('2d')] returned a context. *)
Variable ctx : bool.

(** The promise executor up to [video.src = objectURL]. *)
Definition start (videoRef canvasRef : bool) : state :=
  if negb videoRef || negb canvasRef then
    mkState NoSource false 0 false 0 0 [] NaN 0 0 [] 0 0
            (RejectedWith (Error "Video or canvas element not ready.")) []
  else
    mkState Loading false 0 false 0 0 [] NaN 0 0 [] 1 0 Unsettled [].

Definition captureFrame (s : state) : state :=
  if Js.ge (of_Z (currentTime s)) (duration s) || (maxFrames <=? frameCount s)
  then resolve_frames (revokeObjectURL s)
  else set_seek (currentTime s) s.

(** The body of [if (ctx) { ... }] in [video.onseeked]. *)
Definition capture (s : state) : state :=
  let n := frameCount s + 1 in
  mkState (video_phase s) (seeking s) (video_currentTime s)
          (onseeked_set s) (canvas_width s) (canvas_height s)
          (drawn s ++ [video_currentTime s])
          (duration s) (currentTime s) n
          (frames s ++ [jpeg (video_currentTime s)])
          (created s) (revoked s) (settled s)
          (progress s ++ [progress_message n (duration s)]).

Definition onseeked (s : state) : state :=
  let s := if ctx then capture s else s in
  captureFrame (set_currentTime (currentTime s + interval) s).

Definition onloadedmetadata (d : number) (w h : Z) (s : state) : state :=
  captureFrame (set_onseeked (set_closure d 0 0 (set_canvas w h s))).

Definition onerror (s : state) : state :=
  reject (Error "Error loading video file.") (revokeObjectURL s).

(** The browser side of an event followed by the handler registered for
    it, on an element whose source has been assigned ([onloadedmetadata]
    and [onerror] are registered with it).  [onseeked] is only registered
    by [onloadedmetadata]. *)
Definition dispatch (ev : event) (s : state) : state :=
  match ev with
  | Loadedmetadata d w h => onloadedmetadata d w h (set_video Ready false s)
  | Seeked =>
      let s := set_video (video_phase s) false s in
      if onseeked_set s then onseeked s else s
  | ErrorEvent => onerror (set_video Broken false s)
  end.

(** When the browser can fire an event on an element whose handlers the
    sampler has registered: metadata arrives once, while the source loads;
    a seek is confirmed only if one was requested and no error ended it; an
    error can be reported at any time and more than once, also after the
    promise is settled, since [video.onerror] stays registered.
    The variables [currentTime] and [frameCount] stay far below [2 ^ 53]
    in the runs of interest, where [+= 1] on a double is exact. *)
Definition enabled (s : state) (ev : event) : bool :=
  match ev with
  | Loadedmetadata _ _ _ =>
      match video_phase s with Loading => true | _ => false end
  | Seeked => seeking s
  | ErrorEvent =>
      match video_phase s with NoSource => false | _ => true end
  end.

(** Run the handlers over a sequence of events; [None] when the browser
    could not have fired them in that order. *)
Fixpoint exec (s : state) (evs : list event) : option state :=
  match evs with
  | [] => Some s
  | ev :: rest =>
      if enabled s ev then exec (dispatch ev s) rest else None
  end.

(** What awaiting the promise observes. *)
Definition result (s : state) : promise (list string) :=
  match settled s with
  | Unsettled => Pending
  | ResolvedWithFrames => Fulfilled (frames s)
  | RejectedWith e => Rejected e
  end.

(** [extractFrames(file)] under a given sequence of browser events;
    [videoRef] and [canvasRef] tell whether the two refs are attached. *)
Definition extractFrames (videoRef canvasRef : bool) (evs : list event)
  : option state :=
  exec (start videoRef canvasRef) evs.

End Handlers.



(** *** Invariant of the sampler *)

Section Invariant.

Variable jpeg : Z -> string.
Variable ctx : bool.

(** Timeline positions [0, interval, 2 * interval, ...]. *)
Definition positions (n : nat) : list Z :=
  map (fun k => Z.of_nat k * interval) (seq 0 n).

(** Progress texts for frames [1 .. n] of a video of duration [d]. *)
Definition messages (d : number) (n : nat) : list string :=
  map (fun k => progress_message (Z.of_nat k + 1) d) (seq 0 n).

(** What holds of every state the sampler goes through once the source is
    assigned. *)
Record invariant (s : state) : Prop := {
  inv_created : created s = 1%nat;
  inv_loading :
    video_phase s = Loading ->
    settled s = Unsettled /\ seeking s = false /\ frames s = []
    /\ frameCount s = 0 /\ currentTime s = 0;
  inv_ready :
    video_phase s = Ready ->
    settled s = if seeking s then Unsettled else ResolvedWithFrames;
  inv_source : video_phase s <> NoSource;
  inv_other :
    video_phase s <> Loading -> video_phase s <> Ready ->
    seeking s = false /\ settled s <> Unsettled;
  inv_rejected :
    forall e, settled s = RejectedWith e ->
              e = Error "Error loading video file.";
  inv_revoked : settled s = Unsettled -> revoked s = 0%nat;
  inv_released : settled s <> Unsettled -> (1 <= revoked s)%nat;
  inv_count : frameCount s = Z.of_nat (List.length (frames s));
  inv_bound : frameCount s <= maxFrames;
  inv_time :
    if ctx then currentTime s = frameCount s * interval else frames s = [];
  inv_drawn : drawn s = positions (List.length (frames s));
  inv_frames : frames s = map jpeg (drawn s);
  inv_progress : progress s = messages (duration s) (List.length (frames s));
  inv_seeking :
    seeking s = true ->
    video_phase s = Ready /\ onseeked_set s = true
    /\ video_currentTime s = currentTime s
    /\ Js.ge (of_Z (currentTime s)) (duration s) = false
    /\ frameCount s < maxFrames;
  inv_resolved :
    settled s = ResolvedWithFrames ->
    Js.ge (of_Z (currentTime s)) (duration s) = true
    \/ maxFrames <= frameCount s;
  inv_last :
    0 < frameCount s ->
    Js.ge (of_Z (currentTime s - interval)) (duration s) = false
}.

End Invariant.

(** The number of timeline positions [0, 1, 2, ...] below [d], capped at
    [maxFrames]. *)
Definition expected (d : Q) : Z := Z.min maxFrames (Qceiling d).

End FrameSampler.

(* ================================================================== *)
(** ** Asynchronous code and the provider it talks to *)

Module Async.

(** [inlineData] of a [Part]; [data] is [undefined] when absent. *)
Record inline : Type := mkInline {
  data : option string;
  mimeType : string
}.

(** A [Part] of a request or of a response. *)
Record part : Type := mkPart {
  inlineData : option inline;
  text : option string
}.

Definition inline_part (d : option string) (mime : string) : part :=
  mkPart (Some (mkInline d mime)) None.

Definition text_part (t : string) : part := mkPart None (Some t).

Inductive modality : Type := IMAGE.

(** The argument of [ai.models.generateContent]. *)
Record request : Type := mkRequest {
  model : string;
  contents : list part;                    (* [contents.parts] *)
  responseModalities : option (list modality)   (* [config], when given *)
}.

(** [Content] and [Candidate] of the SDK: [parts] and [content] are
    optional, [None] standing for [undefined]. *)
Record content : Type := mkContent { parts : option (list part) }.
Record candidate : Type := mkCandidate {
  candidate_content : option content
}.

(** The value of [generateContent]; [candidates] is optional too, and
    [response_text] is its [text] accessor. *)
Record response : Type := mkResponse {
  candidates : option (list candidate);
  response_text : option string
}.

(** A long-running video operation, as far as the poller reads it. *)
Record video : Type := mkVideo { uri : option string }.
Record generatedVideo : Type := mkGenerated { generated_video : option video }.
Record videosResponse : Type := mkVideos {
  generatedVideos : option (list generatedVideo)
}.
Record operationError : Type := mkOpError { message : string }.
Record videoOperation : Type := mkOperation {
  done : bool;
  error : option operationError;
  operation_response : option videosResponse
}.

(** The value of [fetch]. *)
Record httpResponse : Type := mkHttp {
  ok : bool;
  statusText : string;
  body_text : string;           (* [await response.text()] *)
  body_blob : string            (* [await response.blob()], its bytes *)
}.

(** A user-selected [File]: its MIME type and what [readAsDataURL] gives
    ([None] when the reader fires [onerror]). *)
Record file : Type := mkFile {
  file_type : string;
  file_dataURL : option string
}.

(** What the code does to the outside, in order. *)
Inductive effect : Type :=
| GenerateContent (req : request)
| GenerateVideos (model prompt : string)     (* the job submission *)
| GetVideosOperation (op : videoOperation)        (* the status query *)
| SetTimeout (ms : Z)
| OnProgress (msg : string)
| Fetch (url : string)
| CreateObjectURL (blob : string)
| SetProgress (msg : string)                 (* React state setters *)
| SetError (msg : option string)
| SetAnalysis (result : option string)
| SetIsLoading (loading : bool).

(** The outside: the credential and the answers of the provider.  The
    status query may answer differently from call to call; its first
    argument is the number of status queries made before. *)
Record provider : Type := mkProvider {
  API_KEY : option string;                   (* [process.env.API_KEY] *)
  generateContent : request -> promise response;
  generateVideos : string -> string -> promise videoOperation;
  getVideosOperation : nat -> videoOperation -> promise videoOperation;
  fetch : string -> promise httpResponse;
  createObjectURL : string -> string
}.

(** An asynchronous computation: it extends the log of effects and ends
    fulfilled, rejected, or not at all within the steps allowed. *)
Definition M (A : Type) : Type := list effect -> promise A * list effect.

Definition ret {A} (a : A) : M A := fun log => (Fulfilled a, log).
Definition throw {A} (e : exn) : M A := fun log => (Rejected e, log).
Definition stuck {A} : M A := fun log => (Pending, log).

Definition bind {A B} (m : M A) (k : A -> M B) : M B :=
  fun log =>
    match m log with
    | (Fulfilled a, log') => k a log'
    | (Rejected e, log') => (Rejected e, log')
    | (Pending, log') => (Pending, log')
    end.

(** [await p] for a promise whose state is known. *)
Definition await {A} (p : promise A) : M A := fun log => (p, log).

Definition perform (e : effect) : M unit :=
  fun log => (Fulfilled tt, (log ++ [e])%list).

(** [try { m } catch (err) { handler err }]. *)
Definition try_catch {A} (m : M A) (handler : exn -> M A) : M A :=
  fun log =>
    match m log with
    | (Rejected e, log') => handler e log'
    | other => other
    end.

(** [try { m } finally { f }]: [f] runs once [m] has ended, and the outcome
    of [m] stands unless [f] itself fails. *)
Definition try_finally {A} (m : M A) (f : M unit) : M A :=
  fun log =>
    match m log with
    | (Pending, log') => (Pending, log')
    | (r, log') =>
        match f log' with
        | (Fulfilled _, log'') => (r, log'')
        | (Rejected e, log'') => (Rejected e, log'')
        | (Pending, log'') => (Pending, log'')
        end
    end.

Declare Scope async_scope.
Delimit Scope async_scope with async.
Notation "x <- m ;; k" := (bind m (fun x => k))
  (at level 61, m at next level, right associativity) : async_scope.
Notation "m ;; k" := (bind m (fun _ => k))
  (at level 61, right associativity) : async_scope.

(** Number of status queries in a log. *)
Fixpoint queries (log : list effect) : nat :=
  match log with
  | [] => 0
  | GetVideosOperation _ :: rest => S (queries rest)
  | _ :: rest => queries rest
  end.

(** The URLs fetched in a log. *)
Fixpoint fetches (log : list effect) : list string :=
  match log with
  | [] => []
  | Fetch url :: rest => url :: fetches rest
  | _ :: rest => fetches rest
  end.

(** The requests sent to [generateContent] in a log. *)
Fixpoint requests (log : list effect) : list request :=
  match log with
  | [] => []
  | GenerateContent req :: rest => req :: requests rest
  | _ :: rest => requests rest
  end.

(** [${x}] for a string that may be [undefined]. *)
Definition interpolate (x : option string) : string :=
  match x with
  | Some s => s
  | None => "undefined"
  end.

End Async.

(* ================================================================== *)
(** ** [services/geminiService.ts] *)

Module GeminiService.

Import Async.
Local Open Scope async_scope.

(** [operation.response?.generatedVideos?.[0]?.video?.uri]. *)
Definition downloadLink (op : videoOperation) : option string :=
  match operation_response op with
  | None => None
  | Some r =>
      match generatedVideos r with
      | None => None
      | Some vs =>
          match nth_error vs 0 with
          | None => None
          | Some v =>
              match generated_video v with
              | None => None
              | Some vid => uri vid
              end
          end
      end
  end.

(** The loop over the parts in [editImage]. *)
Fixpoint first_inline (ps : list part) : M string :=
  match ps with
  | [] => throw (Error "No image generated")
  | p :: rest =>
      match inlineData p with
      | Some d => ret ("data:image/png;base64," ++ interpolate (data d))
      | None => first_inline rest
      end
  end.

(** [frames.map(frameData => ({ inlineData: { ... } }))]. *)
Definition frame_part (frameData : string) : part :=
  inline_part (nth_error (split "," frameData) 1) "image/jpeg".

Section Service.

Variable P : provider.

Definition call_generateContent (req : request) : M response :=
  perform (GenerateContent req) ;; await (generateContent P req).

Definition call_getVideosOperation (op : videoOperation) : M videoOperation :=
  fun log =>
    (getVideosOperation P (queries log) op,
     (log ++ [GetVideosOperation op])%list).

Definition call_fetch (url : string) : M httpResponse :=
  perform (Fetch url) ;; await (fetch P url).

Definition fileToBase64 (f : file) : M (option string) :=
  match file_dataURL f with
  | Some result => ret (nth_error (split "," result) 1)
  | None => throw NotAnError
  end.

Definition fileToGenerativePart (f : file) : M part :=
  base64Data <- fileToBase64 f ;;
  ret (inline_part base64Data (file_type f)).

(** In [editImage], reading [response.candidates[0].content.parts] and
    looping over it raises the engine's TypeError as soon as what is read
    from, or looped over, is [undefined]; the message texts are V8's. *)
Definition editImage (prompt : string) (imageFile : file) : M string :=
  imagePart <- fileToGenerativePart imageFile ;;
  response <- call_generateContent
                (mkRequest "gemini-2.5-flash-image"
                           [imagePart; text_part prompt] (Some [IMAGE])) ;;
  match candidates response with
  | None =>
      throw (TypeError "Cannot read properties of undefined (reading '0')")
  | Some cs =>
      match nth_error cs 0 with
      | None =>
          throw (TypeError
                   "Cannot read properties of undefined (reading 'content')")
      | Some first =>
          match candidate_content first with
          | None =>
              throw (TypeError
                       "Cannot read properties of undefined (reading 'parts')")
          | Some c =>
              match parts c with
              | None => throw (TypeError "undefined is not iterable")
              | Some ps => first_inline ps
              end
          end
      end
  end.

Definition analyzeImage (prompt : string) (imageFile : file)
  : M (option string) :=
  imagePart <- fileToGenerativePart imageFile ;;
  let fullPrompt := or_else prompt "Analyze this image in detail." in
  response <- call_generateContent
                (mkRequest "gemini-2.5-flash"
                           [text_part fullPrompt; imagePart] None) ;;
  ret (response_text response).

Definition analyzeVideoFrames (prompt : string) (frames : list string)
  : M (option string) :=
  let fullPrompt :=
    or_else prompt
      "These are sequential frames from a video. Analyze the video and describe what is happening." in
  let imageParts := map frame_part frames in
  response <- call_generateContent
                (mkRequest "gemini-2.5-pro"
                           (text_part fullPrompt :: imageParts) None) ;;
  ret (response_text response).

Definition analyzeVideoWithImage (prompt : string) (frames : list string)
           (imageFile : file) : M (option string) :=
  let fullPrompt :=
    or_else prompt
      "Analyze the relationship between the provided image and the video frames. Describe what is happening." in
  let imageParts := map frame_part frames in
  contextImagePart <- fileToGenerativePart imageFile ;;
  response <- call_generateContent
                (mkRequest "gemini-2.5-pro"
                           (text_part fullPrompt :: contextImagePart
                              :: imageParts) None) ;;
  ret (response_text response).

(** The [while (!operation.done)] loop; [fuel] bounds the number of
    rounds, and a loop that needs more has not ended. *)
Fixpoint poll (fuel : nat) (operation : videoOperation) : M videoOperation :=
  if done operation then ret operation
  else
    match fuel with
    | O => stuck
    | S fuel' =>
        perform (SetTimeout 10000) ;;
        perform (OnProgress "Checking video status...") ;;
        operation' <- call_getVideosOperation operation ;;
        poll fuel' operation'
    end.

Definition handleVideoOperation (fuel : nat) (getOperation : M videoOperation)
  : M string :=
  match API_KEY P with
  | None | Some EmptyString =>
      throw (Error "API_KEY environment variable is not set")
  | Some key =>
      perform (OnProgress "Starting video generation operation...") ;;
      operation <- getOperation ;;
      perform (OnProgress
        "Operation initiated. Waiting for video to be processed. This can take several minutes.") ;;
      operation <- poll fuel operation ;;
      match error operation with
      | Some err =>
          throw (Error ("Video generation failed: " ++ message err))
      | None =>
          match downloadLink operation with
          | None | Some EmptyString =>
              throw (Error "Could not retrieve video download link.")
          | Some link =>
              perform (OnProgress
                "Video generated! Downloading video data...") ;;
              response <- call_fetch (link ++ "&key=" ++ key) ;;
              if negb (ok response) then
                let errorText := body_text response in
                throw (Error ("Failed to download video: "
                                ++ statusText response ++ ". Details: "
                                ++ errorText))
              else
                let blob := body_blob response in
                perform (OnProgress "Download complete.") ;;
                perform (CreateObjectURL blob) ;;
                ret (createObjectURL P blob)
          end
      end
  end.

(** *** The phases of [handleVideoOperation]

    The same code, cut at the end of the loop; [handleVideoOperation] is
    shown equal to the two pieces in sequence. *)

(** The log after one round of the loop: the wait, the announcement, the
    status query. *)
Definition round_log (log : list effect) (op : videoOperation)
  : list effect :=
  (((log ++ [SetTimeout 10000]) ++ [OnProgress "Checking video status..."])
     ++ [GetVideosOperation op])%list.

(** The poller up to the end of its loop: the announcement, the
    submission, the second announcement, the loop. *)
Definition until_done (fuel : nat) (getOperation : M videoOperation)
  : M videoOperation :=
  perform (OnProgress "Starting video generation operation...") ;;
  operation <- getOperation ;;
  perform (OnProgress
    "Operation initiated. Waiting for video to be processed. This can take several minutes.") ;;
  poll fuel operation.

(** What follows the loop, given the credential and the handle the loop
    ended with. *)
Definition after_loop (key : string) (operation : videoOperation)
  : M string :=
  match error operation with
  | Some err => throw (Error ("Video generation failed: " ++ message err))
  | None =>
      match downloadLink operation with
      | None | Some EmptyString =>
          throw (Error "Could not retrieve video download link.")
      | Some link =>
          perform (OnProgress "Video generated! Downloading video data...") ;;
          response <- call_fetch (link ++ "&key=" ++ key) ;;
          if negb (ok response) then
            throw (Error ("Failed to download video: "
                            ++ statusText response ++ ". Details: "
                            ++ body_text response))
          else
            perform (OnProgress "Download complete.") ;;
            perform (CreateObjectURL (body_blob response)) ;;
            ret (createObjectURL P (body_blob response))
      end
  end.

(** [new GoogleGenAI({ apiKey: process.env.API_KEY })], the constructor of
    the SDK's client, whose code is not part of the sources: [None] when it
    builds a client from the key, [Some e] when it throws [e], as it does
    on a key that is [undefined].  [generateVideo] builds its client before
    anything else; [handleVideoOperation] builds its own after its check of
    the key, from the same key. *)
Variable GoogleGenAI : option string -> option exn.

Definition generateVideo (fuel : nat) (prompt : string) : M string :=
  match GoogleGenAI (API_KEY P) with
  | Some e => throw e
  | None =>
      handleVideoOperation fuel
        (perform (GenerateVideos "veo-3.1-fast-generate-preview" prompt) ;;
         await (generateVideos P "veo-3.1-fast-generate-preview" prompt))
  end.

End Service.

End GeminiService.

(* ================================================================== *)
(** ** [VideoAnalyze]: the caller of the sampler *)

Module VideoAnalyze.

Import Async FrameSampler.
Local Open Scope async_scope.

Inductive mode : Type := videoOnly | videoWithImage.

(** [await extractFrames(videoFile)], given the state in which the run of
    the sampler ended: the sampler's progress texts have been shown by
    then. *)
Definition await_extractFrames (sampler : state) : M (list string) :=
  fun log => (result sampler, (log ++ map SetProgress (progress sampler))%list).

(** [err instanceof Error ? err.message : 'An unknown error occurred.'] *)
Definition error_text (err : exn) : string :=
  match err with
  | Error m | TypeError m => m
  | NotAnError => "An unknown error occurred."
  end.

Section Component.

Variable P : provider.

Definition handleSubmit (m : mode) (prompt : string)
           (videoFile contextImageFile : option file) (sampler : state)
  : M unit :=
  match videoFile with
  | None => perform (SetError (Some "Please upload a video to analyze."))
  | Some _ =>
      match m, contextImageFile with
      | videoWithImage, None =>
          perform (SetError (Some "Please upload an image to use for context."))
      | _, _ =>
          perform (SetIsLoading true) ;;
          perform (SetError None) ;;
          perform (SetAnalysis None) ;;
          perform (SetProgress "Starting analysis...") ;;
          try_finally
            (try_catch
               (frames <- await_extractFrames sampler ;;
                if (List.length frames =? 0)%nat then
                  throw (Error "Could not extract any frames from the video.")
                else
                  perform (SetProgress
                             ("Analyzing "
                                ++ Z_toString (Z.of_nat (List.length frames))
                                ++ " frames with Gemini...")) ;;
                  result <- match m, contextImageFile with
                            | videoWithImage, Some img =>
                                GeminiService.analyzeVideoWithImage
                                  P prompt frames img
                            | _, _ =>
                                GeminiService.analyzeVideoFrames
                                  P prompt frames
                            end ;;
                  perform (SetAnalysis result))
               (fun err => perform (SetError (Some (error_text err)))))
            (perform (SetIsLoading false) ;; perform (SetProgress ""))
      end
  end.

End Component.

End VideoAnalyze.

(* ================================================================== *)
(** ** Reading a log of effects *)

Module Logs.

Import Async.

(** The delays of the timers set, in order. *)
Fixpoint waits (log : list effect) : list Z :=
  match log with
  | [] => []
  | SetTimeout ms :: rest => ms :: waits rest
  | _ :: rest => waits rest
  end.

(** The texts passed to [onProgress], in order. *)
Fixpoint announcements (log : list effect) : list string :=
  match log with
  | [] => []
  | OnProgress msg :: rest => msg :: announcements rest
  | _ :: rest => announcements rest
  end.

(** The blobs for which an object URL was created, in order. *)
Fixpoint objectURLs (log : list effect) : list string :=
  match log with
  | [] => []
  | CreateObjectURL blob :: rest => blob :: objectURLs rest
  | _ :: rest => objectURLs rest
  end.

(** The video submissions [(model, prompt)], in order. *)
Fixpoint submissions (log : list effect) : list (string * string) :=
  match log with
  | [] => []
  | GenerateVideos mdl prompt :: rest => (mdl, prompt) :: submissions rest
  | _ :: rest => submissions rest
  end.

(** The second announcement of the poller. *)
Definition initiated : string :=
  "Operation initiated. Waiting for video to be processed. This can take several minutes.".

(** The effects of one round of the polling loop on the handle [op]. *)
Definition round (op : videoOperation) : list effect :=
  [SetTimeout 10000; OnProgress "Checking video status...";
   GetVideosOperation op].

(** The last value given to [setError], [setAnalysis], [setIsLoading] and
    [setProgress] in a log: what the component shows after it. *)
Fixpoint shown_error (log : list effect) (before : option string)
  : option string :=
  match log with
  | [] => before
  | SetError e :: rest => shown_error rest e
  | _ :: rest => shown_error rest before
  end.

Fixpoint shown_analysis (log : list effect) (before : option string)
  : option string :=
  match log with
  | [] => before
  | SetAnalysis a :: rest => shown_analysis rest a
  | _ :: rest => shown_analysis rest before
  end.

Fixpoint shown_loading (log : list effect) (before : bool) : bool :=
  match log with
  | [] => before
  | SetIsLoading b :: rest => shown_loading rest b
  | _ :: rest => shown_loading rest before
  end.

Fixpoint shown_progress (log : list effect) (before : string) : string :=
  match log with
  | [] => before
  | SetProgress msg :: rest => shown_progress rest msg
  | _ :: rest => shown_progress rest before
  end.

End Logs.

(* ================================================================== *)
(** ** Data URLs *)

Module DataURL.

(** Whether a string holds a comma. *)
Fixpoint has_comma (s : string) : bool :=
  match s with
  | EmptyString => false
  | String c rest => Ascii.eqb c "," || has_comma rest
  end.

(** [`data:${mime};base64,${payload}`], the shape of the URLs that
    [generateImage] and [editImage] build and that [readAsDataURL] and
    [toDataURL] produce. *)
Definition dataURL (mime payload : string) : string :=
  "data:" ++ mime ++ ";base64," ++ payload.

End DataURL.

(* ================================================================== *)
(** ** The parts of [VideoAnalyze.handleSubmit] *)

Module SubmitParts.

Import Async VideoAnalyze.

(** The state setters before the [try]. *)
Definition prelude : list effect :=
  [SetIsLoading true; SetError None; SetAnalysis None;
   SetProgress "Starting analysis..."].

(** The state setters of the [finally]. *)
Definition epilogue : list effect := [SetIsLoading false; SetProgress ""].

(** Whether the two checks at the head of [handleSubmit] pass. *)
Definition validated (m : mode) (videoFile contextImageFile : option file)
  : bool :=
  match videoFile with
  | None => false
  | Some _ =>
      match m, contextImageFile with
      | videoWithImage, None => false
      | _, _ => true
      end
  end.

(** The analysis call chosen by [mode] and the context image. *)
Definition analyze_call (P : provider) (m : mode) (prompt : string)
           (contextImageFile : option file) (frames : list string)
  : M (option string) :=
  match m, contextImageFile with
  | videoWithImage, Some img =>
      GeminiService.analyzeVideoWithImage P prompt frames img
  | _, _ => GeminiService.analyzeVideoFrames P prompt frames
  end.

(** [`Analyzing ${frames.length} frames with Gemini...`] *)
Definition analyzing (frames : list string) : string :=
  "Analyzing " ++ Z_toString (Z.of_nat (List.length frames))
    ++ " frames with Gemini...".

(** The outcome of a request builder from the provider's answer. *)
Definition text_of (a : promise response) : promise (option string) :=
  match a with
  | Fulfilled resp => Fulfilled (response_text resp)
  | Rejected e => Rejected e
  | Pending => Pending
  end.

End SubmitParts.

(* ================================================================== *)
(** ** The [FileUpload] component *)

Module FileUpload.

Import Async.

(** The props that decide how many files are kept. *)
Record props : Type := mkProps {
  multiple : bool;
  maxFiles : Z
}.

(** [array.slice(0, end)]: a negative [end] counts from the end of the
    array. *)
Definition slice0 {A : Type} (finish : Z) (l : list A) : list A :=
  if finish <? 0 then firstn (Z.to_nat (Z.of_nat (List.length l) + finish)) l
  else firstn (Z.to_nat finish) l.

(** [array.filter((_, index) => index !== indexToRemove)]. *)
Definition filter_index {A : Type} (indexToRemove : nat) (l : list A)
  : list A :=
  map snd
      (filter (fun p => negb (fst p =? indexToRemove)%nat)
              (combine (seq 0 (List.length l)) l)).

(** The state of the component and of the object URLs it made.  An object
    URL is named by its number of creation; [live] holds the URLs that were
    created and not revoked, and revoking a URL that is not live does
    nothing. *)
Record state : Type := mkUpload {
  files : list file;
  previews : list nat;
  created : nat;
  live : list nat;
  reported : list (list file)    (* the arguments of [onFileChange] *)
}.

Definition initial : state := mkUpload [] [] 0 [] [].

Definition revokeObjectURL (url : nat) (s : state) : state :=
  mkUpload (files s) (previews s) (created s)
           (filter (fun u => negb (u =? url)%nat) (live s)) (reported s).

(** [urls.forEach(url => URL.revokeObjectURL(url))]. *)
Definition revoke_each (urls : list nat) (s : state) : state :=
  fold_left (fun s u => revokeObjectURL u s) urls s.

(** [updateFiles]: revoke the previews, make a URL per new file, set the
    state, tell the parent.  Since [previews] is a new array, React re-runs
    the effect that depends on it, and the cleanup of the previous run
    revokes the previous previews once more. *)
Definition updateFiles (newFiles : list file) (s : state) : state :=
  let s1 := revoke_each (previews s) s in
  let newPreviews := seq (created s1) (List.length newFiles) in
  let s2 :=
    mkUpload newFiles newPreviews
             (created s1 + List.length newFiles)
             (live s1 ++ newPreviews)
             (reported s1 ++ [newFiles]) in
  revoke_each (previews s) s2.

Definition handleFileChange (p : props) (selectedFiles : list file)
           (s : state) : state :=
  match selectedFiles with
  | [] => s
  | _ =>
      updateFiles
        (if multiple p then slice0 (maxFiles p) (files s ++ selectedFiles)
         else slice0 1 selectedFiles)
        s
  end.

Definition handleRemoveFile (indexToRemove : nat) (s : state) : state :=
  updateFiles (filter_index indexToRemove (files s)) s.

(** The cleanup of the effect when the component goes away. *)
Definition unmount (s : state) : state := revoke_each (previews s) s.

(** What the user does to the component. *)
Inductive action : Type :=
| Select (selectedFiles : list file)
| Remove (indexToRemove : nat).

Definition step (p : props) (s : state) (a : action) : state :=
  match a with
  | Select selectedFiles => handleFileChange p selectedFiles s
  | Remove i => handleRemoveFile i s
  end.

Definition run (p : props) (actions : list action) : state :=
  fold_left (step p) actions initial.

(** What the component keeps true: the previews are the live URLs, one per
    file, consecutive, and the parent was last told the files kept. *)
Record invariant (s : state) : Prop := {
  inv_live : live s = previews s;
  inv_previews :
    exists first, previews s = seq first (List.length (files s));
  inv_fresh : forall u, In u (previews s) -> (u < created s)%nat;
  inv_reported : last (reported s) [] = files s
}.

End FileUpload.

(* ================================================================== *)
(** ** The [VideoGenerate] component: loading messages and previews *)

Module VideoGenerate.

Import Async.

Definition reassuringMessages : list string :=
  ["Hold tight, the AI is dreaming up your video...";
   "Rendering pixels into motion...";
   "This is where the magic happens. It can take a few minutes.";
   "Composing your visual masterpiece...";
   "Just a little longer, great things are coming!";
   "The video generation process is underway..."].

(** The loading message, the ref that holds the id of the interval, and the
    intervals that are set and not cleared, each with the [index] variable
    of its callback.  A message is [None] when it was set to
    [undefined]. *)
Record ticker : Type := mkTicker {
  loadingMessage : option string;
  loadingMessageIntervalRef : option Z;
  intervals : list (Z * nat)
}.

(** [startLoadingMessages], where [id] is what [window.setInterval]
    returns. *)
Definition startLoadingMessages (id : Z) (t : ticker) : ticker :=
  let index := 0%nat in
  mkTicker (nth_error reassuringMessages index) (Some id)
           (intervals t ++ [(id, index)]).

(** The browser runs the callback of the interval [id], if it is set. *)
Fixpoint fire (id : Z) (timers : list (Z * nat))
  : option (nat * list (Z * nat)) :=
  match timers with
  | [] => None
  | (id', index) :: rest =>
      if id' =? id then
        let index := ((index + 1) mod List.length reassuringMessages)%nat in
        Some (index, (id', index) :: rest)
      else
        match fire id rest with
        | Some (index', rest') => Some (index', (id', index) :: rest')
        | None => None
        end
  end.

Definition tick (id : Z) (t : ticker) : ticker :=
  match fire id (intervals t) with
  | Some (index, timers) =>
      mkTicker (nth_error reassuringMessages index)
               (loadingMessageIntervalRef t) timers
  | None => t
  end.

(** [clearInterval(id)]. *)
Definition clearInterval (id : Z) (timers : list (Z * nat))
  : list (Z * nat) :=
  filter (fun timer => negb (fst timer =? id)) timers.

(** [stopLoadingMessages]: the ref counts as set when it holds a number
    other than 0. *)
Definition stopLoadingMessages (t : ticker) : ticker :=
  match loadingMessageIntervalRef t with
  | Some id =>
      if id =? 0 then t
      else mkTicker (loadingMessage t) None (clearInterval id (intervals t))
  | None => t
  end.

(** [progressCallback] of [handleSubmit]. *)
Definition progressCallback (message : string) (t : ticker) : ticker :=
  let t := stopLoadingMessages t in
  mkTicker (Some message) (loadingMessageIntervalRef t) (intervals t).

(** The reference images and their previews, with the object URLs as in
    [FileUpload]: named by their number of creation, [live] while created
    and not revoked. *)
Record gallery : Type := mkGallery {
  imageFiles : list file;
  imagePreviews : list nat;
  created : nat;
  live : list nat
}.

Definition revokeObjectURL (url : nat) (g : gallery) : gallery :=
  mkGallery (imageFiles g) (imagePreviews g) (created g)
            (filter (fun u => negb (u =? url)%nat) (live g)).

Definition revoke_each (urls : list nat) (g : gallery) : gallery :=
  fold_left (fun g u => revokeObjectURL u g) urls g.

(** The cleanup of the effect on [imagePreviews], which React runs with the
    previous previews each time [imagePreviews] is set to a new array. *)
Definition cleanup (previous : list nat) (g : gallery) : gallery :=
  revoke_each previous g.

Definition handleImageFileChange (newFiles : list file) (g : gallery)
  : gallery :=
  let newPreviewUrls := seq (created g) (List.length newFiles) in
  cleanup (imagePreviews g)
          (mkGallery newFiles newPreviewUrls
                     (created g + List.length newFiles)
                     (live g ++ newPreviewUrls)).

Definition handleRemoveImage (indexToRemove : nat) (g : gallery) : gallery :=
  let updatedFiles := FileUpload.filter_index indexToRemove (imageFiles g) in
  let updatedPreviews :=
    FileUpload.filter_index indexToRemove (imagePreviews g) in
  let g1 :=
    match nth_error (imagePreviews g) indexToRemove with
    | Some url => revokeObjectURL url g
    | None => g
    end in
  cleanup (imagePreviews g)
          (mkGallery updatedFiles updatedPreviews (created g1) (live g1)).

(** The mode buttons: [setImageFiles([]); setImagePreviews([])]. *)
Definition switchMode (g : gallery) : gallery :=
  cleanup (imagePreviews g) (mkGallery [] [] (created g) (live g)).

Inductive change : Type :=
| Files (newFiles : list file)
| RemoveImage (indexToRemove : nat)
| SwitchMode.

Definition apply_change (g : gallery) (c : change) : gallery :=
  match c with
  | Files newFiles => handleImageFileChange newFiles g
  | RemoveImage i => handleRemoveImage i g
  | SwitchMode => switchMode g
  end.

Definition empty_gallery : gallery := mkGallery [] [] 0 [].

Definition after (changes : list change) : gallery :=
  fold_left apply_change changes empty_gallery.

(** What holds of the gallery after every change. *)
Record settled (g : gallery) : Prop := mkSettled {
  set_aligned : List.length (imageFiles g) = List.length (imagePreviews g);
  set_live : live g = imagePreviews g \/ live g = [];
  set_fresh : forall u, In u (imagePreviews g) -> (u < created g)%nat
}.

End VideoGenerate.

(* ================================================================== *)
(** ** [ImageAnalyze]: the caller of [analyzeImage] *)

Module ImageAnalyze.

Import Async.
Local Open Scope async_scope.

Section Component.

Variable P : provider.

Definition handleSubmit (prompt : string) (imageFile : option file)
  : M unit :=
  match imageFile with
  | None => perform (SetError (Some "Please upload an image to analyze."))
  | Some imageFile =>
      perform (SetIsLoading true) ;;
      perform (SetError None) ;;
      perform (SetAnalysis None) ;;
      try_finally
        (try_catch
           (result <- GeminiService.analyzeImage P prompt imageFile ;;
            perform (SetAnalysis result))
           (fun err =>
              perform (SetError (Some (VideoAnalyze.error_text err)))))
        (perform (SetIsLoading false))
  end.

End Component.

End ImageAnalyze.

(* ================================================================== *)
(** ** [generateVideoFromImages] *)

Module ReferenceVideo.

Import Async.
Local Open Scope async_scope.

(** A [VideoGenerationReferenceImage], for reference types of type [R]. *)
Record referenceImage (R : Type) : Type := mkReference {
  imageBytes : option string;
  image_mimeType : string;
  referenceType : R
}.

Arguments mkReference {R} _ _ _.
Arguments imageBytes {R} _.
Arguments image_mimeType {R} _.
Arguments referenceType {R} _.

(** [await Promise.all(imageFiles.map(async (file) => ...))]: the entries
    in the order of the files, or the rejection of a read.  Every read that
    fails rejects with the reader's event, so which of them comes first
    does not show. *)
Fixpoint referenceImagesPayload {R : Type} (imageFiles : list file)
         (type : R) : M (list (referenceImage R)) :=
  match imageFiles with
  | [] => ret []
  | f :: rest =>
      base64Data <- GeminiService.fileToBase64 f ;;
      payload <- referenceImagesPayload rest type ;;
      ret (mkReference base64Data (file_type f) type :: payload)
  end.

(** [GoogleGenAI] is the constructor of the SDK's client, as for
    [generateVideo]: the client is built first, and a constructor that
    throws ends the call before anything is announced.  [answer] is what
    the provider answers to a submission with the given reference
    images. *)
Definition generateVideoFromImages {R : Type} (P : provider)
           (GoogleGenAI : option string -> option exn) (fuel : nat)
           (answer : list (referenceImage R) -> promise videoOperation)
           (prompt : string) (imageFiles : list file) (type : R)
  : M string :=
  match GoogleGenAI (API_KEY P) with
  | Some e => throw e
  | None =>
      perform (OnProgress "Preparing images for video generation...") ;;
      referenceImagesPayload <- referenceImagesPayload imageFiles type ;;
      GeminiService.handleVideoOperation P fuel
        (perform (GenerateVideos "veo-3.1-generate-preview" prompt) ;;
         await (answer referenceImagesPayload))
  end.

(** The entry of the payload for a file. *)
Definition entry {R : Type} (type : R) (f : file) : referenceImage R :=
  mkReference
    match file_dataURL f with
    | Some result => nth_error (split "," result) 1
    | None => None
    end
    (file_type f) type.

End ReferenceVideo.

(* ================================================================== *)
(** ** Providers used in the examples *)

Module Examples.

Import Async.

(** A provider for the examples: the key is set, a submission returns
    [notDone], the status query answers [notDone] on its first [k] calls and
    [final] afterwards, and every download succeeds. *)
Definition notDone : videoOperation := mkOperation false None None.

Definition finished (link : option string) : videoOperation :=
  mkOperation true None
    (Some (mkVideos (Some [mkGenerated (Some (mkVideo link))]))).

Definition failed (msg : string) : videoOperation :=
  mkOperation true (Some (mkOpError msg)) None.

Definition sample_provider (k : nat) (final : videoOperation) : provider :=
  mkProvider (Some "KEY")
             (fun _ => Fulfilled (mkResponse (Some []) None))
             (fun _ _ => Fulfilled notDone)
             (fun n _ => if (n <? k)%nat then Fulfilled notDone
                         else Fulfilled final)
             (fun url => Fulfilled (mkHttp true "OK" "" ("bytes of " ++ url)))
             (fun blob => "blob:" ++ blob).

(** A constructor of the client that refuses a missing key and builds a
    client from any other. *)
Definition client_needs_key (apiKey : option string) : option exn :=
  match apiKey with
  | None => Some (Error "An API Key must be set when running in a browser")
  | Some _ => None
  end.

(** A provider that answers an edit with a text part followed by a JPEG. *)
Definition image_provider : provider :=
  mkProvider (Some "KEY")
             (fun _ => Fulfilled
                (mkResponse
                   (Some
                      [mkCandidate
                         (Some
                            (mkContent
                               (Some [text_part "Here is the image.";
                                      inline_part (Some "QUJD")
                                                  "image/jpeg"])))])
                   None))
             (fun _ _ => Fulfilled notDone) (fun _ op => Fulfilled op)
             (fun _ => Rejected NotAnError) (fun b => b).

End Examples.

(* ================================================================== *)
(** ** More providers for the examples *)

Module Fixtures.

Import Async Examples.

(** A provider given by its key, its answer to a submission, its answers to
    status queries and its answers to downloads. *)
Definition provider_with
           (key : option string) (submit : promise videoOperation)
           (query : nat -> videoOperation -> promise videoOperation)
           (download : string -> promise httpResponse) : provider :=
  mkProvider key
             (fun _ =>
                Fulfilled (mkResponse (Some []) (Some "A cat on a mat.")))
             (fun _ _ => submit) query download
             (fun blob => "blob:" ++ blob).

Definition download_ok (url : string) : promise httpResponse :=
  Fulfilled (mkHttp true "OK" "" ("bytes of " ++ url)).

Definition download_forbidden (url : string) : promise httpResponse :=
  Fulfilled (mkHttp false "Forbidden" "key not valid" "").

(** Status answers: never done. *)
Definition always_pending (n : nat) (op : videoOperation)
  : promise videoOperation := Fulfilled notDone.

(** Status answers: not done [k] times, then a failure of the call. *)
Definition fails_at (k : nat) (e : exn) (n : nat) (op : videoOperation)
  : promise videoOperation :=
  if (n <? k)%nat then Fulfilled notDone else Rejected e.

(** Status answers: not done [k] times, then [final]. *)
Definition done_at (k : nat) (final : videoOperation) (n : nat)
           (op : videoOperation) : promise videoOperation :=
  if (n <? k)%nat then Fulfilled notDone else Fulfilled final.

(** The submission closure that [generateVideo] hands to the poller. *)
Definition submit_text (P : provider) (prompt : string) : M videoOperation :=
  bind (perform (GenerateVideos "veo-3.1-fast-generate-preview" prompt))
       (fun _ =>
          await (generateVideos P "veo-3.1-fast-generate-preview" prompt)).

Definition keyless : provider :=
  provider_with None (Fulfilled notDone) always_pending download_ok.

Definition refusing (e : exn) : provider :=
  provider_with (Some "KEY") (Rejected e) always_pending download_ok.

Definition endless : provider :=
  provider_with (Some "KEY") (Fulfilled notDone) always_pending download_ok.

Definition flaky (k : nat) (e : exn) : provider :=
  provider_with (Some "KEY") (Fulfilled notDone) (fails_at k e) download_ok.

(** The job is done after [k] status queries; downloads are refused. *)
Definition forbidding (k : nat) (final : videoOperation) : provider :=
  provider_with (Some "KEY") (Fulfilled notDone) (done_at k final)
                download_forbidden.

(** The submission itself returns a handle that is done. *)
Definition immediate (final : videoOperation) : provider :=
  provider_with (Some "KEY") (Fulfilled final) always_pending download_ok.

(** The job is done after [k] status queries; downloads succeed. *)
Definition punctual (k : nat) (final : videoOperation) : provider :=
  provider_with (Some "KEY") (Fulfilled notDone) (done_at k final)
                download_ok.

(** A provider that fails every content request with [e]. *)
Definition failing_content (e : exn) : provider :=
  mkProvider (Some "KEY") (fun _ => Rejected e)
             (fun _ _ => Fulfilled notDone) always_pending download_ok
             (fun blob => "blob:" ++ blob).

(** A provider that answers every content request with [r]. *)
Definition answering (r : response) : provider :=
  mkProvider (Some "KEY") (fun _ => Fulfilled r)
             (fun _ _ => Fulfilled notDone) always_pending download_ok
             (fun blob => "blob:" ++ blob).

Definition png_file : file :=
  mkFile "image/png" (Some "data:image/png;base64,iVBORw0KGgo=").

Definition broken_file : file := mkFile "image/png" None.

End Fixtures.

(* ================================================================== *)
(** ** Facts about the frame sampler *)

Module FrameSamplerFacts.

Import FrameSampler.

Ltac simpl_state :=
  cbn -[Js.ge positions messages List.length progress_message].

Section Invariant.

Variable jpeg : Z -> string.

Lemma positions_snoc (n : nat) :
  positions (S n) = (positions n ++ [Z.of_nat n * interval])%list.
Proof. unfold positions. rewrite seq_S, map_app. reflexivity. Qed.

Lemma messages_snoc (d : number) (n : nat) :
  messages d (S n) = (messages d n ++ [progress_message (Z.of_nat n + 1) d])%list.
Proof. unfold messages. rewrite seq_S, map_app. reflexivity. Qed.

Lemma invariant_start (ctx : bool) : invariant jpeg ctx (start true true).
Proof.
  constructor; simpl; try reflexivity; try discriminate; auto.
  all: try (unfold maxFrames; lia).
  all: try (intros H; contradiction H; reflexivity).
  destruct ctx; reflexivity.
Qed.

(** [captureFrame] re-establishes the invariant from a state in which the
    element is ready, no seek is outstanding and the promise is open. *)
Lemma invariant_captureFrame (ctx : bool) (s : state) :
  created s = 1%nat ->
  video_phase s = Ready ->
  seeking s = false ->
  onseeked_set s = true ->
  settled s = Unsettled ->
  revoked s = 0%nat ->
  frameCount s = Z.of_nat (List.length (frames s)) ->
  frameCount s <= maxFrames ->
  (if ctx then currentTime s = frameCount s * interval else frames s = []) ->
  drawn s = positions (List.length (frames s)) ->
  frames s = map jpeg (drawn s) ->
  progress s = messages (duration s) (List.length (frames s)) ->
  (0 < frameCount s ->
   Js.ge (of_Z (currentTime s - interval)) (duration s) = false) ->
  invariant jpeg ctx (captureFrame s).
Proof.
  intros Hc Hp Hs Ho Hu Hr Hn Hb Ht Hd Hf Hg Hl.
  unfold captureFrame.
  destruct (Js.ge (of_Z (currentTime s)) (duration s)) eqn:Hge;
    [ | destruct (maxFrames <=? frameCount s) eqn:Hmax ]; cbn [orb].
  1, 2: unfold resolve_frames, settle; cbn [settled revokeObjectURL];
    rewrite Hu; constructor; simpl_state; auto; try congruence;
    try discriminate; try (rewrite Hs; reflexivity);
    try (intros _; lia).
  constructor; simpl_state; auto; try congruence;
    try (intros H; contradiction H; exact Hu).
  intros _; repeat split; auto. apply Z.leb_gt; exact Hmax.
Qed.

Lemma invariant_dispatch (ctx : bool) (s : state) (ev : event) :
  invariant jpeg ctx s -> enabled s ev = true ->
  invariant jpeg ctx (dispatch jpeg ctx ev s).
Proof.
  intros I En. destruct ev as [d w h | | ]; cbn [enabled] in En.
  - (* loadedmetadata *)
    destruct (video_phase s) eqn:Hp; try discriminate.
    destruct (inv_loading _ _ s I Hp) as (Hu & Hs & Hf & Hn & Ht).
    pose proof (inv_revoked _ _ s I Hu) as Hr.
    pose proof (inv_drawn _ _ s I) as Hd. rewrite Hf in Hd.
    unfold dispatch, onloadedmetadata.
    apply invariant_captureFrame; simpl_state; auto.
    + apply (inv_created _ _ s I).
    + rewrite Hf; reflexivity.
    + unfold maxFrames; lia.
    + destruct ctx; [reflexivity | exact Hf].
    + rewrite Hf; exact Hd.
    + rewrite Hd, Hf; reflexivity.
    + rewrite (inv_progress _ _ s I), Hf; reflexivity.
    + lia.
  - (* seeked *)
    destruct (inv_seeking _ _ s I En) as (Hp & Ho & Hv & Hge & Hlt).
    pose proof (inv_ready _ _ s I Hp) as Hu. rewrite En in Hu.
    pose proof (inv_revoked _ _ s I Hu) as Hr.
    pose proof (inv_time _ _ s I) as Ht.
    unfold dispatch. cbn [onseeked_set set_video]. rewrite Ho.
    unfold onseeked.
    destruct ctx.
    + apply invariant_captureFrame; simpl_state; auto.
      * apply (inv_created _ _ s I).
      * rewrite length_app, (inv_count _ _ s I), Nat2Z.inj_add. reflexivity.
      * lia.
      * unfold interval in *; lia.
      * rewrite length_app, Nat.add_1_r, positions_snoc.
        rewrite (inv_drawn _ _ s I) at 1. f_equal. f_equal.
        rewrite Hv, Ht, (inv_count _ _ s I). reflexivity.
      * rewrite map_app, <- (inv_frames _ _ s I). reflexivity.
      * rewrite length_app, Nat.add_1_r, messages_snoc.
        rewrite (inv_progress _ _ s I) at 1. f_equal. f_equal.
        rewrite (inv_count _ _ s I). reflexivity.
      * intros _. replace (currentTime s + interval - interval)
          with (currentTime s) by lia. exact Hge.
    + apply invariant_captureFrame; simpl_state; auto.
      * apply (inv_created _ _ s I).
      * apply (inv_count _ _ s I).
      * apply (inv_bound _ _ s I).
      * apply (inv_drawn _ _ s I).
      * apply (inv_frames _ _ s I).
      * apply (inv_progress _ _ s I).
      * intros _. replace (currentTime s + interval - interval)
          with (currentTime s) by lia. exact Hge.
  - (* error *)
    unfold dispatch, onerror, reject, settle.
    cbn [settled revokeObjectURL set_video].
    destruct (settled s) as [ | | e] eqn:Hu;
      constructor; simpl_state; try discriminate; auto; try congruence.
    all: try (intros e' He'; injection He' as <-; reflexivity).
    all: try (split; [reflexivity | discriminate]).
    all: try (apply (inv_created _ _ s I)).
    all: try (apply (inv_count _ _ s I)).
    all: try (apply (inv_bound _ _ s I)).
    all: try (apply (inv_time _ _ s I)).
    all: try (apply (inv_drawn _ _ s I)).
    all: try (apply (inv_frames _ _ s I)).
    all: try (apply (inv_progress _ _ s I)).
    all: try (apply (inv_last _ _ s I)).
    all: try (intros _; apply (inv_resolved _ _ s I Hu)).
    all: try (intros _; lia).
    all: try (intros e' He'; apply (inv_rejected _ _ s I); congruence).
    all: intros _ _; split; [reflexivity | congruence].
Qed.

Lemma invariant_exec (ctx : bool) (evs : list event) :
  forall s s',
    invariant jpeg ctx s -> exec jpeg ctx s evs = Some s' ->
    invariant jpeg ctx s'.
Proof.
  induction evs as [ | ev evs IH]; intros s s' I E; cbn [exec] in E.
  - injection E as <-. exact I.
  - destruct (enabled s ev) eqn:En; [ | discriminate].
    apply (IH _ _ (invariant_dispatch ctx s ev I En) E).
Qed.

Lemma invariant_extractFrames (ctx : bool) (evs : list event) (s : state) :
  extractFrames jpeg ctx true true evs = Some s -> invariant jpeg ctx s.
Proof. apply invariant_exec, invariant_start. Qed.

(** Once the metadata is known, the closure's [duration] never changes. *)
Lemma captureFrame_fixed (s : state) :
  duration (captureFrame s) = duration s
  /\ video_phase (captureFrame s) = video_phase s.
Proof.
  unfold captureFrame, resolve_frames, settle.
  destruct (Js.ge _ _ || _); [ | split; reflexivity].
  cbn [settled revokeObjectURL]. destruct (settled s); split; reflexivity.
Qed.

Lemma dispatch_fixed (ctx : bool) (s : state) (ev : event) :
  video_phase s <> Loading -> enabled s ev = true ->
  duration (dispatch jpeg ctx ev s) = duration s
  /\ video_phase (dispatch jpeg ctx ev s) <> Loading.
Proof.
  intros Hp En. destruct ev as [d w h | | ]; cbn [enabled] in En.
  - destruct (video_phase s); try discriminate. contradiction Hp; reflexivity.
  - unfold dispatch. cbn [onseeked_set set_video].
    destruct (onseeked_set s); [ | split; [reflexivity | exact Hp]].
    unfold onseeked.
    match goal with |- context [captureFrame ?x] =>
      destruct (captureFrame_fixed x) as [-> ->] end.
    destruct ctx; cbn; split; auto.
  - unfold dispatch, onerror, reject, settle. cbn [settled revokeObjectURL set_video].
    destruct (settled s); cbn; split; auto; discriminate.
Qed.

Lemma exec_fixed (ctx : bool) (evs : list event) :
  forall s s',
    video_phase s <> Loading -> exec jpeg ctx s evs = Some s' ->
    duration s' = duration s.
Proof.
  induction evs as [ | ev evs IH]; intros s s' Hp E; cbn [exec] in E.
  - injection E as <-. reflexivity.
  - destruct (enabled s ev) eqn:En; [ | discriminate].
    destruct (dispatch_fixed ctx s ev Hp En) as [Hd Hp'].
    rewrite <- Hd. apply (IH _ _ Hp' E).
Qed.

(** A run that starts with the metadata: the state it ends in satisfies
    the invariant and holds the duration the metadata gave. *)
Lemma loaded_run (ctx : bool) (d : number) (w h : Z) (evs : list event) (s : state) :
  extractFrames jpeg ctx true true (Loadedmetadata d w h :: evs) = Some s ->
  invariant jpeg ctx s /\ duration s = d.
Proof.
  intros E. split; [exact (invariant_extractFrames _ _ _ E) | ].
  unfold extractFrames in E. cbn [exec enabled start negb orb video_phase] in E.
  apply exec_fixed in E.
  - rewrite E. unfold dispatch, onloadedmetadata.
    match goal with |- context [captureFrame ?x] =>
      destruct (captureFrame_fixed x) as [-> _] end.
    reflexivity.
  - unfold dispatch, onloadedmetadata.
    match goal with |- context [captureFrame ?x] =>
      destruct (captureFrame_fixed x) as [_ ->] end.
    cbn. discriminate.
Qed.

(** *** Counting the frames of a video of finite duration *)

Lemma ge_Num (z : Z) (d : Q) :
  Js.ge (of_Z z) (Num d) = true <-> (d <= inject_Z z)%Q.
Proof. apply Qle_bool_iff. Qed.

Lemma Qceiling_le_iff (d : Q) (z : Z) :
  (d <= inject_Z z)%Q <-> Qceiling d <= z.
Proof.
  split; intros H.
  - rewrite <- (Qceiling_Z z). apply Qceiling_resp_le. exact H.
  - apply Qle_trans with (inject_Z (Qceiling d)).
    + apply Qle_ceiling.
    + rewrite <- Zle_Qle. exact H.
Qed.

Lemma Qceiling_interval (d : Q) :
  Qceiling (d / inject_Z interval) = Qceiling d.
Proof. apply Qceiling_comp. unfold interval. field. Qed.

Lemma resolved_count (s : state) (d : Q) :
  invariant jpeg true s -> duration s = Num d -> (0 < d)%Q ->
  settled s = ResolvedWithFrames ->
  frameCount s = expected d.
Proof.
  intros I Hd Hpos Hr. unfold expected.
  pose proof (inv_bound _ _ s I) as Hb.
  pose proof (inv_time _ _ s I) as Ht. cbn in Ht.
  pose proof (inv_last _ _ s I) as Hl.
  rewrite Hd, Ht in *. unfold interval, maxFrames in *.
  assert (Hlow : 0 < frameCount s -> frameCount s - 1 < Qceiling d).
  { intros H0. specialize (Hl H0).
    replace (frameCount s * 1 - 1) with (frameCount s - 1) in Hl by lia.
    destruct (Z_lt_le_dec (frameCount s - 1) (Qceiling d)) as [ | Hle]; auto.
    apply Qceiling_le_iff, ge_Num in Hle. congruence. }
  destruct (inv_resolved _ _ s I Hr) as [Hge | Hmax].
  - rewrite Hd in Hge. apply ge_Num, Qceiling_le_iff in Hge.
    replace (frameCount s * 1) with (frameCount s) in Hge by lia.
    assert (0 < Qceiling d).
    { destruct (Z_lt_le_dec 0 (Qceiling d)) as [ | Hle]; auto.
      apply Qceiling_le_iff in Hle. exfalso.
      apply (Qlt_irrefl 0). apply Qlt_le_trans with d; assumption. }
    lia.
  - unfold maxFrames in Hmax. lia.
Qed.

Lemma seeking_count (s : state) (d : Q) :
  invariant jpeg true s -> duration s = Num d -> seeking s = true ->
  frameCount s < expected d.
Proof.
  intros I Hd Hs. unfold expected.
  destruct (inv_seeking _ _ s I Hs) as (_ & _ & _ & Hge & Hlt).
  unfold maxFrames in *.
  pose proof (inv_time _ _ s I) as Ht. cbn in Ht.
  rewrite Hd, Ht in Hge. unfold interval in Hge.
  replace (frameCount s * 1) with (frameCount s) in Hge by lia.
  destruct (Z_lt_le_dec (frameCount s) (Qceiling d)) as [ | Hle]; [lia | ].
  apply Qceiling_le_iff, ge_Num in Hle. congruence.
Qed.

Lemma captureFrame_frameCount (s : state) :
  frameCount (captureFrame s) = frameCount s.
Proof.
  unfold captureFrame, resolve_frames, settle.
  destruct (Js.ge _ _ || _); [ | reflexivity].
  cbn [settled revokeObjectURL]. destruct (settled s); reflexivity.
Qed.

(** A confirmed seek, with a 2D context: one more frame, same phase. *)
Lemma dispatch_Seeked (s : state) :
  onseeked_set s = true ->
  frameCount (dispatch jpeg true Seeked s) = frameCount s + 1
  /\ video_phase (dispatch jpeg true Seeked s) = video_phase s.
Proof.
  intros Ho. unfold dispatch. cbn [onseeked_set set_video]. rewrite Ho.
  unfold onseeked. rewrite captureFrame_frameCount.
  match goal with |- context [video_phase (captureFrame ?x)] =>
    destruct (captureFrame_fixed x) as [_ ->] end.
  split; reflexivity.
Qed.

(** From a state waiting for a seek, confirming every seek ends the run
    after as many events as frames are still due. *)
Lemma confirm_seeks (d : Q) (m : nat) :
  forall s,
    invariant jpeg true s -> duration s = Num d -> (0 < d)%Q ->
    seeking s = true ->
    Z.of_nat m = expected d - frameCount s ->
    exists s',
      exec jpeg true s (repeat Seeked m) = Some s'
      /\ settled s' = ResolvedWithFrames.
Proof.
  induction m as [ | m IH]; intros s I Hd Hpos Hs Hm.
  - pose proof (seeking_count s d I Hd Hs). lia.
  - cbn [repeat exec enabled]. rewrite Hs.
    destruct (inv_seeking _ _ s I Hs) as (Hp & Ho & _).
    pose proof (invariant_dispatch true s Seeked I Hs) as I'.
    destruct (dispatch_Seeked s Ho) as [Hn Hp'].
    assert (Hd' : duration (dispatch jpeg true Seeked s) = Num d).
    { rewrite <- Hd. apply dispatch_fixed; [congruence | exact Hs]. }
    destruct (seeking (dispatch jpeg true Seeked s)) eqn:Hs'.
    + apply IH; auto. lia.
    + assert (Hr : settled (dispatch jpeg true Seeked s) = ResolvedWithFrames).
      { pose proof (inv_ready _ _ _ I') as H. rewrite Hs' in H.
        apply H. congruence. }
      pose proof (resolved_count _ d I' Hd' Hpos Hr) as Hc.
      assert (m = 0%nat) as -> by lia.
      cbn [repeat exec]. eauto.
Qed.

(** The whole run of a video of duration [d > 0]: the metadata, then one
    confirmed seek per frame. *)
Lemma full_run (d : Q) (w h : Z) :
  (0 < d)%Q ->
  exists s,
    extractFrames jpeg true true true
      (Loadedmetadata (Num d) w h :: repeat Seeked (Z.to_nat (expected d)))
    = Some s
    /\ settled s = ResolvedWithFrames.
Proof.
  intros Hpos. unfold extractFrames.
  cbn [exec enabled start negb orb video_phase].
  set (s0 := dispatch jpeg true (Loadedmetadata (Num d) w h) _).
  assert (I : invariant jpeg true s0)
    by (apply invariant_dispatch; [apply invariant_start | reflexivity]).
  assert (Hd : duration s0 = Num d).
  { unfold s0, dispatch, onloadedmetadata.
    match goal with |- context [captureFrame ?x] =>
      destruct (captureFrame_fixed x) as [-> _] end. reflexivity. }
  assert (Hn : frameCount s0 = 0).
  { unfold s0, dispatch, onloadedmetadata. rewrite captureFrame_frameCount.
    reflexivity. }
  assert (Hs : seeking s0 = true).
  { unfold s0, dispatch, onloadedmetadata, captureFrame.
    cbn [currentTime duration frameCount set_onseeked set_closure].
    replace (Js.ge (of_Z 0) (Num d)) with false; [reflexivity | ].
    symmetry. apply not_true_is_false. intros H. apply ge_Num in H.
    apply (Qlt_irrefl 0). apply Qlt_le_trans with d; assumption. }
  apply (confirm_seeks d _ s0 I Hd Hpos Hs).
  pose proof (seeking_count s0 d I Hd Hs). lia.
Qed.

(** *** The lists kept by the sampler, index by index *)

Lemma nth_error_positions (n k : nat) :
  (k < n)%nat -> nth_error (positions n) k = Some (Z.of_nat k * interval).
Proof.
  intros H. unfold positions.
  rewrite nth_error_map, nth_error_seq.
  apply Nat.ltb_lt in H. rewrite H. reflexivity.
Qed.

Lemma nth_error_messages (d : number) (n k : nat) :
  (k < n)%nat ->
  nth_error (messages d n) k = Some (progress_message (Z.of_nat k + 1) d).
Proof.
  intros H. unfold messages.
  rewrite nth_error_map, nth_error_seq.
  apply Nat.ltb_lt in H. rewrite H. reflexivity.
Qed.

Lemma length_positions (n : nat) : List.length (positions n) = n.
Proof. unfold positions. rewrite length_map, length_seq. reflexivity. Qed.

Lemma length_messages (d : number) (n : nat) :
  List.length (messages d n) = n.
Proof. unfold messages. rewrite length_map, length_seq. reflexivity. Qed.

End Invariant.

(** *** Bounded sampling *)

(** C1.  With a 2D context, a video of finite duration [d > 0], sampled
    every [interval = 1] second up to [maxFrames = 16] frames, yields exactly
    [min (maxFrames, ceil (d / interval))] frames: the run in which the
    browser confirms every seek ends fulfilled with that many frames, and so
    does every other run over that video that ends fulfilled.  Whatever the
    duration, the context and the events, the sequence never holds more
    than [maxFrames] frames. *)
Theorem extractFrames_length (jpeg : Z -> string) (d : Q) (w h : Z) :
  (0 < d)%Q ->
  let n := Z.min maxFrames (Qceiling (d / inject_Z interval)) in
  (exists s,
      extractFrames jpeg true true true
        (Loadedmetadata (Num d) w h :: repeat Seeked (Z.to_nat n)) = Some s
      /\ result s = Fulfilled (frames s)
      /\ Z.of_nat (List.length (frames s)) = n)
  /\ (forall evs s fs,
         extractFrames jpeg true true true (Loadedmetadata (Num d) w h :: evs)
         = Some s ->
         result s = Fulfilled fs ->
         Z.of_nat (List.length fs) = n)
  /\ (forall ctx evs s,
         extractFrames jpeg ctx true true evs = Some s ->
         Z.of_nat (List.length (frames s)) <= maxFrames).
Proof.
  intros Hpos n. unfold n. rewrite Qceiling_interval.
  fold (expected d). repeat split.
  - destruct (full_run jpeg d w h Hpos) as (s & E & Hr).
    exists s. destruct (loaded_run jpeg true _ _ _ _ _ E) as [I Hd].
    repeat split.
    + exact E.
    + unfold result. rewrite Hr. reflexivity.
    + rewrite <- (inv_count _ _ s I). apply (resolved_count jpeg s d I Hd Hpos Hr).
  - intros evs s fs E Hf.
    destruct (loaded_run jpeg true _ _ _ _ _ E) as [I Hd].
    unfold result in Hf. destruct (settled s) eqn:Hr; try discriminate.
    injection Hf as <-.
    rewrite <- (inv_count _ _ s I). apply (resolved_count jpeg s d I Hd Hpos Hr).
  - intros ctx evs s E.
    pose proof (invariant_extractFrames jpeg ctx evs s E) as I.
    rewrite <- (inv_count _ _ s I). apply (inv_bound _ _ s I).
Qed.

Lemma extractFrames_length_witness :
  (0 < 34 # 10)%Q
  /\ exists s,
      extractFrames (fun _ => "jpeg") true true true
        (Loadedmetadata (Num (34 # 10)) 640 360 :: repeat Seeked 4) = Some s
      /\ Z.of_nat (List.length (frames s)) = 4.
Proof.
  split; [reflexivity | ].
  destruct (extractFrames_length (fun _ => "jpeg") (34 # 10) 640 360 eq_refl)
    as [(s & E & _ & L) _].
  exists s. split; [exact E | exact L].
Defined.

(** A source without an end ([duration] is [Infinity]) is cut at
    [maxFrames] frames. *)
Lemma extractFrames_length_endless (jpeg : Z -> string) (w h : Z) :
  (exists s,
      extractFrames jpeg true true true
        (Loadedmetadata PosInfinity w h :: repeat Seeked (Z.to_nat maxFrames))
      = Some s
      /\ result s = Fulfilled (frames s)
      /\ Z.of_nat (List.length (frames s)) = maxFrames)
  /\ (forall evs s fs,
         extractFrames jpeg true true true (Loadedmetadata PosInfinity w h :: evs)
         = Some s ->
         result s = Fulfilled fs ->
         Z.of_nat (List.length fs) = maxFrames).
Proof.
  split.
  - eexists. split; [vm_compute; reflexivity | split; reflexivity].
  - intros evs s fs E Hf.
    destruct (loaded_run jpeg true _ _ _ _ _ E) as [I Hd].
    unfold result in Hf. destruct (settled s) eqn:Hr; try discriminate.
    injection Hf as <-.
    rewrite <- (inv_count _ _ s I).
    pose proof (inv_bound _ _ s I).
    destruct (inv_resolved _ _ s I Hr) as [Hge | Hmax]; [ | lia].
    rewrite Hd in Hge. discriminate.
Qed.

(** *** Capture order *)

(** C6.  In every run that ends fulfilled, the frame at index [k] is the
    picture drawn at timeline position [k * interval]: the positions drawn
    are [0, interval, 2 * interval, ...], one per frame, and so strictly
    increasing in the index. *)
Theorem capture_positions (jpeg : Z -> string) (ctx : bool)
        (evs : list event) (s : state) (fs : list string) :
  extractFrames jpeg ctx true true evs = Some s ->
  result s = Fulfilled fs ->
  List.length (drawn s) = List.length fs
  /\ (forall k, (k < List.length fs)%nat ->
                nth_error (drawn s) k = Some (Z.of_nat k * interval)
                /\ nth_error fs k = Some (jpeg (Z.of_nat k * interval)))
  /\ (forall i j p q, (i < j)%nat ->
                      nth_error (drawn s) i = Some p ->
                      nth_error (drawn s) j = Some q ->
                      p < q).
Proof.
  intros E Hf.
  pose proof (invariant_extractFrames jpeg ctx evs s E) as I.
  unfold result in Hf. destruct (settled s); try discriminate.
  injection Hf as <-.
  pose proof (inv_drawn _ _ s I) as Hd.
  pose proof (inv_frames _ _ s I) as Hfr.
  assert (Hk : forall k, (k < List.length (frames s))%nat ->
                         nth_error (drawn s) k = Some (Z.of_nat k * interval)).
  { intros k Hlt. rewrite Hd. apply nth_error_positions. exact Hlt. }
  repeat split.
  - rewrite Hd. apply length_positions.
  - apply Hk. assumption.
  - rewrite Hfr at 1. rewrite nth_error_map, (Hk k) by assumption. reflexivity.
  - intros i j p q Hij Hi Hj.
    assert (Hjn : (j < List.length (frames s))%nat).
    { rewrite <- (length_positions (List.length (frames s))), <- Hd.
      apply nth_error_Some. congruence. }
    rewrite (Hk i) in Hi by lia. rewrite (Hk j) in Hj by lia.
    injection Hi as <-. injection Hj as <-. unfold interval. lia.
Qed.

Lemma capture_positions_witness :
  exists s,
    extractFrames Z_toString true true true
      (Loadedmetadata (Num (34 # 10)) 640 360 :: repeat Seeked 4) = Some s
    /\ nth_error (frames s) 3 = Some "3".
Proof.
  destruct (extractFrames Z_toString true true true
              (Loadedmetadata (Num (34 # 10)) 640 360 :: repeat Seeked 4))
    as [s | ] eqn:E; [ | vm_compute in E; discriminate].
  exists s. split; [reflexivity | ].
  assert (R : result s = Fulfilled (frames s)).
  { vm_compute in E. injection E as <-. reflexivity. }
  assert (L : (3 < List.length (frames s))%nat).
  { vm_compute in E. injection E as <-. cbn. lia. }
  exact (proj2 (proj1 (proj2 (capture_positions _ _ _ _ _ E R)) 3%nat L)).
Defined.

(** *** Progress reports *)

(** A whole number prints as its digits. *)
Lemma toString_of_Z (z : Z) : toString (of_Z z) = Z_toString z.
Proof.
  unfold toString, of_Z, inject_Z. cbn [Qnum].
  destruct z as [ | p | p].
  - reflexivity.
  - replace (Z.pos p <? 0) with false by reflexivity.
    unfold Q_toString, Qfloor. cbn [Qnum Qden].
    rewrite Z.div_1_r, Z.mul_1_r, Z.sub_diag. reflexivity.
  - replace (Z.neg p <? 0) with true by reflexivity.
    unfold Q_toString, Qfloor, Qopp. cbn [Qnum Qden Z.opp].
    rewrite Z.div_1_r, Z.mul_1_r, Z.sub_diag. reflexivity.
Qed.

(** On a finite duration the total shown is the whole number
    [min (maxFrames, floor (duration))]. *)
Lemma total_text (q : Q) :
  toString (Math_min (of_Z maxFrames) (Math_floor (Num q)))
  = Z_toString (Z.min maxFrames (Qfloor q)).
Proof.
  unfold Math_floor, Math_min. unfold of_Z at 1 2.
  destruct (Qle_bool (inject_Z maxFrames) (inject_Z (Qfloor q))) eqn:H;
    [fold (of_Z maxFrames) | fold (of_Z (Qfloor q))];
    rewrite toString_of_Z; f_equal.
  - apply Qle_bool_iff in H. rewrite <- Zle_Qle in H. lia.
  - assert (~ maxFrames <= Qfloor q).
    { intros Hle. rewrite Zle_Qle in Hle. apply Qle_bool_iff in Hle.
      congruence. }
    lia.
Qed.

(** C7.  At every point of every run over a video of duration [d], the
    texts passed to [setProgress] are one per captured frame, in order, and
    the text for the frame at index [k] shows [k + 1], the number of frames
    captured so far, over a total that is the whole number
    [min (maxFrames, floor (d))] when [d] is finite, 16 for an endless
    source and "NaN" when the duration is not known.  The total does not
    follow the real number of frames: a 3.4-second video gives four frames,
    reported as 1/3, 2/3, 3/3 and 4/3, not over 3.4 and not over 4. *)
Theorem progress_per_frame :
  (forall (jpeg : Z -> string) (ctx : bool) (d : number) (w h : Z)
          (evs : list event) (s : state),
      extractFrames jpeg ctx true true (Loadedmetadata d w h :: evs) = Some s ->
      List.length (progress s) = List.length (frames s)
      /\ forall k, (k < List.length (frames s))%nat ->
                   nth_error (progress s) k
                   = Some ("Extracting frames... "
                             ++ Z_toString (Z.of_nat k + 1) ++ "/"
                             ++ match d with
                                | Num q =>
                                    Z_toString (Z.min maxFrames (Qfloor q))
                                | PosInfinity => "16"
                                | NegInfinity => "-Infinity"
                                | NaN => "NaN"
                                end))
  /\ (forall jpeg : Z -> string,
         option_map (fun s => (List.length (frames s), progress s))
           (extractFrames jpeg true true true
              (Loadedmetadata (Num (34 # 10)) 640 360 :: repeat Seeked 4))
         = Some (4%nat,
                 ["Extracting frames... 1/3"; "Extracting frames... 2/3";
                  "Extracting frames... 3/3"; "Extracting frames... 4/3"])).
Proof.
  split; [ | intros jpeg; reflexivity].
  intros jpeg ctx d w h evs s E.
  destruct (loaded_run jpeg ctx _ _ _ _ _ E) as [I Hd].
  pose proof (inv_progress _ _ s I) as Hp. rewrite Hd in Hp.
  split.
  - rewrite Hp. apply length_messages.
  - intros k Hk. rewrite Hp, (nth_error_messages d _ k Hk).
    unfold progress_message. do 4 f_equal.
    destruct d as [q | | | ]; [apply total_text | reflexivity ..].
Qed.

Lemma progress_per_frame_witness :
  exists s,
    extractFrames Z_toString true true true
      (Loadedmetadata (Num (34 # 10)) 640 360 :: repeat Seeked 4) = Some s
    /\ nth_error (progress s) 3 = Some "Extracting frames... 4/3".
Proof.
  destruct (extractFrames Z_toString true true true
              (Loadedmetadata (Num (34 # 10)) 640 360 :: repeat Seeked 4))
    as [s | ] eqn:E; [ | vm_compute in E; discriminate].
  exists s. split; [reflexivity | ].
  assert (L : (3 < List.length (frames s))%nat).
  { vm_compute in E. injection E as <-. cbn. lia. }
  exact (proj2 (proj1 progress_per_frame _ _ _ _ _ _ _ E) 3%nat L).
Defined.

(** *** The object URL *)








(** *** A video of duration zero *)

(** The sampler does not reject a video of duration 0: the promise is
    fulfilled with an empty sequence. *)
Lemma zero_duration_fulfilled_empty :
  option_map result
    (extractFrames Z_toString true true true [Loadedmetadata (Num 0) 640 360])
  = Some (Fulfilled [])
  /\ ~ (exists e,
          option_map result
            (extractFrames Z_toString true true true
               [Loadedmetadata (Num 0) 640 360])
          = Some (Rejected e)).
Proof.
  split; [reflexivity | ].
  intros [e H]. vm_compute in H. discriminate.
Qed.

End FrameSamplerFacts.

(* ================================================================== *)
(** ** Facts about [geminiService] *)

Module GeminiServiceFacts.

Import Async GeminiService Examples.
Local Open Scope async_scope.

Lemma queries_app (l1 l2 : list effect) :
  queries (l1 ++ l2) = (queries l1 + queries l2)%nat.
Proof.
  induction l1 as [ | e l1 IH]; [reflexivity | ].
  destruct e; cbn; rewrite IH; reflexivity.
Qed.

Lemma fetches_app (l1 l2 : list effect) :
  fetches (l1 ++ l2) = (fetches l1 ++ fetches l2)%list.
Proof.
  induction l1 as [ | e l1 IH]; [reflexivity | ].
  destruct e; cbn; rewrite IH; reflexivity.
Qed.

Lemma requests_app (l1 l2 : list effect) :
  requests (l1 ++ l2) = (requests l1 ++ requests l2)%list.
Proof.
  induction l1 as [ | e l1 IH]; [reflexivity | ].
  destruct e; cbn; rewrite IH; reflexivity.
Qed.

Section Poller.

Variable P : provider.

Lemma queries_round (log : list effect) (op : videoOperation) :
  queries (round_log log op) = S (queries log).
Proof. unfold round_log. rewrite !queries_app. cbn. lia. Qed.

Lemma fetches_round (log : list effect) (op : videoOperation) :
  fetches (round_log log op) = fetches log.
Proof.
  unfold round_log. rewrite !fetches_app. cbn. rewrite !app_nil_r.
  reflexivity.
Qed.

Lemma poll_done (fuel : nat) (op : videoOperation) (log : list effect) :
  done op = true -> poll P fuel op log = (Fulfilled op, log).
Proof. intros H. destruct fuel; cbn; rewrite H; reflexivity. Qed.

(** One round of the loop on a handle that is not done. *)
Lemma poll_round (fuel : nat) (op : videoOperation) (log : list effect) :
  done op = false ->
  poll P (S fuel) op log
  = match getVideosOperation P (queries log) op with
    | Fulfilled op' => poll P fuel op' (round_log log op)
    | Rejected e => (Rejected e, round_log log op)
    | Pending => (Pending, round_log log op)
    end.
Proof.
  intros H. cbn [poll]. rewrite H.
  unfold bind, perform, call_getVideosOperation, round_log.
  rewrite !queries_app. cbn [queries]. rewrite !Nat.add_0_r.
  destruct (getVideosOperation P (queries log) op); reflexivity.
Qed.

(** The loop only ever hands on a handle that is done, and it never
    fetches. *)
Lemma poll_result (fuel : nat) :
  forall op log op' log',
    poll P fuel op log = (Fulfilled op', log') ->
    done op' = true /\ fetches log' = fetches log.
Proof.
  induction fuel as [ | fuel IH]; intros op log op' log' H.
  - cbn in H. destruct (done op) eqn:Hd; [ | discriminate].
    injection H as <- <-. auto.
  - destruct (done op) eqn:Hd.
    + rewrite poll_done in H by assumption. injection H as <- <-. auto.
    + rewrite poll_round in H by assumption.
      destruct (getVideosOperation P (queries log) op) as [ | op1 | e];
        try discriminate.
      apply IH in H. rewrite fetches_round in H. exact H.
Qed.

(** With the credential set, [handleVideoOperation] is the loop followed
    by what comes after it. *)
Lemma handleVideoOperation_phases
      (key : string) (fuel : nat) (getOperation : M videoOperation)
      (log : list effect) :
  API_KEY P = Some key -> key <> "" ->
  handleVideoOperation P fuel getOperation log
  = (operation <- until_done P fuel getOperation ;;
     after_loop P key operation)
      log.
Proof.
  intros Hk Hne. unfold handleVideoOperation. rewrite Hk.
  destruct key as [ | c key]; [contradiction Hne; reflexivity | ].
  unfold until_done, bind, perform.
  destruct (getOperation _) as [[ | op0 | e] log1]; reflexivity.
Qed.

(** The loop against a provider that reports "not done" on its first [k]
    status queries and hands out [final], which is done, on the next:
    started [r] queries before the last one, with more than [r] rounds
    allowed, it ends with [final] after [r + 1] further queries. *)
Lemma poll_counts (k : nat) (final : videoOperation) :
  (forall n op, (n < k)%nat ->
                exists op', getVideosOperation P n op = Fulfilled op'
                            /\ done op' = false) ->
  (forall op, getVideosOperation P k op = Fulfilled final) ->
  done final = true ->
  forall r fuel op log,
    done op = false ->
    (queries log + r = k)%nat -> (r < fuel)%nat ->
    exists log',
      poll P fuel op log = (Fulfilled final, log')
      /\ queries log' = S k
      /\ fetches log' = fetches log.
Proof.
  intros Hbefore Hlast Hfinal.
  induction r as [ | r IH]; intros fuel op log Hd Hq Hf;
    (destruct fuel as [ | fuel]; [lia | ]); rewrite poll_round by exact Hd.
  - replace (queries log) with k by lia. rewrite Hlast.
    rewrite poll_done by exact Hfinal.
    eexists. split; [reflexivity | ].
    rewrite queries_round, fetches_round. split; [lia | reflexivity].
  - destruct (Hbefore (queries log) op) as (op' & -> & Hd'); [lia | ].
    destruct (IH fuel op' (round_log log op) Hd') as (log' & Hp & Hq' & Hf').
    + rewrite queries_round. lia.
    + lia.
    + exists log'. rewrite Hp, Hq', Hf', fetches_round. auto.
Qed.

End Poller.

(** *** Termination of the poller *)

(** C2.  Let the credential be set, the submission return a handle that is
    not done, the status query answer "not done" on its first [k] calls and,
    on call [k + 1], a handle that is done, has no error and carries a
    download link, and let the download succeed.  Then, whenever more than
    [k] rounds of the loop are allowed, [handleVideoOperation] ends
    fulfilled with an object URL for the downloaded bytes, after exactly
    [k + 1] status queries and one fetch, of the link with the key
    appended. *)
Theorem poller_terminates
        (P : provider) (key : string) (getOperation : M videoOperation)
        (k : nat) (log0 logS : list effect) (op0 final : videoOperation)
        (link : string) (resp : httpResponse) :
  API_KEY P = Some key -> key <> "" ->
  getOperation
    (log0 ++ [OnProgress "Starting video generation operation..."])%list
  = (Fulfilled op0, logS) ->
  queries logS = 0%nat ->
  done op0 = false ->
  (forall n op, (n < k)%nat ->
                exists op', getVideosOperation P n op = Fulfilled op'
                            /\ done op' = false) ->
  (forall op, getVideosOperation P k op = Fulfilled final) ->
  done final = true -> error final = None ->
  downloadLink final = Some link -> link <> "" ->
  fetch P (link ++ "&key=" ++ key) = Fulfilled resp -> ok resp = true ->
  forall fuel, (k < fuel)%nat ->
    exists log,
      handleVideoOperation P fuel getOperation log0
      = (Fulfilled (createObjectURL P (body_blob resp)), log)
      /\ queries log = S k
      /\ fetches log = (fetches logS ++ [(link ++ "&key=" ++ key)%string])%list.
Proof.
  intros Hk Hne Hsub Hq0 Hd0 Hbefore Hlast Hfinal Herr Hlink Hlne Hfetch Hok
         fuel Hfuel.
  rewrite (handleVideoOperation_phases P key) by assumption.
  unfold until_done, bind at 1 2 3. cbn [perform]. rewrite Hsub.
  unfold bind at 1. cbn [perform].
  destruct (poll_counts P k final Hbefore Hlast Hfinal k fuel op0
              (logS ++ [OnProgress
                 "Operation initiated. Waiting for video to be processed. This can take several minutes."])%list
              Hd0) as (log' & Hp & Hq & Hf).
  { rewrite queries_app, Hq0. reflexivity. }
  { exact Hfuel. }
  rewrite Hp. unfold after_loop. rewrite Herr, Hlink.
  destruct link as [ | c link]; [contradiction Hlne; reflexivity | ].
  unfold call_fetch, bind, perform, await. rewrite Hfetch, Hok. cbn [negb].
  unfold ret. eexists. split; [reflexivity | ].
  rewrite !queries_app, !fetches_app, Hq, Hf, fetches_app. cbn.
  rewrite !app_nil_r. split; [lia | reflexivity].
Qed.

Lemma poller_terminates_witness :
  exists log,
    generateVideo (sample_provider 2 (finished (Some "https://video/1?alt=media")))
                  client_needs_key 3 "a cat" []
    = (Fulfilled "blob:bytes of https://video/1?alt=media&key=KEY", log)
    /\ queries log = 3%nat.
Proof.
  destruct (poller_terminates
              (sample_provider 2 (finished (Some "https://video/1?alt=media")))
              "KEY"
              (perform (GenerateVideos "veo-3.1-fast-generate-preview" "a cat") ;;
               await (Fulfilled notDone))
              2 [] _ notDone (finished (Some "https://video/1?alt=media"))
              "https://video/1?alt=media"
              (mkHttp true "OK" ""
                      "bytes of https://video/1?alt=media&key=KEY")
              eq_refl ltac:(discriminate) eq_refl eq_refl eq_refl)
    with (fuel := 3%nat) as (log & H & Hq & _);
    try reflexivity; try discriminate; try lia.
  - intros n op Hn. exists notDone. split; [ | reflexivity].
    destruct n as [ | [ | n]]; [reflexivity | reflexivity | lia].
  - exists log. split; [exact H | exact Hq].
Defined.

(** *** Failure of the job *)

(** C4.  Let the credential be set and the loop end with a handle [op] whose
    [error] field carries the message [X] (that handle is done, as every
    handle the loop ends with).  Then [handleVideoOperation] is rejected
    with the error "Video generation failed: X", and does nothing more: its
    log is the log at the end of the loop, in which nothing was fetched
    since the submission. *)
Theorem job_failure_propagates
        (P : provider) (key : string) (getOperation : M videoOperation)
        (fuel : nat) (log0 logS log1 : list effect)
        (op0 op : videoOperation) (X : string) :
  API_KEY P = Some key -> key <> "" ->
  getOperation
    (log0 ++ [OnProgress "Starting video generation operation..."])%list
  = (Fulfilled op0, logS) ->
  poll P fuel op0
       (logS ++ [OnProgress
          "Operation initiated. Waiting for video to be processed. This can take several minutes."])%list
  = (Fulfilled op, log1) ->
  error op = Some (mkOpError X) ->
  done op = true
  /\ handleVideoOperation P fuel getOperation log0
     = (Rejected (Error ("Video generation failed: " ++ X)), log1)
  /\ fetches log1 = fetches logS.
Proof.
  intros Hk Hne Hsub Hpoll Herr.
  destruct (poll_result P fuel _ _ _ _ Hpoll) as [Hd Hf].
  split; [exact Hd | split].
  - rewrite (handleVideoOperation_phases P key) by assumption.
    unfold until_done, bind at 1 2 3. cbn [perform]. rewrite Hsub.
    unfold bind at 1. cbn [perform]. rewrite Hpoll.
    unfold after_loop. rewrite Herr. reflexivity.
  - rewrite Hf, fetches_app. cbn. apply app_nil_r.
Qed.

Lemma job_failure_propagates_witness :
  exists log,
    generateVideo (sample_provider 1 (failed "quota exceeded"))
                  client_needs_key 5 "a cat" []
    = (Rejected (Error "Video generation failed: quota exceeded"), log)
    /\ fetches log = [].
Proof.
  eexists. split.
  - apply (job_failure_propagates
             (sample_provider 1 (failed "quota exceeded")) "KEY"
             (perform (GenerateVideos "veo-3.1-fast-generate-preview" "a cat") ;;
              await (Fulfilled notDone))
             5 [] _ _ notDone (failed "quota exceeded") "quota exceeded"
             eq_refl ltac:(discriminate) eq_refl eq_refl eq_refl).
  - reflexivity.
Defined.

(** *** A finished job without a download link *)

(** C5.  Let the credential be set and the loop end with a handle [op] that
    has no error and no download link in its response.  Then
    [handleVideoOperation] is rejected with the error "Could not retrieve
    video download link.", and does nothing more: nothing is fetched. *)
Theorem missing_link_rejected
        (P : provider) (key : string) (getOperation : M videoOperation)
        (fuel : nat) (log0 logS log1 : list effect)
        (op0 op : videoOperation) :
  API_KEY P = Some key -> key <> "" ->
  getOperation
    (log0 ++ [OnProgress "Starting video generation operation..."])%list
  = (Fulfilled op0, logS) ->
  poll P fuel op0
       (logS ++ [OnProgress
          "Operation initiated. Waiting for video to be processed. This can take several minutes."])%list
  = (Fulfilled op, log1) ->
  error op = None ->
  downloadLink op = None ->
  done op = true
  /\ handleVideoOperation P fuel getOperation log0
     = (Rejected (Error "Could not retrieve video download link."), log1)
  /\ fetches log1 = fetches logS.
Proof.
  intros Hk Hne Hsub Hpoll Herr Hlink.
  destruct (poll_result P fuel _ _ _ _ Hpoll) as [Hd Hf].
  split; [exact Hd | split].
  - rewrite (handleVideoOperation_phases P key) by assumption.
    unfold until_done, bind at 1 2 3. cbn [perform]. rewrite Hsub.
    unfold bind at 1. cbn [perform]. rewrite Hpoll.
    unfold after_loop. rewrite Herr, Hlink. reflexivity.
  - rewrite Hf, fetches_app. cbn. apply app_nil_r.
Qed.

Lemma missing_link_rejected_witness :
  exists log,
    generateVideo (sample_provider 1 (finished None)) client_needs_key 5
                  "a cat" []
    = (Rejected (Error "Could not retrieve video download link."), log)
    /\ fetches log = [].
Proof.
  eexists. split.
  - apply (missing_link_rejected
             (sample_provider 1 (finished None)) "KEY"
             (perform (GenerateVideos "veo-3.1-fast-generate-preview" "a cat") ;;
              await (Fulfilled notDone))
             5 [] _ _ notDone (finished None)
             eq_refl ltac:(discriminate) eq_refl eq_refl eq_refl eq_refl).
  - reflexivity.
Defined.

(** *** [editImage] *)

Lemma first_inline_found (pre post : list part) (p : part) (d : inline)
      (log : list effect) :
  (forall q, In q pre -> inlineData q = None) ->
  inlineData p = Some d ->
  first_inline (pre ++ p :: post) log
  = (Fulfilled ("data:image/png;base64," ++ interpolate (data d)), log).
Proof.
  intros Hpre Hp. induction pre as [ | q pre IH]; cbn [first_inline app].
  - rewrite Hp. reflexivity.
  - rewrite (Hpre q (or_introl eq_refl)). apply IH.
    intros q' Hq'. apply Hpre. right. exact Hq'.
Qed.

Lemma first_inline_none (ps : list part) (log : list effect) :
  (forall p, In p ps -> inlineData p = None) ->
  first_inline ps log = (Rejected (Error "No image generated"), log).
Proof.
  induction ps as [ | p ps IH]; intros H; cbn [first_inline].
  - reflexivity.
  - rewrite (H p (or_introl eq_refl)). apply IH.
    intros q Hq. apply H. right. exact Hq.
Qed.

Lemma first_inline_some (ps : list part) (log : list effect) :
  (exists p, In p ps /\ inlineData p <> None) ->
  exists p d,
    In p ps /\ inlineData p = Some d
    /\ first_inline ps log
       = (Fulfilled ("data:image/png;base64," ++ interpolate (data d)), log).
Proof.
  induction ps as [ | q ps IH]; intros (p & Hin & Hp).
  - destruct Hin.
  - cbn [first_inline]. destruct (inlineData q) as [d | ] eqn:Hq.
    + exists q, d. repeat split; auto. left. reflexivity.
    + destruct Hin as [-> | Hin]; [congruence | ].
      destruct IH as (p' & d & Hin' & Hd & Hr); [eauto | ].
      exists p', d. repeat split; auto. right. exact Hin'.
Qed.

(** What [editImage] does once the provider has answered. *)
Lemma editImage_answered
      (P : provider) (prompt : string) (imageFile : file) (url : string)
      (log : list effect) (response : response) :
  file_dataURL imageFile = Some url ->
  generateContent P
    (mkRequest "gemini-2.5-flash-image"
               [inline_part (nth_error (split "," url) 1) (file_type imageFile);
                text_part prompt]
               (Some [IMAGE]))
  = Fulfilled response ->
  editImage P prompt imageFile log
  = match candidates response with
    | None =>
        throw (TypeError "Cannot read properties of undefined (reading '0')")
    | Some cs =>
        match nth_error cs 0 with
        | None =>
            throw (TypeError
                     "Cannot read properties of undefined (reading 'content')")
        | Some first =>
            match candidate_content first with
            | None =>
                throw (TypeError
                         "Cannot read properties of undefined (reading 'parts')")
            | Some c =>
                match parts c with
                | None => throw (TypeError "undefined is not iterable")
                | Some ps => first_inline ps
                end
            end
        end
    end
      (log ++ [GenerateContent
                 (mkRequest "gemini-2.5-flash-image"
                    [inline_part (nth_error (split "," url) 1)
                                 (file_type imageFile);
                     text_part prompt]
                    (Some [IMAGE]))])%list.
Proof.
  intros Hfile Hresp.
  unfold editImage, fileToGenerativePart, fileToBase64. rewrite Hfile.
  unfold call_generateContent, bind, perform, await, ret.
  rewrite Hresp. reflexivity.
Qed.

(** C9, as the code has it.  Let the image file be readable and the
    provider answer the edit request.  When the response has a first
    candidate whose content has a list of parts [ps]: if some part of [ps]
    carries inline data, [editImage] is fulfilled with
    "data:image/png;base64," followed by the data of the first such part,
    whatever MIME type that part declares; if no part does, it is rejected
    with the error "No image generated".  When the response has no
    candidates, or its first candidate has no content, or that content has
    no parts, [editImage] is rejected with a TypeError, not with "No image
    generated". *)
Theorem editImage_outcome
        (P : provider) (prompt : string) (imageFile : file) (url : string)
        (log : list effect) (response : response) :
  file_dataURL imageFile = Some url ->
  generateContent P
    (mkRequest "gemini-2.5-flash-image"
               [inline_part (nth_error (split "," url) 1) (file_type imageFile);
                text_part prompt]
               (Some [IMAGE]))
  = Fulfilled response ->
  let outcome := fst (editImage P prompt imageFile log) in
  (forall first rest c ps,
      candidates response = Some (first :: rest) ->
      candidate_content first = Some c ->
      parts c = Some ps ->
      (forall pre p post d,
          ps = (pre ++ p :: post)%list ->
          (forall q, In q pre -> inlineData q = None) ->
          inlineData p = Some d ->
          outcome
          = Fulfilled ("data:image/png;base64," ++ interpolate (data d)))
      /\ ((exists p, In p ps /\ inlineData p <> None) ->
          exists p d,
            In p ps /\ inlineData p = Some d
            /\ outcome
               = Fulfilled ("data:image/png;base64," ++ interpolate (data d)))
      /\ ((forall p, In p ps -> inlineData p = None) ->
          outcome = Rejected (Error "No image generated")))
  /\ (candidates response = None
      \/ candidates response = Some []
      \/ (exists first rest,
             candidates response = Some (first :: rest)
             /\ (candidate_content first = None
                 \/ exists c, candidate_content first = Some c
                              /\ parts c = None)) ->
      exists msg, outcome = Rejected (TypeError msg)).
Proof.
  intros Hfile Hresp outcome. unfold outcome.
  rewrite (editImage_answered P prompt imageFile url log response Hfile Hresp).
  split.
  - intros first rest c ps Hcand Hcont Hparts.
    rewrite Hcand. cbn [nth_error]. rewrite Hcont, Hparts.
    repeat split.
    + intros pre p post d Hps Hpre Hp. rewrite Hps.
      rewrite (first_inline_found pre post p d _ Hpre Hp). reflexivity.
    + intros H.
      match goal with |- context [first_inline ps ?l] =>
        destruct (first_inline_some ps l H) as (p & d & Hin & Hd & ->) end.
      exists p, d. auto.
    + intros H. rewrite (first_inline_none ps _ H). reflexivity.
  - intros [H | [H | (first & rest & H & Hc)]]; rewrite H; cbn [nth_error].
    + eexists; reflexivity.
    + eexists; reflexivity.
    + destruct Hc as [Hc | (c & Hc & Hp)]; rewrite Hc, ?Hp;
        eexists; reflexivity.
Qed.

Lemma editImage_outcome_witness :
  fst (editImage image_provider "make it blue"
         (mkFile "image/png" (Some "data:image/png;base64,AAAA")) [])
  = Fulfilled "data:image/png;base64,QUJD".
Proof.
  refine (proj1 (proj1 (editImage_outcome image_provider "make it blue"
                          (mkFile "image/png"
                                  (Some "data:image/png;base64,AAAA"))
                          "data:image/png;base64,AAAA" [] _
                          eq_refl eq_refl)
                       _ _ _ _ eq_refl eq_refl eq_refl)
                [text_part "Here is the image."]
                (inline_part (Some "QUJD") "image/jpeg") []
                (mkInline (Some "QUJD") "image/jpeg") eq_refl _ eq_refl).
  intros q [<- | []]. reflexivity.
Defined.

(** A response without candidates: no part carries inline data, and
    [editImage] fails, but not with "No image generated". *)
Lemma editImage_without_candidates :
  fst (editImage
         (mkProvider (Some "KEY")
                     (fun _ => Fulfilled (mkResponse (Some []) None))
                     (fun _ _ => Fulfilled notDone) (fun _ op => Fulfilled op)
                     (fun _ => Rejected NotAnError) (fun b => b))
         "make it blue"
         (mkFile "image/png" (Some "data:image/png;base64,AAAA")) [])
  = Rejected
      (TypeError "Cannot read properties of undefined (reading 'content')")
  /\ fst (editImage
            (mkProvider (Some "KEY")
                        (fun _ => Fulfilled (mkResponse (Some []) None))
                        (fun _ _ => Fulfilled notDone)
                        (fun _ op => Fulfilled op)
                        (fun _ => Rejected NotAnError) (fun b => b))
            "make it blue"
            (mkFile "image/png" (Some "data:image/png;base64,AAAA")) [])
     <> Rejected (Error "No image generated").
Proof. split; [reflexivity | discriminate]. Qed.

(** *** Default prompts *)

(** C10.  With an empty prompt, [analyzeImage] and [analyzeVideoFrames]
    behave exactly as with their built-in prompts: same effects, same
    outcome.  The one request they send carries the built-in prompt as its
    text part, followed by the image, or by the frames, as inline data. *)
Theorem empty_prompt_defaults (P : provider) :
  (forall imageFile log,
      analyzeImage P "" imageFile log
      = analyzeImage P "Analyze this image in detail." imageFile log)
  /\ (forall frames log,
         analyzeVideoFrames P "" frames log
         = analyzeVideoFrames P
             "These are sequential frames from a video. Analyze the video and describe what is happening."
             frames log)
  /\ (forall imageFile url log,
         file_dataURL imageFile = Some url ->
         requests (snd (analyzeImage P "" imageFile log))
         = (requests log
              ++ [mkRequest "gemini-2.5-flash"
                    [text_part "Analyze this image in detail.";
                     inline_part (nth_error (split "," url) 1)
                                 (file_type imageFile)]
                    None])%list)
  /\ (forall frames log,
         requests (snd (analyzeVideoFrames P "" frames log))
         = (requests log
              ++ [mkRequest "gemini-2.5-pro"
                    (text_part
                       "These are sequential frames from a video. Analyze the video and describe what is happening."
                       :: map frame_part frames)
                    None])%list).
Proof.
  repeat split.
  - intros imageFile url log Hfile.
    unfold analyzeImage, fileToGenerativePart, fileToBase64. rewrite Hfile.
    unfold call_generateContent, bind, perform, await, ret.
    match goal with |- context [generateContent P ?r] =>
      destruct (generateContent P r) end;
      cbn [snd]; rewrite requests_app; reflexivity.
  - intros frames log. unfold analyzeVideoFrames.
    unfold call_generateContent, bind, perform, await, ret.
    match goal with |- context [generateContent P ?r] =>
      destruct (generateContent P r) end;
      cbn [snd]; rewrite requests_app; reflexivity.
Qed.

Lemma empty_prompt_defaults_witness :
  requests
    (snd (analyzeImage (sample_provider 0 notDone) ""
            (mkFile "image/png" (Some "data:image/png;base64,AAAA")) []))
  = [mkRequest "gemini-2.5-flash"
       [text_part "Analyze this image in detail.";
        inline_part (Some "AAAA") "image/png"]
       None].
Proof.
  exact (proj1 (proj2 (proj2 (empty_prompt_defaults (sample_provider 0 notDone))))
               (mkFile "image/png" (Some "data:image/png;base64,AAAA"))
               "data:image/png;base64,AAAA" [] eq_refl).
Defined.

End GeminiServiceFacts.

(* ================================================================== *)
(** ** Facts about [VideoAnalyze] *)

Module VideoAnalyzeFacts.

Import Async FrameSampler FrameSamplerFacts VideoAnalyze.
Local Open Scope async_scope.

(** Once the promise is settled and no seek is outstanding, only error
    events can follow, and they change neither the outcome nor what was
    captured. *)
Lemma exec_settled (jpeg : Z -> string) (ctx : bool) (evs : list event) :
  forall s s',
    video_phase s <> Loading -> seeking s = false ->
    settled s <> Unsettled ->
    exec jpeg ctx s evs = Some s' ->
    settled s' = settled s /\ frames s' = frames s
    /\ progress s' = progress s.
Proof.
  induction evs as [ | ev evs IH]; intros s s' Hp Hs Hu E; cbn [exec] in E.
  - injection E as <-. auto.
  - destruct ev as [d w h | | ]; cbn [enabled] in E.
    + destruct (video_phase s); try discriminate.
      contradiction Hp; reflexivity.
    + rewrite Hs in E. discriminate.
    + destruct (match video_phase s with NoSource => false | _ => true end);
        [ | discriminate].
      assert (Hd : settled (dispatch jpeg ctx ErrorEvent s) = settled s
                   /\ frames (dispatch jpeg ctx ErrorEvent s) = frames s
                   /\ progress (dispatch jpeg ctx ErrorEvent s) = progress s
                   /\ video_phase (dispatch jpeg ctx ErrorEvent s) = Broken
                   /\ seeking (dispatch jpeg ctx ErrorEvent s) = false).
      { unfold dispatch, onerror, reject, settle.
        cbn [settled revokeObjectURL set_video].
        destruct (settled s) eqn:Hset; [contradiction Hu; reflexivity | | ];
          cbn; rewrite ?Hset; auto. }
      destruct Hd as (H1 & H2 & H3 & H4 & H5).
      apply IH in E; [ | rewrite H4; discriminate | exact H5
                       | rewrite H1; exact Hu].
      destruct E as (-> & -> & ->). auto.
Qed.

Lemma result_settled (s s' : state) :
  settled s' = settled s -> frames s' = frames s -> result s' = result s.
Proof. intros H1 H2. unfold result. rewrite H1, H2. reflexivity. Qed.

(** The state after the metadata of a video of duration zero. *)
Lemma zero_duration_state (jpeg : Z -> string) (ctx : bool) (d : Q) (w h : Z) :
  (d == 0)%Q ->
  dispatch jpeg ctx (Loadedmetadata (Num d) w h) (start true true)
  = mkState Ready false 0 true w h [] (Num d) 0 0 [] 1 1
            ResolvedWithFrames [].
Proof.
  intros Hd. unfold dispatch, onloadedmetadata, captureFrame.
  cbn [start negb orb set_video set_canvas set_closure set_onseeked
       currentTime duration frameCount].
  replace (Js.ge (of_Z 0) (Num d)) with true; [reflexivity | ].
  symmetry. apply ge_Num. rewrite Hd. apply Qle_refl.
Qed.

(** C3, as the code has it.  When the browser reports an error in place of
    the metadata, [extractFrames] is rejected with the error "Error loading
    video file.".  For a video of duration zero, [extractFrames] is
    fulfilled, with an empty sequence; it is the caller, [handleSubmit],
    that turns the empty sequence into the error "Could not extract any
    frames from the video.", shown to the user, without sending any request
    to the provider.  Both hold whatever events follow. *)
Theorem unreadable_or_empty_video
        (jpeg : Z -> string) (ctx : bool) (P : provider) (m : mode)
        (prompt : string) (videoFile : file)
        (contextImageFile : option file) :
  (forall evs s,
      extractFrames jpeg ctx true true (ErrorEvent :: evs) = Some s ->
      result s = Rejected (Error "Error loading video file."))
  /\ (forall d w h evs s,
         (d == 0)%Q ->
         extractFrames jpeg ctx true true (Loadedmetadata (Num d) w h :: evs)
         = Some s ->
         result s = Fulfilled []
         /\ forall log,
             (m = videoWithImage -> contextImageFile <> None) ->
             handleSubmit P m prompt (Some videoFile) contextImageFile s log
             = (Fulfilled tt,
                (log ++ [SetIsLoading true; SetError None; SetAnalysis None;
                         SetProgress "Starting analysis...";
                         SetError
                           (Some "Could not extract any frames from the video.");
                         SetIsLoading false; SetProgress ""])%list)).
Proof.
  split.
  - intros evs s E. unfold extractFrames in E.
    cbn [exec enabled start negb orb video_phase] in E.
    apply exec_settled in E;
      [ | cbn; discriminate | reflexivity | cbn; discriminate].
    destruct E as (Hr & Hf & _).
    rewrite (result_settled _ _ Hr Hf). reflexivity.
  - intros d w h evs s Hd E. unfold extractFrames in E.
    cbn [exec enabled] in E.
    replace (enabled (start true true) (Loadedmetadata (Num d) w h))
      with true in E by reflexivity.
    change (exec jpeg ctx
              (dispatch jpeg ctx (Loadedmetadata (Num d) w h) (start true true))
              evs = Some s) in E.
    rewrite (zero_duration_state jpeg ctx d w h Hd) in E.
    apply exec_settled in E;
      [ | cbn; discriminate | reflexivity | cbn; discriminate].
    destruct E as (Hr & Hf & Hpr). cbn [settled frames progress] in Hr, Hf, Hpr.
    assert (R : result s = Fulfilled [])
      by (unfold result; rewrite Hr, Hf; reflexivity).
    split; [exact R | ].
    intros log Hm. unfold handleSubmit.
    assert (Hbody :
      forall body,
        match m, contextImageFile with
        | videoWithImage, None =>
            perform (SetError (Some "Please upload an image to use for context."))
        | _, _ => body
        end = body).
    { intros body. destruct m, contextImageFile; try reflexivity.
      contradiction (Hm eq_refl). reflexivity. }
    rewrite Hbody.
    unfold bind, perform, try_finally, try_catch, await_extractFrames, throw.
    rewrite R, Hpr. cbn. rewrite <- !app_assoc. reflexivity.
Qed.

Lemma unreadable_or_empty_video_witness :
  exists s,
    extractFrames Z_toString true true true [Loadedmetadata (Num 0) 640 360]
    = Some s
    /\ result s = Fulfilled []
    /\ requests
         (snd (handleSubmit Examples.image_provider videoOnly ""
                 (Some (mkFile "video/mp4" None)) None s []))
       = [].
Proof.
  destruct (extractFrames Z_toString true true true
              [Loadedmetadata (Num 0) 640 360]) as [s | ] eqn:E;
    [ | vm_compute in E; discriminate].
  exists s. split; [reflexivity | ].
  destruct (proj2 (unreadable_or_empty_video Z_toString true
                     Examples.image_provider videoOnly ""
                     (mkFile "video/mp4" None) None)
              0%Q 640 360 [] s (Qeq_refl 0) E) as (R & H).
  split; [exact R | ].
  rewrite H; [reflexivity | discriminate].
Defined.

End VideoAnalyzeFacts.

(* ================================================================== *)
(** ** More facts about the job poller *)

Module PollerFacts.

Import Async GeminiService Logs Examples Fixtures GeminiServiceFacts.
Local Open Scope async_scope.

Lemma waits_app (l1 l2 : list effect) :
  waits (l1 ++ l2) = (waits l1 ++ waits l2)%list.
Proof.
  induction l1 as [ | e l1 IH]; [reflexivity | ].
  destruct e; cbn; rewrite IH; reflexivity.
Qed.

Lemma announcements_app (l1 l2 : list effect) :
  announcements (l1 ++ l2) = (announcements l1 ++ announcements l2)%list.
Proof.
  induction l1 as [ | e l1 IH]; [reflexivity | ].
  destruct e; cbn; rewrite IH; reflexivity.
Qed.

Lemma objectURLs_app (l1 l2 : list effect) :
  objectURLs (l1 ++ l2) = (objectURLs l1 ++ objectURLs l2)%list.
Proof.
  induction l1 as [ | e l1 IH]; [reflexivity | ].
  destruct e; cbn; rewrite IH; reflexivity.
Qed.

Lemma round_log_round (log : list effect) (op : videoOperation) :
  round_log log op = (log ++ round op)%list.
Proof. unfold round_log, round. rewrite <- !app_assoc. reflexivity. Qed.

Lemma queries_rounds (ops : list videoOperation) :
  queries (flat_map round ops) = List.length ops.
Proof. induction ops as [ | o ops IH]; cbn; congruence. Qed.

Lemma waits_rounds (ops : list videoOperation) :
  waits (flat_map round ops) = repeat 10000 (List.length ops).
Proof. induction ops as [ | o ops IH]; cbn; congruence. Qed.

Lemma announcements_rounds (ops : list videoOperation) :
  announcements (flat_map round ops)
  = repeat "Checking video status..." (List.length ops).
Proof. induction ops as [ | o ops IH]; cbn; congruence. Qed.

Lemma fetches_rounds (ops : list videoOperation) :
  fetches (flat_map round ops) = [].
Proof. induction ops as [ | o ops IH]; cbn; congruence. Qed.

(** *** The shape of the polling loop *)

(** The loop adds whole rounds to the log and nothing else: each status
    query comes right after a wait of 10000 ms and the text "Checking video
    status...", the first query is about the handle the loop started with,
    and no more rounds are made than allowed.  A loop that ends fulfilled
    ends with a handle that is done; one that is rejected was rejected by
    its last status query; one that has not ended has used up all its
    rounds or waits for a status query that does not answer. *)
Theorem poll_rounds (P : provider) (fuel : nat) :
  forall (op : videoOperation) (log log' : list effect)
         (r : promise videoOperation),
    poll P fuel op log = (r, log') ->
    exists ops,
      log' = (log ++ flat_map round ops)%list
      /\ (List.length ops <= fuel)%nat
      /\ (forall o, hd_error ops = Some o -> o = op)
      /\ match r with
         | Fulfilled o => done o = true
         | Pending =>
             List.length ops = fuel
             \/ exists o, getVideosOperation P
                            (queries log + List.length ops - 1) o
                          = Pending
         | Rejected e =>
             exists o, getVideosOperation P
                         (queries log + List.length ops - 1) o
                       = Rejected e
         end.
Proof.
  induction fuel as [ | fuel IH]; intros op log log' r H.
  - cbn in H. destruct (done op) eqn:Hd; injection H as <- <-;
      exists []; rewrite app_nil_r; repeat split; auto; discriminate.
  - destruct (done op) eqn:Hd.
    + rewrite poll_done in H by exact Hd. injection H as <- <-.
      exists []. rewrite app_nil_r. repeat split; auto; try discriminate.
      cbn. lia.
    + rewrite poll_round in H by exact Hd.
      destruct (getVideosOperation P (queries log) op) as [ | op1 | e] eqn:Hq.
      * injection H as <- <-. exists [op]. cbn [flat_map].
        rewrite app_nil_r, round_log_round. repeat split; auto.
        -- cbn. lia.
        -- cbn. intros o Ho. congruence.
        -- right. exists op. cbn. rewrite <- Hq. f_equal. lia.
      * apply IH in H. destruct H as (ops & -> & Hlen & Hhd & Hr).
        exists (op :: ops). cbn [flat_map].
        rewrite round_log_round, <- app_assoc. repeat split; auto.
        -- cbn. lia.
        -- cbn. intros o Ho. congruence.
        -- assert (Hi : (queries (round_log log op) + List.length ops - 1
                         = queries log + List.length (op :: ops) - 1)%nat).
           { rewrite queries_round. cbn. lia. }
           destruct r as [ | o | e]; auto.
           ++ destruct Hr as [Hr | (o & Hr)]; [left; cbn; lia | right].
              exists o. rewrite <- Hi. exact Hr.
           ++ destruct Hr as (o & Hr). exists o. rewrite <- Hi. exact Hr.
      * injection H as <- <-. exists [op]. cbn [flat_map].
        rewrite app_nil_r, round_log_round. repeat split; auto.
        -- cbn. lia.
        -- cbn. intros o Ho. congruence.
        -- exists op. cbn. rewrite <- Hq. f_equal. lia.
Qed.

(** *** Helpers: the poller from the submission on *)

(** With the key set and a submission that returned a handle, the poller is
    the loop on that handle followed by what comes after the loop. *)
Lemma from_submission
      (P : provider) (key : string) (fuel : nat)
      (getOperation : M videoOperation) (log0 logS : list effect)
      (op0 : videoOperation) :
  API_KEY P = Some key -> key <> "" ->
  getOperation
    (log0 ++ [OnProgress "Starting video generation operation..."])%list
  = (Fulfilled op0, logS) ->
  handleVideoOperation P fuel getOperation log0
  = (operation <- poll P fuel op0 ;; after_loop P key operation)
      (logS ++ [OnProgress initiated])%list.
Proof.
  intros Hk Hne Hsub.
  rewrite (handleVideoOperation_phases P key) by assumption.
  unfold until_done, bind at 1 2 3. cbn [perform]. rewrite Hsub.
  unfold bind at 1 2. cbn [perform]. reflexivity.
Qed.

(** What comes after the loop on a handle with a download link. *)
Lemma after_loop_download
      (P : provider) (key link : string) (op : videoOperation)
      (log : list effect) :
  error op = None -> downloadLink op = Some link -> link <> "" ->
  after_loop P key op log
  = let url := link ++ "&key=" ++ key in
    let log1 :=
      (log ++ [OnProgress "Video generated! Downloading video data...";
               Fetch url])%list in
    match fetch P url with
    | Fulfilled response =>
        if ok response then
          (Fulfilled (createObjectURL P (body_blob response)),
           (log1 ++ [OnProgress "Download complete.";
                     CreateObjectURL (body_blob response)])%list)
        else
          (Rejected (Error ("Failed to download video: "
                              ++ statusText response ++ ". Details: "
                              ++ body_text response)),
           log1)
    | Rejected e => (Rejected e, log1)
    | Pending => (Pending, log1)
    end.
Proof.
  intros Herr Hlink Hne. unfold after_loop. rewrite Herr, Hlink.
  destruct link as [ | c link]; [contradiction Hne; reflexivity | ].
  unfold call_fetch, bind, perform, await, ret. cbn zeta.
  rewrite <- !app_assoc. cbn [app].
  destruct (fetch P _) as [ | response | e]; try reflexivity.
  destruct (ok response); cbn [negb]; unfold throw;
    rewrite <- ?app_assoc; reflexivity.
Qed.

(** The loop against a provider that answers "not done" to its first [k]
    status queries and [a] to the next, where [a] is no handle still to be
    polled: started [r] queries before that one, with more than [r] rounds
    allowed, the loop makes [r + 1] rounds and ends as [a]. *)
Lemma poll_until (P : provider) (k : nat) (a : promise videoOperation) :
  (forall n op, (n < k)%nat ->
                exists op', getVideosOperation P n op = Fulfilled op'
                            /\ done op' = false) ->
  (forall op, getVideosOperation P k op = a) ->
  (forall o, a = Fulfilled o -> done o = true) ->
  forall r fuel op log,
    done op = false ->
    (queries log + r = k)%nat -> (r < fuel)%nat ->
    exists ops,
      List.length ops = S r
      /\ hd_error ops = Some op
      /\ poll P fuel op log = (a, (log ++ flat_map round ops)%list).
Proof.
  intros Hbefore Hlast Hdone.
  induction r as [ | r IH]; intros fuel op log Hd Hq Hf;
    (destruct fuel as [ | fuel]; [lia | ]); rewrite poll_round by exact Hd.
  - replace (queries log) with k by lia. rewrite Hlast.
    exists [op]. split; [reflexivity | ]. split; [reflexivity | ].
    cbn [flat_map]. rewrite app_nil_r, round_log_round.
    destruct a as [ | o | e]; try reflexivity.
    apply poll_done. apply Hdone. reflexivity.
  - destruct (Hbefore (queries log) op) as (op' & -> & Hd'); [lia | ].
    destruct (IH fuel op' (round_log log op) Hd') as (ops & Hlen & _ & Hp).
    + rewrite queries_round. lia.
    + lia.
    + exists (op :: ops). split; [cbn; lia | ]. split; [reflexivity | ].
      rewrite Hp, round_log_round. cbn [flat_map].
      rewrite <- app_assoc. reflexivity.
Qed.

(** The loop against a provider that never reports "done". *)
Lemma poll_pending (P : provider) :
  (forall n op, exists op', getVideosOperation P n op = Fulfilled op'
                            /\ done op' = false) ->
  forall fuel op log,
    done op = false ->
    exists ops,
      List.length ops = fuel
      /\ poll P fuel op log = (Pending, (log ++ flat_map round ops)%list).
Proof.
  intros Hnever. induction fuel as [ | fuel IH]; intros op log Hd.
  - exists []. cbn. rewrite Hd, app_nil_r. auto.
  - rewrite poll_round by exact Hd.
    destruct (Hnever (queries log) op) as (op' & -> & Hd').
    destruct (IH op' (round_log log op) Hd') as (ops & Hlen & Hp).
    exists (op :: ops). split; [cbn; lia | ].
    rewrite Hp, round_log_round. cbn [flat_map].
    rewrite <- app_assoc. reflexivity.
Qed.

Lemma poll_rounds_witness :
  exists ops,
    snd (poll (provider_with (Some "KEY") (Fulfilled notDone)
                             (done_at 2 (finished None)) download_ok)
              5 notDone [])
    = flat_map round ops
    /\ (List.length ops <= 5)%nat.
Proof.
  destruct (poll_rounds (provider_with (Some "KEY") (Fulfilled notDone)
                                       (done_at 2 (finished None)) download_ok)
                        5 notDone [] _ _ eq_refl)
    as (ops & H & Hlen & _).
  exists ops. split; [exact H | exact Hlen].
Defined.

(** *** Failures before the loop *)

(** Without a key, or with an empty one, [handleVideoOperation] is rejected
    with "API_KEY environment variable is not set" before it does anything:
    nothing is announced and the job is not submitted. *)
Theorem missing_key_rejected
        (P : provider) (fuel : nat) (getOperation : M videoOperation)
        (log : list effect) :
  API_KEY P = None \/ API_KEY P = Some "" ->
  handleVideoOperation P fuel getOperation log
  = (Rejected (Error "API_KEY environment variable is not set"), log).
Proof.
  intros [H | H]; unfold handleVideoOperation; rewrite H; reflexivity.
Qed.

Lemma missing_key_rejected_witness :
  handleVideoOperation keyless 3 (submit_text keyless "a cat") []
  = (Rejected (Error "API_KEY environment variable is not set"), []).
Proof.
  exact (missing_key_rejected keyless 3 (submit_text keyless "a cat") []
                              (or_introl eq_refl)).
Defined.

(** When the submission fails, [handleVideoOperation] is rejected with the
    same error right away: its log is the log the submission left, so the
    second announcement is not made, no status is queried and nothing is
    fetched. *)
Theorem submission_failure_propagates
        (P : provider) (key : string) (fuel : nat)
        (getOperation : M videoOperation) (log0 logS : list effect)
        (e : exn) :
  API_KEY P = Some key -> key <> "" ->
  getOperation
    (log0 ++ [OnProgress "Starting video generation operation..."])%list
  = (Rejected e, logS) ->
  handleVideoOperation P fuel getOperation log0 = (Rejected e, logS).
Proof.
  intros Hk Hne Hsub.
  rewrite (handleVideoOperation_phases P key) by assumption.
  unfold until_done, bind at 1 2 3. cbn [perform]. rewrite Hsub.
  reflexivity.
Qed.

Lemma submission_failure_propagates_witness :
  handleVideoOperation (refusing (Error "quota exceeded")) 3
    (submit_text (refusing (Error "quota exceeded")) "a cat") []
  = (Rejected (Error "quota exceeded"),
     [OnProgress "Starting video generation operation...";
      GenerateVideos "veo-3.1-fast-generate-preview" "a cat"]).
Proof.
  exact (submission_failure_propagates
           (refusing (Error "quota exceeded")) "KEY" 3
           (submit_text (refusing (Error "quota exceeded")) "a cat") []
           _ _ eq_refl ltac:(discriminate) eq_refl).
Defined.

(** *** A job that never finishes, a status query that fails *)

(** Against a provider that never reports the job done, the poller never
    gives up: whatever number of rounds it is allowed, it makes them all,
    each with its wait and its status query, and has still not ended. *)
Theorem poller_never_gives_up
        (P : provider) (key : string) (getOperation : M videoOperation)
        (log0 logS : list effect) (op0 : videoOperation) :
  API_KEY P = Some key -> key <> "" ->
  getOperation
    (log0 ++ [OnProgress "Starting video generation operation..."])%list
  = (Fulfilled op0, logS) ->
  done op0 = false ->
  (forall n op, exists op', getVideosOperation P n op = Fulfilled op'
                            /\ done op' = false) ->
  forall fuel,
    exists ops,
      List.length ops = fuel
      /\ handleVideoOperation P fuel getOperation log0
         = (Pending,
            (logS ++ OnProgress initiated :: flat_map round ops)%list).
Proof.
  intros Hk Hne Hsub Hd Hnever fuel.
  rewrite (from_submission P key fuel _ _ _ _ Hk Hne Hsub).
  destruct (poll_pending P Hnever fuel op0
              (logS ++ [OnProgress initiated])%list Hd) as (ops & Hlen & Hp).
  exists ops. split; [exact Hlen | ].
  unfold bind. rewrite Hp, <- app_assoc. reflexivity.
Qed.

Lemma poller_never_gives_up_witness :
  exists ops,
    List.length ops = 7%nat
    /\ handleVideoOperation endless 7 (submit_text endless "a cat") []
       = (Pending,
          ([OnProgress "Starting video generation operation...";
            GenerateVideos "veo-3.1-fast-generate-preview" "a cat"]
             ++ OnProgress initiated :: flat_map round ops)%list).
Proof.
  apply (poller_never_gives_up
           endless "KEY" (submit_text endless "a cat") [] _ notDone
           eq_refl ltac:(discriminate) eq_refl eq_refl).
  intros n op. exists notDone. split; reflexivity.
Defined.

(** When the status query fails on its call [k + 1], after [k] answers "not
    done", the poller is rejected with the error of that call and stops:
    [k + 1] rounds were made, the query is not repeated and nothing is
    fetched. *)
Theorem query_rejection_propagates
        (P : provider) (key : string) (getOperation : M videoOperation)
        (k : nat) (log0 logS : list effect) (op0 : videoOperation)
        (e : exn) :
  API_KEY P = Some key -> key <> "" ->
  getOperation
    (log0 ++ [OnProgress "Starting video generation operation..."])%list
  = (Fulfilled op0, logS) ->
  queries logS = 0%nat ->
  done op0 = false ->
  (forall n op, (n < k)%nat ->
                exists op', getVideosOperation P n op = Fulfilled op'
                            /\ done op' = false) ->
  (forall op, getVideosOperation P k op = Rejected e) ->
  forall fuel, (k < fuel)%nat ->
    exists ops,
      List.length ops = S k
      /\ handleVideoOperation P fuel getOperation log0
         = (Rejected e,
            (logS ++ OnProgress initiated :: flat_map round ops)%list).
Proof.
  intros Hk Hne Hsub Hq0 Hd Hbefore Hlast fuel Hfuel.
  rewrite (from_submission P key fuel _ _ _ _ Hk Hne Hsub).
  destruct (poll_until P k (Rejected e) Hbefore Hlast
              ltac:(discriminate) k fuel op0
              (logS ++ [OnProgress initiated])%list Hd)
    as (ops & Hlen & _ & Hp).
  { rewrite queries_app, Hq0. reflexivity. }
  { exact Hfuel. }
  exists ops. split; [exact Hlen | ].
  unfold bind. rewrite Hp, <- app_assoc. reflexivity.
Qed.

Lemma query_rejection_propagates_witness :
  exists ops,
    List.length ops = 3%nat
    /\ handleVideoOperation (flaky 2 (Error "503")) 5
         (submit_text (flaky 2 (Error "503")) "a cat") []
       = (Rejected (Error "503"),
          ([OnProgress "Starting video generation operation...";
            GenerateVideos "veo-3.1-fast-generate-preview" "a cat"]
             ++ OnProgress initiated :: flat_map round ops)%list).
Proof.
  apply (query_rejection_propagates
           (flaky 2 (Error "503")) "KEY"
           (submit_text (flaky 2 (Error "503")) "a cat") 2 [] _ notDone
           (Error "503") eq_refl ltac:(discriminate) eq_refl eq_refl eq_refl).
  - intros n op Hn. exists notDone. split; [ | reflexivity].
    destruct n as [ | [ | n]]; [reflexivity | reflexivity | lia].
  - reflexivity.
  - lia.
Defined.

(** *** The download *)

(** When the loop ends with a handle that has a download link and the
    download answers with a status that is not a success, the poller is
    rejected with "Failed to download video: <status text>. Details: <body>"
    right after the one fetch: "Download complete." is not announced and no
    object URL is created. *)
Theorem download_failure_rejected
        (P : provider) (key : string) (getOperation : M videoOperation)
        (fuel : nat) (log0 logS log1 : list effect)
        (op0 op : videoOperation) (link : string) (resp : httpResponse) :
  API_KEY P = Some key -> key <> "" ->
  getOperation
    (log0 ++ [OnProgress "Starting video generation operation..."])%list
  = (Fulfilled op0, logS) ->
  poll P fuel op0 (logS ++ [OnProgress initiated])%list
  = (Fulfilled op, log1) ->
  error op = None -> downloadLink op = Some link -> link <> "" ->
  fetch P (link ++ "&key=" ++ key) = Fulfilled resp -> ok resp = false ->
  handleVideoOperation P fuel getOperation log0
  = (Rejected (Error ("Failed to download video: " ++ statusText resp
                        ++ ". Details: " ++ body_text resp)),
     (log1 ++ [OnProgress "Video generated! Downloading video data...";
               Fetch (link ++ "&key=" ++ key)])%list).
Proof.
  intros Hk Hne Hsub Hpoll Herr Hlink Hlne Hfetch Hok.
  rewrite (from_submission P key fuel _ _ _ _ Hk Hne Hsub).
  unfold bind. rewrite Hpoll.
  rewrite (after_loop_download P key link op log1 Herr Hlink Hlne).
  cbn zeta. rewrite Hfetch, Hok. reflexivity.
Qed.

Lemma download_failure_rejected_witness :
  handleVideoOperation (forbidding 0 (finished (Some "https://video/1?alt=media")))
    4 (submit_text (forbidding 0 (finished (Some "https://video/1?alt=media")))
                   "a cat") []
  = (Rejected (Error "Failed to download video: Forbidden. Details: key not valid"),
     [OnProgress "Starting video generation operation...";
      GenerateVideos "veo-3.1-fast-generate-preview" "a cat";
      OnProgress initiated;
      SetTimeout 10000; OnProgress "Checking video status...";
      GetVideosOperation notDone;
      OnProgress "Video generated! Downloading video data...";
      Fetch "https://video/1?alt=media&key=KEY"]).
Proof.
  exact (download_failure_rejected
           (forbidding 0 (finished (Some "https://video/1?alt=media"))) "KEY"
           (submit_text
              (forbidding 0 (finished (Some "https://video/1?alt=media")))
              "a cat")
           4 [] _ _ notDone (finished (Some "https://video/1?alt=media"))
           "https://video/1?alt=media"
           (mkHttp false "Forbidden" "key not valid" "")
           eq_refl ltac:(discriminate) eq_refl eq_refl eq_refl eq_refl
           ltac:(discriminate) eq_refl eq_refl).
Defined.

(** When the submission already returns a handle that is done, with a
    download link and no error, the poller does not wait and does not query
    the status at all, whatever number of rounds it is allowed: it goes
    straight to the download. *)
Theorem done_at_submission
        (P : provider) (key : string) (getOperation : M videoOperation)
        (fuel : nat) (log0 logS : list effect) (op0 : videoOperation)
        (link : string) (resp : httpResponse) :
  API_KEY P = Some key -> key <> "" ->
  getOperation
    (log0 ++ [OnProgress "Starting video generation operation..."])%list
  = (Fulfilled op0, logS) ->
  done op0 = true ->
  error op0 = None -> downloadLink op0 = Some link -> link <> "" ->
  fetch P (link ++ "&key=" ++ key) = Fulfilled resp -> ok resp = true ->
  handleVideoOperation P fuel getOperation log0
  = (Fulfilled (createObjectURL P (body_blob resp)),
     (logS ++ [OnProgress initiated;
               OnProgress "Video generated! Downloading video data...";
               Fetch (link ++ "&key=" ++ key);
               OnProgress "Download complete.";
               CreateObjectURL (body_blob resp)])%list).
Proof.
  intros Hk Hne Hsub Hd Herr Hlink Hlne Hfetch Hok.
  rewrite (from_submission P key fuel _ _ _ _ Hk Hne Hsub).
  unfold bind. rewrite (poll_done P fuel op0 _ Hd).
  rewrite (after_loop_download P key link op0 _ Herr Hlink Hlne).
  cbn zeta. rewrite Hfetch, Hok, <- !app_assoc. reflexivity.
Qed.

Lemma done_at_submission_witness :
  handleVideoOperation (immediate (finished (Some "https://video/1?alt=media")))
    0 (submit_text (immediate (finished (Some "https://video/1?alt=media")))
                   "a cat") []
  = (Fulfilled "blob:bytes of https://video/1?alt=media&key=KEY",
     [OnProgress "Starting video generation operation...";
      GenerateVideos "veo-3.1-fast-generate-preview" "a cat";
      OnProgress initiated;
      OnProgress "Video generated! Downloading video data...";
      Fetch "https://video/1?alt=media&key=KEY";
      OnProgress "Download complete.";
      CreateObjectURL "bytes of https://video/1?alt=media&key=KEY"]).
Proof.
  exact (done_at_submission
           (immediate (finished (Some "https://video/1?alt=media"))) "KEY"
           (submit_text
              (immediate (finished (Some "https://video/1?alt=media")))
              "a cat")
           0 [] _ (finished (Some "https://video/1?alt=media"))
           "https://video/1?alt=media"
           (mkHttp true "OK" "" "bytes of https://video/1?alt=media&key=KEY")
           eq_refl ltac:(discriminate) eq_refl eq_refl eq_refl eq_refl
           ltac:(discriminate) eq_refl eq_refl).
Defined.

(** A download link that is the empty string counts as no link: the poller
    is rejected with "Could not retrieve video download link." and fetches
    nothing. *)
Theorem empty_link_rejected
        (P : provider) (key : string) (getOperation : M videoOperation)
        (fuel : nat) (log0 logS log1 : list effect)
        (op0 op : videoOperation) :
  API_KEY P = Some key -> key <> "" ->
  getOperation
    (log0 ++ [OnProgress "Starting video generation operation..."])%list
  = (Fulfilled op0, logS) ->
  poll P fuel op0 (logS ++ [OnProgress initiated])%list
  = (Fulfilled op, log1) ->
  error op = None -> downloadLink op = Some "" ->
  handleVideoOperation P fuel getOperation log0
  = (Rejected (Error "Could not retrieve video download link."), log1).
Proof.
  intros Hk Hne Hsub Hpoll Herr Hlink.
  rewrite (from_submission P key fuel _ _ _ _ Hk Hne Hsub).
  unfold bind. rewrite Hpoll. unfold after_loop. rewrite Herr, Hlink.
  reflexivity.
Qed.

Lemma empty_link_rejected_witness :
  fst (handleVideoOperation (punctual 1 (finished (Some ""))) 4
         (submit_text (punctual 1 (finished (Some ""))) "a cat") [])
  = Rejected (Error "Could not retrieve video download link.").
Proof.
  exact (f_equal fst
           (empty_link_rejected
              (punctual 1 (finished (Some ""))) "KEY"
              (submit_text (punctual 1 (finished (Some ""))) "a cat")
              4 [] _ _ notDone (finished (Some ""))
              eq_refl ltac:(discriminate) eq_refl eq_refl eq_refl eq_refl)).
Defined.

(** *** The whole log of a successful run *)

(** In the setting of a job that is done at status query [k + 1] and a
    download that succeeds, the effects of the poller are, in this order:
    the first announcement, the submission, the second announcement,
    [k + 1] rounds of wait, announcement and status query, the third
    announcement, the one fetch, "Download complete." and the creation of
    the object URL that is returned. *)
Theorem success_log
        (P : provider) (key : string) (getOperation : M videoOperation)
        (k : nat) (log0 logS : list effect) (op0 final : videoOperation)
        (link : string) (resp : httpResponse) :
  API_KEY P = Some key -> key <> "" ->
  getOperation
    (log0 ++ [OnProgress "Starting video generation operation..."])%list
  = (Fulfilled op0, logS) ->
  queries logS = 0%nat ->
  done op0 = false ->
  (forall n op, (n < k)%nat ->
                exists op', getVideosOperation P n op = Fulfilled op'
                            /\ done op' = false) ->
  (forall op, getVideosOperation P k op = Fulfilled final) ->
  done final = true -> error final = None ->
  downloadLink final = Some link -> link <> "" ->
  fetch P (link ++ "&key=" ++ key) = Fulfilled resp -> ok resp = true ->
  forall fuel, (k < fuel)%nat ->
    exists ops,
      List.length ops = S k
      /\ hd_error ops = Some op0
      /\ handleVideoOperation P fuel getOperation log0
         = (Fulfilled (createObjectURL P (body_blob resp)),
            (logS ++ OnProgress initiated :: flat_map round ops
               ++ [OnProgress "Video generated! Downloading video data...";
                   Fetch (link ++ "&key=" ++ key);
                   OnProgress "Download complete.";
                   CreateObjectURL (body_blob resp)])%list).
Proof.
  intros Hk Hne Hsub Hq0 Hd0 Hbefore Hlast Hfinal Herr Hlink Hlne Hfetch Hok
         fuel Hfuel.
  rewrite (from_submission P key fuel _ _ _ _ Hk Hne Hsub).
  destruct (poll_until P k (Fulfilled final) Hbefore Hlast) with
    (r := k) (fuel := fuel) (op := op0)
    (log := (logS ++ [OnProgress initiated])%list)
    as (ops & Hlen & Hhd & Hp); auto.
  { intros o Ho. injection Ho as <-. exact Hfinal. }
  { rewrite queries_app, Hq0. reflexivity. }
  exists ops. split; [exact Hlen | ]. split; [exact Hhd | ].
  unfold bind. rewrite Hp.
  rewrite (after_loop_download P key link final _ Herr Hlink Hlne).
  cbn zeta. rewrite Hfetch, Hok, <- !app_assoc. reflexivity.
Qed.

Lemma success_log_witness :
  announcements
    (snd (handleVideoOperation
            (punctual 1 (finished (Some "https://video/1?alt=media"))) 4
            (submit_text
               (punctual 1 (finished (Some "https://video/1?alt=media")))
               "a cat") []))
  = ["Starting video generation operation..."; initiated;
     "Checking video status..."; "Checking video status...";
     "Video generated! Downloading video data..."; "Download complete."].
Proof.
  assert (Hbefore :
    forall n op, (n < 1)%nat ->
      exists op',
        getVideosOperation
          (punctual 1 (finished (Some "https://video/1?alt=media"))) n op
        = Fulfilled op' /\ done op' = false).
  { intros n op Hn. exists notDone. split; [ | reflexivity].
    destruct n as [ | n]; [reflexivity | lia]. }
  destruct (success_log
              (punctual 1 (finished (Some "https://video/1?alt=media"))) "KEY"
              (submit_text
                 (punctual 1 (finished (Some "https://video/1?alt=media")))
                 "a cat")
              1 [] _ notDone (finished (Some "https://video/1?alt=media"))
              "https://video/1?alt=media"
              (mkHttp true "OK" "" "bytes of https://video/1?alt=media&key=KEY")
              eq_refl ltac:(discriminate) eq_refl eq_refl eq_refl
              Hbefore (fun _ => eq_refl) eq_refl eq_refl eq_refl
              ltac:(discriminate) eq_refl eq_refl 4%nat ltac:(lia))
    as (ops & Hlen & _ & H).
  rewrite H. cbn [snd].
  rewrite !announcements_app. cbn [announcements app].
  rewrite announcements_app, announcements_rounds, Hlen. reflexivity.
Defined.

End PollerFacts.

(* ================================================================== *)
(** ** More facts about the request builders *)

Module GatewayFacts.

Import Async GeminiService Logs DataURL Examples Fixtures GeminiServiceFacts.
Local Open Scope async_scope.

(** *** Taking the payload out of a data URL *)

Lemma split_no_comma (s : string) :
  has_comma s = false -> split "," s = [s].
Proof.
  induction s as [ | c s IH]; cbn [has_comma split]; [reflexivity | ].
  intros H. apply orb_false_elim in H. destruct H as [Hc Hs].
  rewrite Hc, (IH Hs). reflexivity.
Qed.

Lemma split_at_comma (header rest : string) :
  has_comma header = false ->
  split "," (header ++ "," ++ rest) = header :: split "," rest.
Proof.
  induction header as [ | c h IH]; cbn [has_comma]; intros H.
  - reflexivity.
  - apply orb_false_elim in H. destruct H as [Hc Hh].
    cbn [append split]. rewrite Hc.
    change (split "," (h ++ String "," rest))
      with (split "," (h ++ "," ++ rest)).
    rewrite (IH Hh). reflexivity.
Qed.

Lemma split_nonempty (sep : ascii) (s : string) : split sep s <> [].
Proof.
  destruct s as [ | c s]; cbn [split]; [discriminate | ].
  destruct (Ascii.eqb c sep); [discriminate | ].
  destruct (split sep s); discriminate.
Qed.

Lemma has_comma_app (a b : string) :
  has_comma (a ++ b) = has_comma a || has_comma b.
Proof.
  induction a as [ | c a IH]; cbn [append has_comma]; [reflexivity | ].
  rewrite IH, orb_assoc. reflexivity.
Qed.

(** [fileToBase64] and the frame parts of [analyzeVideoFrames] undo the
    data URL encoding: from [`data:${mime};base64,${payload}`], with no
    comma in the MIME type nor in the payload (base64 has none), they take
    exactly the payload; the MIME type sent for a frame is "image/jpeg"
    whatever the URL says. *)
Theorem payload_of_dataURL
        (type mime payload : string) (log : list effect) :
  has_comma mime = false -> has_comma payload = false ->
  fileToBase64 (mkFile type (Some (dataURL mime payload))) log
  = (Fulfilled (Some payload), log)
  /\ fileToGenerativePart (mkFile type (Some (dataURL mime payload))) log
     = (Fulfilled (inline_part (Some payload) type), log)
  /\ frame_part (dataURL mime payload)
     = inline_part (Some payload) "image/jpeg".
Proof.
  intros Hm Hp.
  assert (H : nth_error (split "," (dataURL mime payload)) 1 = Some payload).
  { unfold dataURL.
    change ("data:" ++ mime ++ ";base64," ++ payload)
      with ("data:" ++ (mime ++ ";base64" ++ "," ++ payload)).
    replace ("data:" ++ (mime ++ ";base64" ++ "," ++ payload))
      with (("data:" ++ mime ++ ";base64") ++ "," ++ payload).
    - rewrite split_at_comma, (split_no_comma payload Hp); [reflexivity | ].
      cbn [append has_comma Ascii.eqb Bool.eqb orb].
      rewrite has_comma_app, Hm. reflexivity.
    - cbn [append]. do 5 f_equal. induction mime as [ | c m IH];
        cbn [append]; [reflexivity | ]. f_equal. apply IH.
      cbn [has_comma] in Hm. apply orb_false_elim in Hm. apply Hm. }
  unfold fileToGenerativePart, fileToBase64, frame_part, bind, ret.
  cbn [file_dataURL file_type]. rewrite H. repeat split.
Qed.

Lemma payload_of_dataURL_witness :
  fst (fileToBase64 png_file []) = Fulfilled (Some "iVBORw0KGgo=")
  /\ frame_part "data:image/jpeg;base64,/9j/4AAQ"
     = inline_part (Some "/9j/4AAQ") "image/jpeg".
Proof.
  split.
  - exact (f_equal fst
             (proj1 (payload_of_dataURL "image/png" "image/png"
                       "iVBORw0KGgo=" [] eq_refl eq_refl))).
  - exact (proj2 (proj2 (payload_of_dataURL "" "image/jpeg"
                           "/9j/4AAQ" [] eq_refl eq_refl))).
Defined.

(** *** Files that cannot be read, providers that fail *)

(** When the image file cannot be read, [editImage], [analyzeImage] and
    [analyzeVideoWithImage] are rejected with the reader's error event,
    which is no [Error], and send nothing to the provider. *)
Theorem unreadable_file_no_request
        (P : provider) (prompt : string) (frames : list string) (f : file)
        (log : list effect) :
  file_dataURL f = None ->
  editImage P prompt f log = (Rejected NotAnError, log)
  /\ analyzeImage P prompt f log = (Rejected NotAnError, log)
  /\ analyzeVideoWithImage P prompt frames f log = (Rejected NotAnError, log).
Proof.
  intros H.
  unfold editImage, analyzeImage, analyzeVideoWithImage,
    fileToGenerativePart, fileToBase64, bind, throw.
  rewrite H. repeat split.
Qed.

Lemma unreadable_file_no_request_witness :
  editImage image_provider "make it blue" broken_file []
  = (Rejected NotAnError, []).
Proof.
  exact (proj1 (unreadable_file_no_request image_provider "make it blue" []
                  broken_file [] eq_refl)).
Defined.

(** An error of the provider reaches the caller as it is: when the content
    request is rejected with [e], the four request builders are rejected
    with that same [e], not wrapped and not retried. *)
Theorem provider_rejection_propagates
        (P : provider) (e : exn) (prompt url : string) (f : file)
        (frames : list string) (log : list effect) :
  (forall req, generateContent P req = Rejected e) ->
  file_dataURL f = Some url ->
  fst (editImage P prompt f log) = Rejected e
  /\ fst (analyzeImage P prompt f log) = Rejected e
  /\ fst (analyzeVideoFrames P prompt frames log) = Rejected e
  /\ fst (analyzeVideoWithImage P prompt frames f log) = Rejected e.
Proof.
  intros Hrej Hfile.
  unfold editImage, analyzeImage, analyzeVideoFrames, analyzeVideoWithImage,
    fileToGenerativePart, fileToBase64, call_generateContent, bind, perform,
    await, ret.
  rewrite Hfile, !Hrej. repeat split.
Qed.

Lemma provider_rejection_propagates_witness :
  fst (analyzeImage (failing_content (Error "429 Too Many Requests")) ""
         png_file [])
  = Rejected (Error "429 Too Many Requests").
Proof.
  exact (proj1 (proj2 (provider_rejection_propagates
                         (failing_content (Error "429 Too Many Requests"))
                         (Error "429 Too Many Requests") ""
                         "data:image/png;base64,iVBORw0KGgo=" png_file [] []
                         (fun _ => eq_refl) eq_refl))).
Defined.

Lemma first_inline_log (ps : list part) (log : list effect) :
  snd (first_inline ps log) = log.
Proof.
  induction ps as [ | p ps IH]; cbn [first_inline]; [reflexivity | ].
  destruct (inlineData p); [reflexivity | exact IH].
Qed.

(** Each request builder sends at most one request to the provider and has
    no other effect, whatever the file, the frames and the answer. *)
Theorem at_most_one_request
        (P : provider) (prompt : string) (f : file) (frames : list string)
        (log : list effect) :
  let once (after : list effect) :=
    after = log \/ exists req, after = (log ++ [GenerateContent req])%list in
  once (snd (editImage P prompt f log))
  /\ once (snd (analyzeImage P prompt f log))
  /\ once (snd (analyzeVideoFrames P prompt frames log))
  /\ once (snd (analyzeVideoWithImage P prompt frames f log)).
Proof.
  intros once. unfold once.
  unfold editImage, analyzeImage, analyzeVideoFrames, analyzeVideoWithImage,
    fileToGenerativePart, fileToBase64, call_generateContent, bind, perform,
    await, ret, throw.
  destruct (file_dataURL f) as [url | ]; cbn [fst snd]; repeat split;
    try (left; reflexivity);
    match goal with
    | |- context [generateContent P ?r] =>
        destruct (generateContent P r) as [ | resp | e] eqn:Hr
    end;
    cbn [snd]; try (right; eexists; reflexivity).
  destruct (candidates resp) as [cs | ]; cbn [snd];
    [ | right; eexists; reflexivity].
  destruct (nth_error cs 0) as [first | ]; cbn [snd];
    [ | right; eexists; reflexivity].
  destruct (candidate_content first) as [c | ]; cbn [snd];
    [ | right; eexists; reflexivity].
  destruct (parts c) as [ps | ]; cbn [snd];
    [ | right; eexists; reflexivity].
  rewrite first_inline_log. right. eexists. reflexivity.
Qed.

End GatewayFacts.

(* ================================================================== *)
(** ** More facts about the frame sampler *)

Module SamplerFacts.

Import FrameSampler FrameSamplerFacts VideoAnalyzeFacts.

Lemma exec_app (jpeg : Z -> string) (ctx : bool) (a b : list event) :
  forall s,
    exec jpeg ctx s (a ++ b)
    = match exec jpeg ctx s a with
      | Some mid => exec jpeg ctx mid b
      | None => None
      end.
Proof.
  induction a as [ | ev a IH]; intros s; cbn [app exec]; [reflexivity | ].
  destruct (enabled s ev); [apply IH | reflexivity].
Qed.

(** The handler of the error event: the element is broken, the URL is
    revoked once more, and the promise is rejected unless it is settled
    already; the frames and the progress texts stay. *)
Lemma dispatch_ErrorEvent (jpeg : Z -> string) (ctx : bool) (s : state) :
  video_phase (dispatch jpeg ctx ErrorEvent s) = Broken
  /\ seeking (dispatch jpeg ctx ErrorEvent s) = false
  /\ revoked (dispatch jpeg ctx ErrorEvent s) = S (revoked s)
  /\ frames (dispatch jpeg ctx ErrorEvent s) = frames s
  /\ progress (dispatch jpeg ctx ErrorEvent s) = progress s
  /\ settled (dispatch jpeg ctx ErrorEvent s)
     = match settled s with
       | Unsettled => RejectedWith (Error "Error loading video file.")
       | other => other
       end.
Proof.
  unfold dispatch, onerror, reject, settle.
  cbn [settled revokeObjectURL set_video].
  destruct (settled s) eqn:Hu; cbn; rewrite ?Hu; repeat split.
Qed.

(** *** Errors *)



(** An error event can come at any point of a run, also after the promise
    is settled, and [onerror] handles it every time.  While the promise is
    pending it rejects it with "Error loading video file."; once it is
    settled the outcome stands, so a fulfilled promise keeps its frames.
    Either way the frames captured so far and the progress texts are kept,
    and the object URL is revoked once more. *)
Theorem error_at_any_point (jpeg : Z -> string) (ctx : bool)
        (before : list event) (mid : state) :
  extractFrames jpeg ctx true true before = Some mid ->
  exists s,
    extractFrames jpeg ctx true true (before ++ [ErrorEvent]) = Some s
    /\ (result mid = Pending ->
        result s = Rejected (Error "Error loading video file."))
    /\ (result mid <> Pending -> result s = result mid)
    /\ frames s = frames mid
    /\ progress s = progress mid
    /\ revoked s = S (revoked mid).
Proof.
  intros Eb.
  pose proof (invariant_extractFrames jpeg ctx _ _ Eb) as I.
  destruct (dispatch_ErrorEvent jpeg ctx mid)
    as (Hp & Hs & Hrev & Hf & Hpr & Hset).
  assert (En : enabled mid ErrorEvent = true).
  { cbn [enabled]. pose proof (inv_source _ _ mid I) as Hsrc.
    destruct (video_phase mid); auto. }
  exists (dispatch jpeg ctx ErrorEvent mid).
  split.
  { unfold extractFrames in *. rewrite exec_app, Eb.
    cbn [exec]. rewrite En. reflexivity. }
  unfold result. rewrite Hset, Hf.
  split; [destruct (settled mid); intros H; try discriminate; reflexivity | ].
  split; [destruct (settled mid); intros H;
            [contradiction H | | ]; reflexivity | ].
  repeat split; auto.
Qed.

Lemma error_at_any_point_witness :
  exists s,
    extractFrames Z_toString true true true
      ([Loadedmetadata (Num 1) 640 360; Seeked] ++ [ErrorEvent]) = Some s
    /\ result s = Fulfilled ["0"]
    /\ revoked s = 2%nat.
Proof.
  destruct (extractFrames Z_toString true true true
              [Loadedmetadata (Num 1) 640 360; Seeked]) as [mid | ] eqn:Eb;
    [ | vm_compute in Eb; discriminate].
  destruct (error_at_any_point _ _ _ _ Eb)
    as (s & E & _ & Hkeep & _ & _ & Hrev).
  exists s. split; [exact E | ].
  assert (Hm : result mid = Fulfilled ["0"] /\ revoked mid = 1%nat)
    by (vm_compute in Eb; injection Eb as <-; split; reflexivity).
  destruct Hm as [Hm1 Hm2]. split.
  - rewrite Hkeep; [exact Hm1 | ]. rewrite Hm1. discriminate.
  - rewrite Hrev, Hm2. reflexivity.
Defined.

(** When the video or the canvas element is not attached, [extractFrames]
    is rejected with "Video or canvas element not ready." at once: no
    object URL is created, none is revoked, and no event can follow. *)
Theorem refs_missing (jpeg : Z -> string) (ctx videoRef canvasRef : bool)
        (evs : list event) (s : state) :
  videoRef = false \/ canvasRef = false ->
  extractFrames jpeg ctx videoRef canvasRef evs = Some s ->
  evs = []
  /\ result s = Rejected (Error "Video or canvas element not ready.")
  /\ created s = 0%nat /\ revoked s = 0%nat.
Proof.
  intros H E. unfold extractFrames in E.
  assert (Hs : start videoRef canvasRef
               = mkState NoSource false 0 false 0 0 [] NaN 0 0 [] 0 0
                   (RejectedWith (Error "Video or canvas element not ready."))
                   []).
  { unfold start. destruct H as [-> | ->]; [reflexivity | ].
    destruct videoRef; reflexivity. }
  rewrite Hs in E.
  destruct evs as [ | ev evs]; cbn [exec] in E.
  - injection E as <-. repeat split.
  - destruct ev; cbn in E; discriminate.
Qed.

Lemma refs_missing_witness :
  option_map result (extractFrames Z_toString true true false [])
  = Some (Rejected (Error "Video or canvas element not ready.")).
Proof.
  pose proof (refs_missing Z_toString true true false [] _
                (or_intror eq_refl) eq_refl) as (_ & H & _).
  exact (f_equal Some H).
Defined.

(** *** Short videos, endless sources *)

Lemma expected_short (d : Q) :
  (0 < d)%Q -> (d <= 1)%Q -> expected d = 1.
Proof.
  intros Hpos Hle. unfold expected, maxFrames.
  assert (Qceiling d <= 1) by (apply Qceiling_le_iff; exact Hle).
  assert (0 < Qceiling d).
  { destruct (Z_lt_le_dec 0 (Qceiling d)) as [ | H0]; auto.
    apply Qceiling_le_iff in H0. exfalso.
    apply (Qlt_irrefl 0). apply Qlt_le_trans with d; assumption. }
  lia.
Qed.

(** The frames of a state that satisfies the invariant, from their
    number. *)
Lemma frames_of_count (jpeg : Z -> string) (ctx : bool) (s : state) :
  invariant jpeg ctx s ->
  frames s = map jpeg (positions (Z.to_nat (frameCount s))).
Proof.
  intros I. rewrite (inv_frames _ _ s I) at 1.
  rewrite (inv_drawn _ _ s I), (inv_count _ _ s I), Nat2Z.id. reflexivity.
Qed.

(** A video no longer than one interval, and not empty, yields exactly one
    frame, the picture at position 0: in the run in which the browser
    confirms the one seek, and in every run that ends fulfilled. *)
Theorem single_frame_minimum (jpeg : Z -> string) (d : Q) (w h : Z) :
  (0 < d)%Q -> (d <= 1)%Q ->
  (exists s,
      extractFrames jpeg true true true [Loadedmetadata (Num d) w h; Seeked]
      = Some s
      /\ result s = Fulfilled [jpeg 0])
  /\ (forall evs s fs,
         extractFrames jpeg true true true (Loadedmetadata (Num d) w h :: evs)
         = Some s ->
         result s = Fulfilled fs ->
         fs = [jpeg 0]).
Proof.
  intros Hpos Hle.
  assert (Hone : forall evs s,
             extractFrames jpeg true true true
               (Loadedmetadata (Num d) w h :: evs) = Some s ->
             settled s = ResolvedWithFrames -> frames s = [jpeg 0]).
  { intros evs s E Hr.
    destruct (loaded_run jpeg true _ _ _ _ _ E) as [I Hd].
    rewrite (frames_of_count jpeg true s I).
    rewrite (resolved_count jpeg s d I Hd Hpos Hr), (expected_short d Hpos Hle).
    reflexivity. }
  split.
  - destruct (full_run jpeg d w h Hpos) as (s & E & Hr).
    rewrite (expected_short d Hpos Hle) in E. exists s.
    split; [exact E | ]. unfold result. rewrite Hr, (Hone _ _ E Hr).
    reflexivity.
  - intros evs s fs E Hf. unfold result in Hf.
    destruct (settled s) eqn:Hr; try discriminate.
    injection Hf as <-. apply (Hone _ _ E Hr).
Qed.

Lemma single_frame_minimum_witness :
  exists s,
    extractFrames Z_toString true true true
      [Loadedmetadata (Num (4 # 10)) 640 360; Seeked] = Some s
    /\ result s = Fulfilled ["0"].
Proof.
  exact (proj1 (single_frame_minimum Z_toString (4 # 10) 640 360
                  eq_refl ltac:(discriminate))).
Defined.

Lemma extractFrames_length_endless_witness :
  exists s,
    extractFrames Z_toString true true true
      (Loadedmetadata PosInfinity 640 360 :: repeat Seeked 16) = Some s
    /\ Z.of_nat (List.length (frames s)) = 16.
Proof.
  destruct (proj1 (extractFrames_length_endless Z_toString 640 360))
    as (s & E & _ & L).
  exists s. split; [exact E | exact L].
Defined.

(** *** Without a 2D context *)

(** When the canvas gives no 2D context, no frame is ever captured: in
    every state of every run the frame sequence is empty, nothing was drawn
    and no progress was reported, so a run that ends fulfilled hands out an
    empty sequence. *)
Theorem no_context_no_frames (jpeg : Z -> string) (evs : list event)
        (s : state) :
  extractFrames jpeg false true true evs = Some s ->
  frames s = [] /\ drawn s = [] /\ progress s = []
  /\ (forall fs, result s = Fulfilled fs -> fs = []).
Proof.
  intros E. pose proof (invariant_extractFrames jpeg false evs s E) as I.
  pose proof (inv_time _ _ s I) as Hf. cbn in Hf.
  pose proof (inv_drawn _ _ s I) as Hd.
  pose proof (inv_progress _ _ s I) as Hp.
  rewrite Hf in Hd, Hp. repeat split; auto.
  intros fs Hr. unfold result in Hr.
  destruct (settled s); try discriminate. injection Hr as <-. exact Hf.
Qed.

Lemma no_context_no_frames_witness :
  exists s,
    extractFrames Z_toString false true true
      (Loadedmetadata (Num (34 # 10)) 640 360 :: repeat Seeked 4) = Some s
    /\ result s = Fulfilled [].
Proof.
  destruct (extractFrames Z_toString false true true
              (Loadedmetadata (Num (34 # 10)) 640 360 :: repeat Seeked 4))
    as [s | ] eqn:E; [ | vm_compute in E; discriminate].
  exists s. split; [reflexivity | ].
  destruct (no_context_no_frames _ _ _ E) as (Hf & _).
  assert (R : settled s = ResolvedWithFrames)
    by (vm_compute in E; injection E as <-; reflexivity).
  unfold result. rewrite R, Hf. reflexivity.
Defined.

(** *** Where the sampler seeks *)

(** The sampler never seeks to the end of the video or past it: whenever a
    seek is outstanding, the position asked for is below the duration, and
    with a 2D context it is the number of frames captured so far, hence
    between 0 and [maxFrames - 1]. *)
Theorem seeks_below_duration (jpeg : Z -> string) (ctx : bool)
        (evs : list event) (s : state) :
  extractFrames jpeg ctx true true evs = Some s ->
  seeking s = true ->
  Js.ge (of_Z (video_currentTime s)) (duration s) = false
  /\ (forall d, duration s = Num d -> (inject_Z (video_currentTime s) < d)%Q)
  /\ (ctx = true ->
      video_currentTime s = Z.of_nat (List.length (frames s))
      /\ 0 <= video_currentTime s < maxFrames).
Proof.
  intros E Hs. pose proof (invariant_extractFrames jpeg ctx evs s E) as I.
  destruct (inv_seeking _ _ s I Hs) as (_ & _ & Hv & Hge & Hlt).
  rewrite Hv. repeat split.
  - exact Hge.
  - intros d Hd. rewrite Hd in Hge. apply Qnot_le_lt. intros Hle.
    apply ge_Num in Hle. congruence.
  - pose proof (inv_time _ _ s I) as Ht. subst ctx. cbn in Ht.
    rewrite Ht, (inv_count _ _ s I). unfold interval. lia.
  - pose proof (inv_time _ _ s I) as Ht. subst ctx. cbn in Ht.
    rewrite Ht, (inv_count _ _ s I). unfold interval. lia.
  - pose proof (inv_time _ _ s I) as Ht. subst ctx. cbn in Ht.
    rewrite Ht. unfold interval. lia.
Qed.

Lemma seeks_below_duration_witness :
  exists s,
    extractFrames Z_toString true true true
      [Loadedmetadata (Num (34 # 10)) 640 360; Seeked; Seeked] = Some s
    /\ video_currentTime s = 2.
Proof.
  destruct (extractFrames Z_toString true true true
              [Loadedmetadata (Num (34 # 10)) 640 360; Seeked; Seeked])
    as [s | ] eqn:E; [ | vm_compute in E; discriminate].
  exists s. split; [reflexivity | ].
  assert (Hs : seeking s = true)
    by (vm_compute in E; injection E as <-; reflexivity).
  assert (Hn : List.length (frames s) = 2%nat)
    by (vm_compute in E; injection E as <-; reflexivity).
  destruct (seeks_below_duration _ _ _ _ E Hs) as (_ & _ & H).
  destruct (H eq_refl) as [Hv _]. rewrite Hv, Hn. reflexivity.
Defined.

(** *** A browser that stops confirming seeks *)

(** From a state waiting for a seek, [m] confirmed seeks that leave frames
    still due end in a state that waits for a seek again. *)
Lemma seeks_prefix (jpeg : Z -> string) (d : Q) (m : nat) :
  forall s,
    invariant jpeg true s -> duration s = Num d -> (0 < d)%Q ->
    seeking s = true ->
    frameCount s + Z.of_nat m < expected d ->
    exists s',
      exec jpeg true s (repeat Seeked m) = Some s'
      /\ invariant jpeg true s'
      /\ seeking s' = true
      /\ frameCount s' = frameCount s + Z.of_nat m.
Proof.
  induction m as [ | m IH]; intros s I Hd Hpos Hs Hm.
  - exists s. split; [reflexivity | ]. split; [exact I | ].
    split; [exact Hs | ]. cbn. lia.
  - cbn [repeat exec enabled]. rewrite Hs.
    destruct (inv_seeking _ _ s I Hs) as (Hp & Ho & _).
    pose proof (invariant_dispatch jpeg true s Seeked I Hs) as I'.
    destruct (dispatch_Seeked jpeg s Ho) as [Hn Hp'].
    assert (Hd' : duration (dispatch jpeg true Seeked s) = Num d).
    { rewrite <- Hd. apply dispatch_fixed; [congruence | exact Hs]. }
    assert (Hs' : seeking (dispatch jpeg true Seeked s) = true).
    { destruct (seeking (dispatch jpeg true Seeked s)) eqn:Hs'; auto.
      assert (Hr : settled (dispatch jpeg true Seeked s) = ResolvedWithFrames).
      { pose proof (inv_ready _ _ _ I') as H. rewrite Hs' in H.
        apply H. congruence. }
      pose proof (resolved_count jpeg _ d I' Hd' Hpos Hr). lia. }
    destruct (IH _ I' Hd' Hpos Hs') as (s' & E & I'' & Hs'' & Hn'); [lia | ].
    exists s'. split; [exact E | ]. split; [exact I'' | ].
    split; [exact Hs'' | lia].
Qed.

(** As long as frames are due, the promise stays pending: after the
    metadata and [m] confirmed seeks, with [m] below the number of frames
    the video yields, [m] frames are captured, the next seek is
    outstanding, the promise is not settled and the object URL is not
    revoked.  If the browser never confirms that seek, nothing more
    happens: the sampler sets no timer. *)
Theorem pending_until_last_seek (jpeg : Z -> string) (d : Q) (w h : Z)
        (m : nat) :
  (0 < d)%Q ->
  Z.of_nat m < Z.min maxFrames (Qceiling d) ->
  exists s,
    extractFrames jpeg true true true
      (Loadedmetadata (Num d) w h :: repeat Seeked m) = Some s
    /\ result s = Pending
    /\ seeking s = true
    /\ List.length (frames s) = m
    /\ revoked s = 0%nat.
Proof.
  intros Hpos Hm. fold (expected d) in Hm. unfold extractFrames.
  cbn [exec enabled start negb orb video_phase].
  set (s0 := dispatch jpeg true (Loadedmetadata (Num d) w h) _).
  assert (I : invariant jpeg true s0)
    by (apply invariant_dispatch; [apply invariant_start | reflexivity]).
  assert (Hd : duration s0 = Num d).
  { unfold s0, dispatch, onloadedmetadata.
    match goal with |- context [captureFrame ?x] =>
      destruct (captureFrame_fixed x) as [-> _] end. reflexivity. }
  assert (Hn : frameCount s0 = 0).
  { unfold s0, dispatch, onloadedmetadata. rewrite captureFrame_frameCount.
    reflexivity. }
  assert (Hs : seeking s0 = true).
  { unfold s0, dispatch, onloadedmetadata, captureFrame.
    cbn [currentTime duration frameCount set_onseeked set_closure].
    replace (Js.ge (of_Z 0) (Num d)) with false; [reflexivity | ].
    symmetry. apply not_true_is_false. intros H. apply ge_Num in H.
    apply (Qlt_irrefl 0). apply Qlt_le_trans with d; assumption. }
  destruct (seeks_prefix jpeg d m s0 I Hd Hpos Hs) as (s & E & I' & Hs' & Hn');
    [lia | ].
  exists s. split; [exact E | ].
  destruct (inv_seeking _ _ s I' Hs') as (Hp & _).
  pose proof (inv_ready _ _ s I' Hp) as Hu. rewrite Hs' in Hu.
  pose proof (inv_revoked _ _ s I' Hu) as Hr.
  repeat split; auto.
  - unfold result. rewrite Hu. reflexivity.
  - apply Nat2Z.inj. rewrite <- (inv_count _ _ s I'). lia.
Qed.

Lemma pending_until_last_seek_witness :
  exists s,
    extractFrames Z_toString true true true
      (Loadedmetadata (Num (34 # 10)) 640 360 :: repeat Seeked 3) = Some s
    /\ result s = Pending.
Proof.
  destruct (pending_until_last_seek Z_toString (34 # 10) 640 360 3
              eq_refl eq_refl) as (s & E & R & _).
  exists s. split; [exact E | exact R].
Defined.

(** *** The canvas *)

Lemma captureFrame_canvas (s : state) :
  canvas_width (captureFrame s) = canvas_width s
  /\ canvas_height (captureFrame s) = canvas_height s.
Proof.
  unfold captureFrame, resolve_frames, settle.
  destruct (Js.ge _ _ || _); [ | split; reflexivity].
  cbn [settled revokeObjectURL]. destruct (settled s); split; reflexivity.
Qed.

Lemma dispatch_canvas (jpeg : Z -> string) (ctx : bool) (s : state)
      (ev : event) :
  video_phase s <> Loading -> enabled s ev = true ->
  canvas_width (dispatch jpeg ctx ev s) = canvas_width s
  /\ canvas_height (dispatch jpeg ctx ev s) = canvas_height s.
Proof.
  intros Hp En. destruct ev as [d w h | | ]; cbn [enabled] in En.
  - destruct (video_phase s); try discriminate. contradiction Hp; reflexivity.
  - unfold dispatch. cbn [onseeked_set set_video].
    destruct (onseeked_set s); [ | split; reflexivity].
    unfold onseeked.
    match goal with |- context [captureFrame ?x] =>
      destruct (captureFrame_canvas x) as [-> ->] end.
    destruct ctx; split; reflexivity.
  - unfold dispatch, onerror, reject, settle.
    cbn [settled revokeObjectURL set_video].
    destruct (settled s); split; reflexivity.
Qed.

Lemma exec_canvas (jpeg : Z -> string) (ctx : bool) (evs : list event) :
  forall s s',
    video_phase s <> Loading -> exec jpeg ctx s evs = Some s' ->
    canvas_width s' = canvas_width s /\ canvas_height s' = canvas_height s.
Proof.
  induction evs as [ | ev evs IH]; intros s s' Hp E; cbn [exec] in E.
  - injection E as <-. split; reflexivity.
  - destruct (enabled s ev) eqn:En; [ | discriminate].
    destruct (dispatch_canvas jpeg ctx s ev Hp En) as [Hw Hh].
    destruct (dispatch_fixed jpeg ctx s ev Hp En) as [_ Hp'].
    destruct (IH _ _ Hp' E) as [-> ->]. auto.
Qed.

(** From the metadata on, through every seek and to the end of the run, the
    canvas has the pixel size the video declared: frames are drawn
    unscaled. *)
Theorem canvas_native_size (jpeg : Z -> string) (ctx : bool) (d : number)
        (w h : Z) (evs : list event) (s : state) :
  extractFrames jpeg ctx true true (Loadedmetadata d w h :: evs) = Some s ->
  canvas_width s = w /\ canvas_height s = h.
Proof.
  intros E. unfold extractFrames in E.
  cbn [exec enabled start negb orb video_phase] in E.
  apply exec_canvas in E.
  - destruct E as [-> ->]. unfold dispatch, onloadedmetadata.
    match goal with |- context [captureFrame ?x] =>
      destruct (captureFrame_canvas x) as [-> ->] end.
    split; reflexivity.
  - unfold dispatch, onloadedmetadata.
    match goal with |- context [captureFrame ?x] =>
      destruct (captureFrame_fixed x) as [_ ->] end.
    cbn. discriminate.
Qed.

Lemma canvas_native_size_witness :
  exists s,
    extractFrames Z_toString true true true
      [Loadedmetadata (Num 2) 1920 1080; Seeked; Seeked] = Some s
    /\ canvas_width s = 1920 /\ canvas_height s = 1080.
Proof.
  destruct (extractFrames Z_toString true true true
              [Loadedmetadata (Num 2) 1920 1080; Seeked; Seeked])
    as [s | ] eqn:E; [ | vm_compute in E; discriminate].
  exists s. split; [reflexivity | ].
  exact (canvas_native_size _ _ _ _ _ _ _ E).
Defined.

End SamplerFacts.

(* ================================================================== *)
(** ** More facts about [VideoAnalyze.handleSubmit] *)

Module SubmitFacts.

Import Async FrameSampler GeminiService VideoAnalyze Logs SubmitParts.
Import Examples Fixtures FrameSamplerFacts GeminiServiceFacts SamplerFacts.
Local Open Scope async_scope.

(** [handleSubmit], once its two checks pass, by the outcome of the
    sampler and of the analysis call. *)
Lemma handleSubmit_cases
      (P : provider) (m : mode) (prompt : string)
      (videoFile contextImageFile : option file) (sampler : state)
      (log : list effect) :
  validated m videoFile contextImageFile = true ->
  handleSubmit P m prompt videoFile contextImageFile sampler log
  = let log1 :=
      (log ++ prelude ++ map SetProgress (progress sampler))%list in
    match result sampler with
    | Pending => (Pending, log1)
    | Rejected e =>
        (Fulfilled tt, (log1 ++ SetError (Some (error_text e)) :: epilogue)%list)
    | Fulfilled frames =>
        if (List.length frames =? 0)%nat then
          (Fulfilled tt,
           (log1 ++ SetError
                      (Some "Could not extract any frames from the video.")
                 :: epilogue)%list)
        else
          match analyze_call P m prompt contextImageFile frames
                             (log1 ++ [SetProgress (analyzing frames)])%list
          with
          | (Pending, log2) => (Pending, log2)
          | (Fulfilled r, log2) =>
              (Fulfilled tt, (log2 ++ SetAnalysis r :: epilogue)%list)
          | (Rejected e, log2) =>
              (Fulfilled tt,
               (log2 ++ SetError (Some (error_text e)) :: epilogue)%list)
          end
    end.
Proof.
  intros Hv. unfold validated in Hv.
  destruct videoFile as [vf | ]; [ | discriminate].
  assert (Hbody :
    forall body,
      match m, contextImageFile with
      | videoWithImage, None =>
          perform (SetError (Some "Please upload an image to use for context."))
      | _, _ => body
      end = body).
  { intros body. destruct m, contextImageFile; try reflexivity.
    discriminate. }
  unfold handleSubmit. rewrite Hbody. clear Hbody.
  unfold try_finally, try_catch, await_extractFrames, prelude, epilogue.
  unfold bind at 1 2 3 4. cbn [perform]. cbn zeta.
  unfold bind at 2. unfold bind at 1.
  replace ((((log ++ [SetIsLoading true]) ++ [SetError None])
              ++ [SetAnalysis None]) ++ [SetProgress "Starting analysis..."])%list
    with (log ++ [SetIsLoading true; SetError None; SetAnalysis None;
                  SetProgress "Starting analysis..."])%list
    by (rewrite <- !app_assoc; reflexivity).
  replace (log ++ [SetIsLoading true; SetError None; SetAnalysis None;
                   SetProgress "Starting analysis..."]
               ++ map SetProgress (progress sampler))%list
    with ((log ++ [SetIsLoading true; SetError None; SetAnalysis None;
                   SetProgress "Starting analysis..."])
            ++ map SetProgress (progress sampler))%list
    by (rewrite <- app_assoc; reflexivity).
  destruct (result sampler) as [ | frames | e].
  - reflexivity.
  - destruct (List.length frames =? 0)%nat.
    + unfold throw, perform, bind. cbn.
      rewrite <- !app_assoc. reflexivity.
    + unfold bind at 1. cbn [perform]. fold (analyzing frames).
      unfold bind at 1. fold (analyze_call P m prompt contextImageFile frames).
      destruct (analyze_call P m prompt contextImageFile frames _)
        as [[ | r | e] log2];
        unfold perform, bind; cbn; rewrite <- ?app_assoc; reflexivity.
  - unfold perform, bind. cbn. rewrite <- !app_assoc. reflexivity.
Qed.

(** *** Reading what the component shows *)

Lemma shown_error_app (l1 l2 : list effect) (b : option string) :
  shown_error (l1 ++ l2) b = shown_error l2 (shown_error l1 b).
Proof.
  revert b. induction l1 as [ | e l1 IH]; intros b; [reflexivity | ].
  destruct e; cbn; apply IH.
Qed.

Lemma shown_analysis_app (l1 l2 : list effect) (b : option string) :
  shown_analysis (l1 ++ l2) b = shown_analysis l2 (shown_analysis l1 b).
Proof.
  revert b. induction l1 as [ | e l1 IH]; intros b; [reflexivity | ].
  destruct e; cbn; apply IH.
Qed.

Lemma shown_loading_app (l1 l2 : list effect) (b : bool) :
  shown_loading (l1 ++ l2) b = shown_loading l2 (shown_loading l1 b).
Proof.
  revert b. induction l1 as [ | e l1 IH]; intros b; [reflexivity | ].
  destruct e; cbn; apply IH.
Qed.

Lemma shown_progress_app (l1 l2 : list effect) (b : string) :
  shown_progress (l1 ++ l2) b = shown_progress l2 (shown_progress l1 b).
Proof.
  revert b. induction l1 as [ | e l1 IH]; intros b; [reflexivity | ].
  destruct e; cbn; apply IH.
Qed.




(** *** The analysis call *)

Lemma analyzeVideoFrames_eq
      (P : provider) (prompt : string) (frames : list string)
      (log : list effect) :
  let req :=
    mkRequest "gemini-2.5-pro"
      (text_part
         (or_else prompt
            "These are sequential frames from a video. Analyze the video and describe what is happening.")
         :: map frame_part frames) None in
  analyzeVideoFrames P prompt frames log
  = (text_of (generateContent P req), (log ++ [GenerateContent req])%list).
Proof.
  cbn zeta. unfold analyzeVideoFrames, call_generateContent, bind, perform,
    await, ret, text_of.
  destruct (generateContent P _); reflexivity.
Qed.

Lemma analyzeVideoWithImage_eq
      (P : provider) (prompt url : string) (frames : list string)
      (img : file) (log : list effect) :
  file_dataURL img = Some url ->
  let req :=
    mkRequest "gemini-2.5-pro"
      (text_part
         (or_else prompt
            "Analyze the relationship between the provided image and the video frames. Describe what is happening.")
         :: inline_part (nth_error (split "," url) 1) (file_type img)
         :: map frame_part frames) None in
  analyzeVideoWithImage P prompt frames img log
  = (text_of (generateContent P req), (log ++ [GenerateContent req])%list).
Proof.
  intros Hf. cbn zeta.
  unfold analyzeVideoWithImage, fileToGenerativePart, fileToBase64,
    call_generateContent, bind, perform, await, ret, text_of.
  rewrite Hf. destruct (generateContent P _); reflexivity.
Qed.

(** The analysis call sends at most one request, for the model
    "gemini-2.5-pro", whose parts end with the frames, one inline JPEG part
    each, in order, after the prompt and, in the mode with an image, the
    context image.  Its outcome is the provider's, with the text of the
    answer as value. *)
Lemma analyze_call_spec
      (P : provider) (m : mode) (prompt : string)
      (contextImageFile : option file) (frames : list string)
      (log : list effect) :
  analyze_call P m prompt contextImageFile frames log
  = (Rejected NotAnError, log)
  \/ exists req,
      analyze_call P m prompt contextImageFile frames log
      = (text_of (generateContent P req), (log ++ [GenerateContent req])%list)
      /\ model req = "gemini-2.5-pro"
      /\ exists pre,
          contents req = (pre ++ map frame_part frames)%list
          /\ (List.length pre = 1 \/ List.length pre = 2)%nat.
Proof.
  unfold analyze_call.
  destruct m; [ | destruct contextImageFile as [img | ]];
    [ | destruct (file_dataURL img) as [url | ] eqn:Hf | ].
  - right. eexists. split; [apply analyzeVideoFrames_eq | ].
    split; [reflexivity | ]. eexists [_]. split; [reflexivity | auto].
  - right. eexists. split; [apply (analyzeVideoWithImage_eq _ _ url); auto | ].
    split; [reflexivity | ]. eexists [_; _]. split; [reflexivity | auto].
  - left. unfold analyzeVideoWithImage, fileToGenerativePart, fileToBase64,
      bind, throw. rewrite Hf. reflexivity.
  - right. eexists. split; [apply analyzeVideoFrames_eq | ].
    split; [reflexivity | ]. eexists [_]. split; [reflexivity | auto].
Qed.

(** *** What [handleSubmit] leaves behind *)

(** [handleSubmit] never fails: whatever the sampler and the provider do,
    its promise is not rejected.  When a check at its head fails it only
    sets an error text.  Otherwise, when it ends, its last two effects are
    [setIsLoading(false)] and [setProgress('')]. *)
Theorem handleSubmit_never_rejects
        (P : provider) (m : mode) (prompt : string)
        (videoFile contextImageFile : option file) (sampler : state)
        (log : list effect) :
  let r := handleSubmit P m prompt videoFile contextImageFile sampler log in
  (forall e, fst r <> Rejected e)
  /\ (validated m videoFile contextImageFile = false ->
      exists msg, r = (Fulfilled tt, (log ++ [SetError (Some msg)])%list))
  /\ (validated m videoFile contextImageFile = true ->
      fst r = Fulfilled tt ->
      exists mid, snd r = (log ++ prelude ++ mid ++ epilogue)%list).
Proof.
  cbn zeta.
  destruct (validated m videoFile contextImageFile) eqn:Hv.
  - rewrite (handleSubmit_cases P m prompt _ _ sampler log Hv). cbn zeta.
    split; [ | split; [discriminate | intros _]].
    + intros e.
      destruct (result sampler) as [ | frames | e0]; try discriminate.
      destruct (List.length frames =? 0)%nat; try discriminate.
      destruct (analyze_call _ _ _ _ _ _) as [[ | r | e1] log2]; discriminate.
    + set (ps := map SetProgress (progress sampler)).
      destruct (result sampler) as [ | frames | e0]; try discriminate.
      * destruct (List.length frames =? 0)%nat.
        -- intros _.
           exists (ps ++ [SetError
                            (Some "Could not extract any frames from the video.")])%list.
           cbn [snd]. rewrite <- !app_assoc. reflexivity.
        -- destruct (analyze_call_spec P m prompt contextImageFile frames
                       ((log ++ prelude ++ ps)
                          ++ [SetProgress (analyzing frames)])%list)
             as [-> | (req & -> & _)].
           ++ intros _.
              exists (ps ++ [SetProgress (analyzing frames);
                             SetError (Some (error_text NotAnError))])%list.
              cbn [snd]. rewrite <- !app_assoc. reflexivity.
           ++ destruct (generateContent P req) as [ | resp | e1];
                cbn [text_of]; try discriminate; intros _.
              ** exists (ps ++ [SetProgress (analyzing frames);
                                GenerateContent req;
                                SetAnalysis (response_text resp)])%list.
                 cbn [snd]. rewrite <- !app_assoc. reflexivity.
              ** exists (ps ++ [SetProgress (analyzing frames);
                                GenerateContent req;
                                SetError (Some (error_text e1))])%list.
                 cbn [snd]. rewrite <- !app_assoc. reflexivity.
      * intros _. exists (ps ++ [SetError (Some (error_text e0))])%list.
        cbn [snd]. rewrite <- !app_assoc. reflexivity.
  - unfold validated in Hv. unfold handleSubmit, perform.
    destruct videoFile as [vf | ].
    + destruct m, contextImageFile; try discriminate.
      split; [discriminate | ]. split; [ | discriminate].
      intros _. eexists. reflexivity.
    + split; [discriminate | ]. split; [ | discriminate].
      intros _. eexists. reflexivity.
Qed.

(** A sampler state used in the examples: a 2.4-second video, all seeks
    confirmed. *)
Lemma handleSubmit_never_rejects_witness :
  exists s,
    extractFrames Z_toString true true true
      (Loadedmetadata (Num (24 # 10)) 640 360 :: repeat Seeked 3) = Some s
    /\ shown_loading
         (snd (handleSubmit (failing_content (Error "500")) videoOnly ""
                 (Some png_file) None s [])) true
       = false.
Proof.
  destruct (extractFrames Z_toString true true true
              (Loadedmetadata (Num (24 # 10)) 640 360 :: repeat Seeked 3))
    as [s | ] eqn:E; [ | vm_compute in E; discriminate].
  exists s. split; [reflexivity | ].
  destruct (proj2 (proj2 (handleSubmit_never_rejects
                            (failing_content (Error "500")) videoOnly ""
                            (Some png_file) None s [])) eq_refl)
    as (mid & ->).
  - vm_compute in E. injection E as <-. reflexivity.
  - rewrite !shown_loading_app. reflexivity.
Defined.

(** While the sampler has not settled, [handleSubmit] has not ended
    either, and the component is left loading: [setIsLoading(false)] is
    not reached, and nothing is sent to the provider. *)
Theorem stuck_while_sampling
        (P : provider) (m : mode) (prompt : string)
        (videoFile contextImageFile : option file) (sampler : state)
        (log : list effect) :
  validated m videoFile contextImageFile = true ->
  result sampler = Pending ->
  handleSubmit P m prompt videoFile contextImageFile sampler log
  = (Pending, (log ++ prelude ++ map SetProgress (progress sampler))%list)
  /\ forall before,
      shown_loading
        (snd (handleSubmit P m prompt videoFile contextImageFile sampler log))
        before
      = true.
Proof.
  intros Hv Hr.
  rewrite (handleSubmit_cases P m prompt _ _ sampler log Hv). cbn zeta.
  rewrite Hr. split; [reflexivity | ]. intros before. cbn [snd].
  rewrite !shown_loading_app. unfold prelude.
  generalize (shown_loading log before). intros b. cbn.
  induction (progress sampler) as [ | p ps IH]; [reflexivity | exact IH].
Qed.

Lemma stuck_while_sampling_witness :
  exists s,
    extractFrames Z_toString true true true
      (Loadedmetadata (Num (24 # 10)) 640 360 :: repeat Seeked 2) = Some s
    /\ fst (handleSubmit image_provider videoOnly "" (Some png_file) None s [])
       = Pending.
Proof.
  destruct (extractFrames Z_toString true true true
              (Loadedmetadata (Num (24 # 10)) 640 360 :: repeat Seeked 2))
    as [s | ] eqn:E; [ | vm_compute in E; discriminate].
  exists s. split; [reflexivity | ].
  rewrite (proj1 (stuck_while_sampling image_provider videoOnly ""
                    (Some png_file) None s [] eq_refl
                    ltac:(vm_compute in E; injection E as <-; reflexivity))).
  reflexivity.
Defined.

(** *** An error or an analysis *)

Lemma shown_after_prelude (log mid : list effect) (e0 a0 : option string) :
  shown_error ((log ++ prelude) ++ mid) e0 = shown_error mid None
  /\ shown_analysis ((log ++ prelude) ++ mid) a0 = shown_analysis mid None.
Proof.
  rewrite !shown_error_app, !shown_analysis_app. split; reflexivity.
Qed.



(** *** When a request is sent *)



(** *** From the video to the analysis *)

Lemma expected_positive (d : Q) : (0 < d)%Q -> 1 <= expected d.
Proof.
  intros Hpos. unfold expected, maxFrames.
  assert (0 < Qceiling d).
  { destruct (Z_lt_le_dec 0 (Qceiling d)) as [ | H0]; auto.
    apply Qceiling_le_iff in H0. exfalso.
    apply (Qlt_irrefl 0). apply Qlt_le_trans with d; assumption. }
  lia.
Qed.

(** The whole path of a video analysis without context image: for a
    video of finite duration [d > 0] whose seeks are all confirmed, with
    [n = min (maxFrames, ceil d)], the component resets its state, shows
    the [n] progress texts of the sampler and then "Analyzing n frames with
    Gemini...", sends one request holding the prompt (or the built-in one)
    followed by the [n] frames taken at positions 0, 1, ..., n - 1, shows
    the text of the answer, and ends not loading, with an empty progress
    text. *)
Theorem analyze_video_end_to_end
        (jpeg : Z -> string) (P : provider) (prompt : string)
        (videoFile : file) (d : Q) (w h : Z) (resp : response)
        (log : list effect) :
  (0 < d)%Q ->
  (forall req, generateContent P req = Fulfilled resp) ->
  let n := Z.to_nat (Z.min maxFrames (Qceiling d)) in
  let shots := map jpeg (positions n) in
  exists s,
    extractFrames jpeg true true true
      (Loadedmetadata (Num d) w h :: repeat Seeked n) = Some s
    /\ handleSubmit P videoOnly prompt (Some videoFile) None s log
       = (Fulfilled tt,
          (log ++ prelude ++ map SetProgress (messages (Num d) n)
             ++ [SetProgress (analyzing shots);
                 GenerateContent
                   (mkRequest "gemini-2.5-pro"
                      (text_part
                         (or_else prompt
                            "These are sequential frames from a video. Analyze the video and describe what is happening.")
                         :: map frame_part shots) None);
                 SetAnalysis (response_text resp)]
             ++ epilogue)%list).
Proof.
  intros Hpos Hresp n shots. unfold n in *. fold (expected d) in *.
  destruct (full_run jpeg d w h Hpos) as (s & E & Hr).
  exists s. split; [exact E | ].
  destruct (loaded_run jpeg true _ _ _ _ _ E) as [I Hd].
  pose proof (resolved_count jpeg s d I Hd Hpos Hr) as Hc.
  pose proof (frames_of_count jpeg true s I) as Hf. rewrite Hc in Hf.
  fold shots in Hf.
  assert (Hlen : List.length (frames s) = Z.to_nat (expected d)).
  { apply Nat2Z.inj. rewrite <- (inv_count _ _ s I), Hc, Z2Nat.id;
      [reflexivity | ]. pose proof (expected_positive d Hpos). lia. }
  pose proof (inv_progress _ _ s I) as Hp. rewrite Hd, Hlen in Hp.
  rewrite (handleSubmit_cases P videoOnly prompt (Some videoFile) None s log
             eq_refl).
  cbn zeta. unfold result. rewrite Hr, Hp, Hf.
  replace (List.length shots =? 0)%nat with false.
  - unfold analyze_call. rewrite analyzeVideoFrames_eq. cbn zeta.
    rewrite Hresp. cbn [text_of]. rewrite <- !app_assoc. reflexivity.
  - symmetry. apply Nat.eqb_neq. rewrite <- Hf, Hlen.
    pose proof (expected_positive d Hpos). lia.
Qed.

Lemma analyze_video_end_to_end_witness :
  exists s,
    extractFrames Z_toString true true true
      (Loadedmetadata (Num (24 # 10)) 640 360 :: repeat Seeked 3) = Some s
    /\ shown_analysis
         (snd (handleSubmit (answering (mkResponse (Some []) (Some "A cat.")))
                 videoOnly "" (Some png_file) None s []))
         None
       = Some "A cat.".
Proof.
  destruct (analyze_video_end_to_end Z_toString
              (answering (mkResponse (Some []) (Some "A cat."))) "" png_file
              (24 # 10) 640 360 (mkResponse (Some []) (Some "A cat.")) []
              eq_refl (fun _ => eq_refl)) as (s & E & H).
  exists s. split; [exact E | ]. rewrite H. reflexivity.
Defined.



End SubmitFacts.

(* ================================================================== *)
(** ** Facts about [FileUpload] *)

Module FileUploadFacts.

Import Async FileUpload Fixtures.

Lemma live_revoke_each (urls : list nat) :
  forall s,
    live (revoke_each urls s)
    = filter (fun u => negb (existsb (Nat.eqb u) urls)) (live s)
    /\ files (revoke_each urls s) = files s
    /\ previews (revoke_each urls s) = previews s
    /\ created (revoke_each urls s) = created s
    /\ reported (revoke_each urls s) = reported s.
Proof.
  induction urls as [ | url urls IH]; intros s; cbn [revoke_each fold_left].
  - cbn. repeat split. induction (live s) as [ | u l IHl]; cbn; congruence.
  - destruct (IH (revokeObjectURL url s)) as (Hl & Hf & Hp & Hc & Hr).
    fold (revoke_each urls (revokeObjectURL url s)).
    rewrite Hl, Hf, Hp, Hc, Hr. cbn [revokeObjectURL live files previews
      created reported existsb]. repeat split.
    induction (live s) as [ | u l IHl]; cbn [filter]; [reflexivity | ].
    destruct (u =? url)%nat eqn:Hu; cbn [negb orb].
    + exact IHl.
    + cbn [filter]. destruct (existsb (Nat.eqb u) urls); cbn [negb];
        [exact IHl | f_equal; exact IHl].
Qed.

Lemma filter_all_out (urls l : list nat) :
  (forall u, In u l -> In u urls) ->
  filter (fun u => negb (existsb (Nat.eqb u) urls)) l = [].
Proof.
  intros H. induction l as [ | u l IH]; [reflexivity | ]. cbn [filter].
  replace (existsb (Nat.eqb u) urls) with true.
  - cbn. apply IH. intros v Hv. apply H. right. exact Hv.
  - symmetry. apply existsb_exists. exists u. split.
    + apply H. left. reflexivity.
    + apply Nat.eqb_refl.
Qed.

Lemma filter_all_in (urls l : list nat) :
  (forall u, In u l -> ~ In u urls) ->
  filter (fun u => negb (existsb (Nat.eqb u) urls)) l = l.
Proof.
  intros H. induction l as [ | u l IH]; [reflexivity | ]. cbn [filter].
  replace (existsb (Nat.eqb u) urls) with false.
  - cbn. f_equal. apply IH. intros v Hv. apply H. right. exact Hv.
  - symmetry. apply not_true_is_false. intros Hex.
    apply existsb_exists in Hex. destruct Hex as (v & Hv & Heq).
    apply Nat.eqb_eq in Heq. subst v. apply (H u); [left; reflexivity | auto].
Qed.

Lemma invariant_initial : invariant initial.
Proof. constructor; cbn; auto. - exists 0%nat. reflexivity. - intros u []. Qed.

(** [updateFiles] under the invariant: the new previews are the only live
    URLs. *)
Lemma updateFiles_spec (newFiles : list file) (s : state) :
  invariant s ->
  files (updateFiles newFiles s) = newFiles
  /\ previews (updateFiles newFiles s)
     = seq (created s) (List.length newFiles)
  /\ live (updateFiles newFiles s) = seq (created s) (List.length newFiles)
  /\ created (updateFiles newFiles s)
     = (created s + List.length newFiles)%nat
  /\ reported (updateFiles newFiles s) = (reported s ++ [newFiles])%list.
Proof.
  intros I. unfold updateFiles.
  destruct (live_revoke_each (previews s) s) as (Hl & Hf & Hp & Hc & Hr).
  cbn zeta. rewrite Hl, Hc, Hr.
  match goal with |- context [revoke_each (previews s) ?x] =>
    destruct (live_revoke_each (previews s) x) as (Hl2 & Hf2 & Hp2 & Hc2 & Hr2)
  end.
  rewrite Hl2, Hf2, Hp2, Hc2, Hr2.
  cbn [live files previews created reported].
  repeat split.
  rewrite (inv_live s I), (filter_all_out (previews s) (previews s));
    [ | auto].
  cbn [app]. apply filter_all_in. intros u Hu Hin.
  apply in_seq in Hu. pose proof (inv_fresh s I u Hin). lia.
Qed.

Lemma invariant_updateFiles (newFiles : list file) (s : state) :
  invariant s -> invariant (updateFiles newFiles s).
Proof.
  intros I.
  destruct (updateFiles_spec newFiles s I) as (Hf & Hp & Hl & Hc & Hr).
  constructor.
  - rewrite Hl, Hp. reflexivity.
  - exists (created s). rewrite Hp, Hf. reflexivity.
  - intros u Hu. rewrite Hp in Hu. apply in_seq in Hu. rewrite Hc. lia.
  - rewrite Hr, Hf. apply last_last.
Qed.

Lemma invariant_step (p : props) (s : state) (a : action) :
  invariant s -> invariant (step p s a).
Proof.
  intros I. destruct a as [selected | i]; cbn [step].
  - unfold handleFileChange. destruct selected; [exact I | ].
    apply invariant_updateFiles. exact I.
  - apply invariant_updateFiles. exact I.
Qed.

Lemma invariant_run (p : props) (actions : list action) :
  invariant (run p actions).
Proof.
  unfold run. generalize invariant_initial. generalize initial.
  induction actions as [ | a actions IH]; intros s I; cbn [fold_left].
  - exact I.
  - apply IH. apply invariant_step. exact I.
Qed.

Lemma files_updateFiles (newFiles : list file) (s : state) :
  files (updateFiles newFiles s) = newFiles.
Proof.
  unfold updateFiles. cbn zeta.
  match goal with |- context [revoke_each (previews s) ?x] =>
    destruct (live_revoke_each (previews s) x) as (_ & -> & _)
  end.
  reflexivity.
Qed.

(** [filter] by index keeps everything but the element at the index. *)
Lemma filter_from (A : Type) (l : list A) :
  forall k j,
    (j < k)%nat ->
    filter (fun p : nat * A => negb (fst p =? j)%nat)
           (combine (seq k (List.length l)) l)
    = combine (seq k (List.length l)) l.
Proof.
  induction l as [ | x l IH]; intros k j Hj; cbn; [reflexivity | ].
  replace (k =? j)%nat with false by (symmetry; apply Nat.eqb_neq; lia).
  cbn. f_equal. apply IH. lia.
Qed.

Lemma filter_at (A : Type) (l : list A) :
  forall k i,
    map snd
        (filter (fun p : nat * A => negb (fst p =? k + i)%nat)
                (combine (seq k (List.length l)) l))
    = (firstn i l ++ skipn (S i) l)%list.
Proof.
  induction l as [ | x l IH]; intros k i.
  - destruct i; reflexivity.
  - cbn [List.length seq combine filter fst].
    destruct i as [ | i].
    + rewrite Nat.add_0_r, Nat.eqb_refl. cbn [negb firstn skipn app].
      rewrite filter_from by lia.
      clear. generalize (S k). induction l as [ | y l IHl]; intros n;
        cbn; [reflexivity | ]. f_equal. apply IHl.
    + replace (k =? k + S i)%nat with false
        by (symmetry; apply Nat.eqb_neq; lia).
      cbn [negb map snd firstn skipn app]. f_equal.
      replace (k + S i)%nat with (S k + i)%nat by lia. apply IH.
Qed.

Lemma filter_index_eq (A : Type) (i : nat) (l : list A) :
  filter_index i l = (firstn i l ++ skipn (S i) l)%list.
Proof. unfold filter_index. apply (filter_at A l 0 i). Qed.

(** *** How many files are kept *)

Lemma length_slice0 (A : Type) (finish : Z) (l : list A) :
  0 <= finish -> Z.of_nat (List.length (slice0 finish l)) <= finish.
Proof.
  intros H. unfold slice0.
  replace (finish <? 0) with false by (symmetry; apply Z.ltb_ge; exact H).
  rewrite length_firstn. lia.
Qed.

(** Whatever the user selects and removes, the component never keeps more
    than one file when [multiple] is off, and never more than [maxFiles]
    when it is on and [maxFiles] is not negative. *)
Theorem files_capped (p : props) (actions : list action) :
  (multiple p = false -> (List.length (files (run p actions)) <= 1)%nat)
  /\ (multiple p = true -> 0 <= maxFiles p ->
      Z.of_nat (List.length (files (run p actions))) <= maxFiles p).
Proof.
  set (cap := if multiple p then maxFiles p else 1).
  assert (H : 0 <= cap ->
              Z.of_nat (List.length (files (run p actions))) <= cap).
  { intros Hcap. unfold run.
    assert (H0 : Z.of_nat (List.length (files initial)) <= cap)
      by (cbn; exact Hcap).
    revert H0. generalize initial.
    induction actions as [ | a actions IH]; intros s Hs; cbn [fold_left];
      [exact Hs | ].
    apply IH. destruct a as [selected | i]; cbn [step].
    - unfold handleFileChange. destruct selected as [ | f selected];
        [exact Hs | ].
      rewrite files_updateFiles. unfold cap in *.
      destruct (multiple p); apply length_slice0; lia.
    - unfold handleRemoveFile. rewrite files_updateFiles, filter_index_eq.
      rewrite length_app, length_firstn, length_skipn. lia. }
  unfold cap in H. split.
  - intros Hm. rewrite Hm in H. specialize (H ltac:(lia)). lia.
  - intros Hm Hmax. rewrite Hm in H. apply H. exact Hmax.
Qed.

Lemma files_capped_witness :
  Z.of_nat
    (List.length
       (files (run (mkProps true 3)
                   [Select [png_file; png_file]; Select [png_file; png_file];
                    Remove 0; Select [broken_file; png_file; png_file]])))
  <= 3.
Proof.
  exact (proj2 (files_capped (mkProps true 3)
                  [Select [png_file; png_file]; Select [png_file; png_file];
                   Remove 0; Select [broken_file; png_file; png_file]])
               eq_refl ltac:(cbn; lia)).
Defined.

(** *** Previews and object URLs *)

(** Whatever the user selects and removes, the previews are exactly the
    object URLs that are live: there is one per file kept, no two are the
    same, every URL made for an earlier selection has been revoked, and
    none of those shown has.  When the component goes away, no URL stays
    live. *)
Theorem previews_are_the_live_urls (p : props) (actions : list action) :
  let s := run p actions in
  live s = previews s
  /\ List.length (previews s) = List.length (files s)
  /\ NoDup (previews s)
  /\ live (unmount s) = [].
Proof.
  cbn zeta. pose proof (invariant_run p actions) as I.
  destruct (inv_previews _ I) as (first & Hp).
  repeat split.
  - apply (inv_live _ I).
  - rewrite Hp. apply length_seq.
  - rewrite Hp. apply seq_NoDup.
  - unfold unmount.
    destruct (live_revoke_each (previews (run p actions)) (run p actions))
      as (-> & _).
    rewrite (inv_live _ I). apply filter_all_out. auto.
Qed.

(** The parent is always told what the component keeps: the last argument
    of [onFileChange] is the list of files kept. *)
Theorem parent_in_sync (p : props) (actions : list action) :
  last (reported (run p actions)) [] = files (run p actions).
Proof. apply (inv_reported _ (invariant_run p actions)). Qed.

(** *** Selecting and removing *)

(** With [multiple] on, a selection is appended to the files kept, and cut
    at [maxFiles]: the files kept before stay, in their order, as long as
    they were not more than [maxFiles].  With [multiple] off, the first
    file selected replaces what was kept.  An empty selection changes
    nothing and is not reported. *)
Theorem selection_kept (p : props) (selected : list file) (s : state) :
  (selected = [] -> handleFileChange p selected s = s)
  /\ (selected <> [] -> multiple p = true ->
      Z.of_nat (List.length (files s)) <= maxFiles p ->
      files (handleFileChange p selected s)
      = (files s
           ++ firstn (Z.to_nat (maxFiles p) - List.length (files s)) selected)%list)
  /\ (selected <> [] -> multiple p = false ->
      files (handleFileChange p selected s) = firstn 1 selected).
Proof.
  repeat split.
  - intros ->. reflexivity.
  - intros Hne Hm Hlen. unfold handleFileChange.
    destruct selected as [ | f selected]; [contradiction Hne; reflexivity | ].
    rewrite files_updateFiles, Hm. unfold slice0.
    replace (maxFiles p <? 0) with false
      by (symmetry; apply Z.ltb_ge; lia).
    rewrite firstn_app, firstn_all2 by lia. reflexivity.
  - intros Hne Hm. unfold handleFileChange.
    destruct selected as [ | f selected]; [contradiction Hne; reflexivity | ].
    rewrite files_updateFiles, Hm. reflexivity.
Qed.

Lemma selection_kept_witness :
  files (handleFileChange (mkProps true 3) [png_file; png_file]
           (run (mkProps true 3) [Select [broken_file; png_file]]))
  = [broken_file; png_file; png_file].
Proof.
  exact (proj1 (proj2 (selection_kept (mkProps true 3) [png_file; png_file]
                         (run (mkProps true 3) [Select [broken_file; png_file]])))
               ltac:(discriminate) eq_refl ltac:(vm_compute; discriminate)).
Defined.

(** Removing at an index drops exactly the file at that index and keeps
    the others in their order; at an index past the end it drops
    nothing. *)
Theorem removal_exact (i : nat) (s : state) :
  files (handleRemoveFile i s)
  = (firstn i (files s) ++ skipn (S i) (files s))%list
  /\ ((i < List.length (files s))%nat ->
      S (List.length (files (handleRemoveFile i s))) = List.length (files s))
  /\ ((List.length (files s) <= i)%nat ->
      files (handleRemoveFile i s) = files s).
Proof.
  unfold handleRemoveFile. rewrite files_updateFiles, filter_index_eq.
  repeat split.
  - intros Hi. rewrite length_app, length_firstn, length_skipn. lia.
  - intros Hi. rewrite firstn_all2, skipn_all2 by lia. apply app_nil_r.
Qed.

Lemma removal_exact_witness :
  files (handleRemoveFile 1
           (run (mkProps true 3) [Select [broken_file; png_file; broken_file]]))
  = [broken_file; broken_file].
Proof.
  exact (proj1 (removal_exact 1
                  (run (mkProps true 3)
                       [Select [broken_file; png_file; broken_file]]))).
Defined.

End FileUploadFacts.

(* ================================================================== *)
(** ** Facts about [VideoGenerate]: loading messages and previews *)

Module VideoGenerateFacts.

Import Async VideoGenerate.

(** The ticks of a list of intervals, in order. *)
Lemma fire_last (id : Z) (index : nat) (timers : list (Z * nat)) :
  (forall timer, In timer timers -> fst timer <> id) ->
  fire id (timers ++ [(id, index)])
  = Some (((index + 1) mod List.length reassuringMessages)%nat,
          (timers
             ++ [(id, ((index + 1) mod List.length reassuringMessages)%nat)])%list).
Proof.
  induction timers as [ | [id' index'] timers IH]; intros Hfresh.
  - cbn [app fire]. rewrite Z.eqb_refl. reflexivity.
  - cbn [app fire].
    destruct (id' =? id) eqn:Hid.
    + apply Z.eqb_eq in Hid. exfalso.
      apply (Hfresh (id', index')); [left; reflexivity | exact Hid].
    + rewrite IH; [reflexivity | ].
      intros timer Hin. apply Hfresh. right. exact Hin.
Qed.

Lemma ticking (id : Z) (t : ticker) (k : nat) :
  (forall timer, In timer (intervals t) -> fst timer <> id) ->
  Nat.iter k (tick id) (startLoadingMessages id t)
  = mkTicker
      (nth_error reassuringMessages (k mod List.length reassuringMessages))
      (Some id)
      (intervals t ++ [(id, (k mod List.length reassuringMessages)%nat)]).
Proof.
  intros Hfresh. induction k as [ | k IH].
  - reflexivity.
  - rewrite Nat.iter_succ, IH. unfold tick. cbn [intervals].
    rewrite (fire_last id _ (intervals t) Hfresh).
    cbn [loadingMessageIntervalRef].
    replace (((k mod List.length reassuringMessages + 1)
                mod List.length reassuringMessages)%nat)
      with (S k mod List.length reassuringMessages)%nat; [reflexivity | ].
    rewrite Nat.Div0.add_mod_idemp_l. f_equal. lia.
Qed.

(** The loading messages cycle: [k] ticks after [startLoadingMessages], the
    message shown is the one at [k mod 6], so the first comes again after
    the sixth and a message is never undefined. *)
Theorem messages_cycle (id : Z) (t : ticker) (k : nat) :
  (forall timer, In timer (intervals t) -> fst timer <> id) ->
  loadingMessage (Nat.iter k (tick id) (startLoadingMessages id t))
  = nth_error reassuringMessages (k mod 6)
  /\ loadingMessage (Nat.iter k (tick id) (startLoadingMessages id t))
     <> None
  /\ loadingMessage (Nat.iter (k + 6) (tick id) (startLoadingMessages id t))
     = loadingMessage (Nat.iter k (tick id) (startLoadingMessages id t)).
Proof.
  intros Hfresh. rewrite !(ticking id t _ Hfresh). cbn [loadingMessage].
  change (List.length reassuringMessages) with 6%nat.
  split; [reflexivity | split].
  - apply nth_error_Some.
    change (List.length reassuringMessages) with 6%nat.
    apply Nat.mod_upper_bound. discriminate.
  - f_equal. replace (k + 6)%nat with (k + 1 * 6)%nat by lia.
    apply Nat.Div0.mod_add.
Qed.

Lemma messages_cycle_witness :
  loadingMessage
    (Nat.iter 8 (tick 41) (startLoadingMessages 41 (mkTicker (Some "") None [])))
  = Some "This is where the magic happens. It can take a few minutes.".
Proof.
  destruct (messages_cycle 41 (mkTicker (Some "") None []) 8) as (H & _).
  - intros timer [].
  - rewrite H. reflexivity.
Defined.

(** Ticks change neither the ref nor which intervals are set. *)
Lemma tick_keeps (id : Z) (t : ticker) :
  loadingMessageIntervalRef (tick id t) = loadingMessageIntervalRef t
  /\ map fst (intervals (tick id t)) = map fst (intervals t).
Proof.
  unfold tick.
  assert (Hfire : forall timers index timers',
             fire id timers = Some (index, timers') ->
             map fst timers' = map fst timers).
  { induction timers as [ | [id' index'] timers IH]; intros index timers' H.
    - discriminate.
    - cbn [fire] in H. destruct (id' =? id).
      + injection H as _ <-. reflexivity.
      + destruct (fire id timers) as [[index'' rest'] | ] eqn:Hrest;
          [ | discriminate].
        injection H as _ <-. cbn [map fst]. f_equal.
        apply (IH index'' rest'). reflexivity. }
  destruct (fire id (intervals t)) as [[index timers'] | ] eqn:H.
  - cbn [loadingMessageIntervalRef intervals]. split; [reflexivity | ].
    apply (Hfire _ _ _ H).
  - split; reflexivity.
Qed.

Lemma ticks_keep (ids : list Z) :
  forall t,
    loadingMessageIntervalRef (fold_left (fun t id => tick id t) ids t)
    = loadingMessageIntervalRef t
    /\ map fst (intervals (fold_left (fun t id => tick id t) ids t))
       = map fst (intervals t).
Proof.
  induction ids as [ | id ids IH]; intros t; cbn [fold_left].
  - split; reflexivity.
  - destruct (IH (tick id t)) as (Hr & Hi).
    destruct (tick_keeps id t) as (Hr' & Hi').
    rewrite Hr, Hi, Hr', Hi'. split; reflexivity.
Qed.

Lemma ticks_idle (ids : list Z) :
  forall t,
    intervals t = [] -> fold_left (fun t id => tick id t) ids t = t.
Proof.
  induction ids as [ | id ids IH]; intros t H; cbn [fold_left].
  - reflexivity.
  - assert (Ht : tick id t = t) by (unfold tick; rewrite H; reflexivity).
    rewrite Ht. apply IH. exact H.
Qed.

(** Once the service has announced its progress, the announcement stays:
    [progressCallback] clears the interval that [startLoadingMessages] set,
    whatever ticks came before, and no later tick replaces the text. *)
Theorem progress_message_stays
        (id : Z) (t : ticker) (message : string) (before later : list Z) :
  id <> 0 ->
  intervals t = [] ->
  let shown :=
    fold_left (fun t id => tick id t) later
      (progressCallback message
         (fold_left (fun t id => tick id t) before
            (startLoadingMessages id t))) in
  loadingMessage shown = Some message
  /\ loadingMessageIntervalRef shown = None
  /\ intervals shown = [].
Proof.
  intros Hid Hnone shown.
  destruct (ticks_keep before (startLoadingMessages id t)) as (Hr & Hi).
  cbn [startLoadingMessages loadingMessageIntervalRef intervals] in Hr, Hi.
  rewrite Hnone in Hi. cbn [app map fst] in Hi.
  set (running := fold_left (fun t id => tick id t) before
                    (startLoadingMessages id t)) in *.
  assert (Hstop : stopLoadingMessages running
                  = mkTicker (loadingMessage running) None []).
  { unfold stopLoadingMessages. rewrite Hr.
    destruct (id =? 0) eqn:H0; [apply Z.eqb_eq in H0; contradiction | ].
    f_equal. destruct (intervals running) as [ | [id' index] rest];
      [discriminate | ].
    destruct rest; [ | discriminate]. cbn [map fst] in Hi.
    injection Hi as ->. cbn [clearInterval filter fst].
    rewrite Z.eqb_refl. reflexivity. }
  assert (Hshown : shown = mkTicker (Some message) None []).
  { unfold shown, progressCallback. rewrite Hstop.
    cbn [loadingMessageIntervalRef intervals].
    apply ticks_idle. reflexivity. }
  rewrite Hshown. repeat split.
Qed.

Lemma progress_message_stays_witness :
  loadingMessage
    (fold_left (fun t id => tick id t) [41; 41]
       (progressCallback "Checking video status..."
          (fold_left (fun t id => tick id t) [41; 7; 41]
             (startLoadingMessages 41 (mkTicker (Some "") None [])))))
  = Some "Checking video status...".
Proof.
  destruct (progress_message_stays 41 (mkTicker (Some "") None [])
              "Checking video status..." [41; 7; 41] [41; 41])
    as (H & _).
  - discriminate.
  - reflexivity.
  - exact H.
Defined.

(** Revoking a list of URLs. *)
Lemma gallery_revoke_each (urls : list nat) :
  forall g,
    live (revoke_each urls g)
    = filter (fun u => negb (existsb (Nat.eqb u) urls)) (live g)
    /\ imageFiles (revoke_each urls g) = imageFiles g
    /\ imagePreviews (revoke_each urls g) = imagePreviews g
    /\ created (revoke_each urls g) = created g.
Proof.
  induction urls as [ | url urls IH]; intros g; cbn [revoke_each fold_left].
  - cbn. repeat split. induction (live g) as [ | u l IHl]; cbn; congruence.
  - destruct (IH (revokeObjectURL url g)) as (Hl & Hf & Hp & Hc).
    fold (revoke_each urls (revokeObjectURL url g)).
    rewrite Hl, Hf, Hp, Hc.
    cbn [revokeObjectURL live imageFiles imagePreviews created existsb].
    repeat split.
    induction (live g) as [ | u l IHl]; cbn [filter]; [reflexivity | ].
    destruct (u =? url)%nat eqn:Hu; cbn [negb orb].
    + exact IHl.
    + cbn [filter]. destruct (existsb (Nat.eqb u) urls); cbn [negb];
        [exact IHl | f_equal; exact IHl].
Qed.

Lemma revoke_all (urls l : list nat) :
  (forall u, In u l -> In u urls) ->
  filter (fun u => negb (existsb (Nat.eqb u) urls)) l = [].
Proof.
  intros H. induction l as [ | u l IH]; [reflexivity | ]. cbn [filter].
  replace (existsb (Nat.eqb u) urls) with true.
  - cbn. apply IH. intros v Hv. apply H. right. exact Hv.
  - symmetry. apply existsb_exists. exists u. split.
    + apply H. left. reflexivity.
    + apply Nat.eqb_refl.
Qed.

Lemma revoke_none (urls l : list nat) :
  (forall u, In u l -> ~ In u urls) ->
  filter (fun u => negb (existsb (Nat.eqb u) urls)) l = l.
Proof.
  intros H. induction l as [ | u l IH]; [reflexivity | ]. cbn [filter].
  replace (existsb (Nat.eqb u) urls) with false.
  - cbn. f_equal. apply IH. intros v Hv. apply H. right. exact Hv.
  - symmetry. apply not_true_is_false. intros Hex.
    apply existsb_exists in Hex. destruct Hex as (v & Hv & Heq).
    apply Nat.eqb_eq in Heq. subst v. apply (H u); [left; reflexivity | auto].
Qed.

Lemma filter_sub (f : nat -> bool) (l urls : list nat) :
  (forall u, In u l -> In u urls) ->
  forall u, In u (filter f l) -> In u urls.
Proof. intros H u Hu. apply filter_In in Hu. apply H. apply Hu. Qed.

Lemma length_filter_index (A : Type) (i : nat) (l : list A) :
  List.length (FileUpload.filter_index i l)
  = if (i <? List.length l)%nat then (List.length l - 1)%nat
    else List.length l.
Proof.
  rewrite FileUploadFacts.filter_index_eq.
  destruct (i <? List.length l)%nat eqn:Hi.
  - apply Nat.ltb_lt in Hi. rewrite length_app, length_firstn, length_skipn.
    lia.
  - apply Nat.ltb_ge in Hi. rewrite length_app, length_firstn, length_skipn.
    lia.
Qed.

Lemma filter_index_sub (i : nat) (l : list nat) :
  forall u, In u (FileUpload.filter_index i l) -> In u l.
Proof.
  intros u. rewrite FileUploadFacts.filter_index_eq. revert i.
  induction l as [ | v l IH]; intros i Hu.
  - rewrite firstn_nil, skipn_nil in Hu. exact Hu.
  - destruct i as [ | i]; cbn [firstn skipn app] in Hu.
    + right. destruct l; exact Hu || (rewrite skipn_O in Hu; exact Hu).
    + destruct Hu as [Hu | Hu]; [left; exact Hu | right].
      apply (IH i Hu).
Qed.

Lemma live_sub (g : gallery) :
  settled g -> forall u, In u (live g) -> In u (imagePreviews g).
Proof.
  intros S u Hu. destruct (set_live g S) as [H | H]; rewrite H in Hu.
  - exact Hu.
  - destruct Hu.
Qed.

(** A selection: the new previews are live, the old ones revoked. *)
Lemma handleImageFileChange_spec (newFiles : list file) (g : gallery) :
  settled g ->
  imageFiles (handleImageFileChange newFiles g) = newFiles
  /\ imagePreviews (handleImageFileChange newFiles g)
     = seq (created g) (List.length newFiles)
  /\ live (handleImageFileChange newFiles g)
     = seq (created g) (List.length newFiles)
  /\ created (handleImageFileChange newFiles g)
     = (created g + List.length newFiles)%nat.
Proof.
  intros S. unfold handleImageFileChange, cleanup. cbn zeta.
  match goal with |- context [revoke_each (imagePreviews g) ?x] =>
    destruct (gallery_revoke_each (imagePreviews g) x) as (Hl & Hf & Hp & Hc)
  end.
  rewrite Hl, Hf, Hp, Hc. cbn [live imageFiles imagePreviews created].
  repeat split.
  rewrite filter_app.
  rewrite (revoke_all (imagePreviews g) (live g) (live_sub g S)).
  cbn [app]. apply revoke_none. intros u Hu Hin.
  apply in_seq in Hu. pose proof (set_fresh g S u Hin). lia.
Qed.

(** A removal: whatever was live is revoked. *)
Lemma handleRemoveImage_spec (i : nat) (g : gallery) :
  settled g ->
  imageFiles (handleRemoveImage i g)
  = FileUpload.filter_index i (imageFiles g)
  /\ imagePreviews (handleRemoveImage i g)
     = FileUpload.filter_index i (imagePreviews g)
  /\ live (handleRemoveImage i g) = []
  /\ created (handleRemoveImage i g) = created g.
Proof.
  intros S. unfold handleRemoveImage, cleanup. cbn zeta.
  match goal with |- context [revoke_each (imagePreviews g) ?x] =>
    destruct (gallery_revoke_each (imagePreviews g) x) as (Hl & Hf & Hp & Hc)
  end.
  rewrite Hl, Hf, Hp, Hc. cbn [live imageFiles imagePreviews created].
  repeat split.
  - apply revoke_all.
    destruct (nth_error (imagePreviews g) i) as [url | ].
    + cbn [revokeObjectURL live]. apply filter_sub. apply (live_sub g S).
    + apply (live_sub g S).
  - destruct (nth_error (imagePreviews g) i); reflexivity.
Qed.

Lemma switchMode_spec (g : gallery) :
  settled g ->
  imageFiles (switchMode g) = [] /\ imagePreviews (switchMode g) = []
  /\ live (switchMode g) = [] /\ created (switchMode g) = created g.
Proof.
  intros S. unfold switchMode, cleanup.
  match goal with |- context [revoke_each (imagePreviews g) ?x] =>
    destruct (gallery_revoke_each (imagePreviews g) x) as (Hl & Hf & Hp & Hc)
  end.
  rewrite Hl, Hf, Hp, Hc. cbn [live imageFiles imagePreviews created].
  repeat split. apply revoke_all. apply (live_sub g S).
Qed.

Lemma settled_apply (g : gallery) (c : change) :
  settled g -> settled (apply_change g c).
Proof.
  intros S. destruct c as [newFiles | i | ]; cbn [apply_change].
  - destruct (handleImageFileChange_spec newFiles g S) as (Hf & Hp & Hl & Hc).
    constructor.
    + rewrite Hf, Hp, length_seq. reflexivity.
    + left. rewrite Hl, Hp. reflexivity.
    + intros u Hu. rewrite Hp in Hu. apply in_seq in Hu. rewrite Hc. lia.
  - destruct (handleRemoveImage_spec i g S) as (Hf & Hp & Hl & Hc).
    constructor.
    + rewrite Hf, Hp, !length_filter_index, (set_aligned g S). reflexivity.
    + right. exact Hl.
    + intros u Hu. rewrite Hp in Hu. rewrite Hc.
      apply (set_fresh g S). apply (filter_index_sub i _ u Hu).
  - destruct (switchMode_spec g S) as (Hf & Hp & Hl & Hc).
    constructor.
    + rewrite Hf, Hp. reflexivity.
    + right. exact Hl.
    + intros u Hu. rewrite Hp in Hu. destruct Hu.
Qed.

Lemma settled_after (changes : list change) : settled (after changes).
Proof.
  unfold after.
  assert (S0 : settled empty_gallery).
  { constructor; cbn; auto. intros u []. }
  revert S0. generalize empty_gallery.
  induction changes as [ | c changes IH]; intros g S; cbn [fold_left].
  - exact S.
  - apply IH. apply settled_apply. exact S.
Qed.

(** Whatever the user selects, removes or switches, [VideoGenerate] holds
    one preview per reference image. *)
Theorem previews_aligned (changes : list change) :
  List.length (imageFiles (after changes))
  = List.length (imagePreviews (after changes)).
Proof.
  apply set_aligned. unfold after.
  assert (S0 : settled empty_gallery).
  { constructor; cbn; auto. intros u []. }
  revert S0. generalize empty_gallery.
  induction changes as [ | c changes IH]; intros g S; cbn [fold_left].
  - exact S.
  - apply IH. apply settled_apply. exact S.
Qed.

(** After a selection of reference images, the live object URLs are the
    previews of the selected files, one each: none of an earlier selection
    is left. *)
Theorem selection_previews_live (changes : list change)
        (newFiles : list file) :
  let g := handleImageFileChange newFiles (after changes) in
  imageFiles g = newFiles
  /\ live g = imagePreviews g
  /\ List.length (imagePreviews g) = List.length newFiles
  /\ NoDup (imagePreviews g).
Proof.
  intros g.
  destruct (handleImageFileChange_spec newFiles (after changes)
              (settled_after changes)) as (Hf & Hp & Hl & Hc).
  unfold g. rewrite Hf, Hl, Hp, length_seq. repeat split. apply seq_NoDup.
Qed.

(** Removing a reference image in [VideoGenerate] leaves the previews of
    the other images in place, but none of them is a live object URL any
    more: the removed one is revoked by the handler and the others by the
    cleanup of the effect on the previews. *)
Theorem removal_revokes_remaining (changes : list change) (i : nat) :
  let g := after changes in
  imagePreviews (handleRemoveImage i g)
  = (firstn i (imagePreviews g) ++ skipn (S i) (imagePreviews g))%list
  /\ imageFiles (handleRemoveImage i g)
     = (firstn i (imageFiles g) ++ skipn (S i) (imageFiles g))%list
  /\ live (handleRemoveImage i g) = [].
Proof.
  intros g.
  destruct (handleRemoveImage_spec i g (settled_after changes))
    as (Hf & Hp & Hl & Hc).
  rewrite Hf, Hp, Hl, !FileUploadFacts.filter_index_eq.
  repeat split.
Qed.

End VideoGenerateFacts.

(* ================================================================== *)
(** ** Facts about [ImageAnalyze] *)

Module ImageAnalyzeFacts.

Import Async GeminiService ImageAnalyze Logs DataURL Fixtures.
Local Open Scope async_scope.

(** The request that [analyzeImage] sends for a file read as [url]. *)
Lemma handleSubmit_image
      (P : provider) (prompt : string) (f : file) (log : list effect) :
  handleSubmit P prompt (Some f) log
  = match file_dataURL f with
    | None =>
        (Fulfilled tt,
         (log ++ [SetIsLoading true; SetError None; SetAnalysis None;
                  SetError (Some "An unknown error occurred.");
                  SetIsLoading false])%list)
    | Some url =>
        let req :=
          mkRequest "gemini-2.5-flash"
            [text_part (or_else prompt "Analyze this image in detail.");
             inline_part (nth_error (split "," url) 1) (file_type f)]
            None in
        match generateContent P req with
        | Fulfilled resp =>
            (Fulfilled tt,
             (log ++ [SetIsLoading true; SetError None; SetAnalysis None;
                      GenerateContent req; SetAnalysis (response_text resp);
                      SetIsLoading false])%list)
        | Rejected e =>
            (Fulfilled tt,
             (log ++ [SetIsLoading true; SetError None; SetAnalysis None;
                      GenerateContent req;
                      SetError (Some (VideoAnalyze.error_text e));
                      SetIsLoading false])%list)
        | Pending =>
            (Pending,
             (log ++ [SetIsLoading true; SetError None; SetAnalysis None;
                      GenerateContent req])%list)
        end
    end.
Proof.
  unfold handleSubmit, analyzeImage, fileToGenerativePart, fileToBase64,
    call_generateContent, try_finally, try_catch, bind, perform, await, ret,
    throw.
  destruct (file_dataURL f) as [url | ].
  - cbn zeta.
    match goal with
    | |- context [generateContent P ?r] =>
        destruct (generateContent P r) as [ | resp | e]
    end; rewrite <- ?app_assoc; reflexivity.
  - cbn [VideoAnalyze.error_text]. rewrite <- ?app_assoc. reflexivity.
Qed.

Lemma payload_at (mime payload : string) :
  has_comma mime = false -> has_comma payload = false ->
  nth_error (split "," (dataURL mime payload)) 1 = Some payload.
Proof.
  intros Hm Hp. unfold dataURL.
  change ("data:" ++ mime ++ ";base64," ++ payload)
    with ("data:" ++ (mime ++ ";base64" ++ "," ++ payload)).
  replace ("data:" ++ (mime ++ ";base64" ++ "," ++ payload))
    with (("data:" ++ mime ++ ";base64") ++ "," ++ payload).
  - rewrite GatewayFacts.split_at_comma,
      (GatewayFacts.split_no_comma payload Hp); [reflexivity | ].
    cbn [append has_comma Ascii.eqb Bool.eqb orb].
    rewrite GatewayFacts.has_comma_app, Hm. reflexivity.
  - cbn [append]. do 5 f_equal. clear Hm.
    induction mime as [ | c m IH]; cbn [append]; [reflexivity | ].
    f_equal. apply IH.
Qed.

(** Image analysis from the button to the text: for an image read as a
    base64 data URL and a provider that answers, [ImageAnalyze] resets its
    state, sends one request to "gemini-2.5-flash" holding the prompt (or
    "Analyze this image in detail." when it is empty) followed by the
    image's payload under the file's own type, shows the text of the
    answer, and ends not loading. *)
Theorem image_analysis_end_to_end
        (P : provider) (prompt type mime payload : string) (resp : response)
        (log : list effect) :
  has_comma mime = false -> has_comma payload = false ->
  (forall req, generateContent P req = Fulfilled resp) ->
  handleSubmit P prompt (Some (mkFile type (Some (dataURL mime payload)))) log
  = (Fulfilled tt,
     (log ++ [SetIsLoading true; SetError None; SetAnalysis None;
              GenerateContent
                (mkRequest "gemini-2.5-flash"
                   [text_part
                      (or_else prompt "Analyze this image in detail.");
                    inline_part (Some payload) type]
                   None);
              SetAnalysis (response_text resp);
              SetIsLoading false])%list).
Proof.
  intros Hm Hp Hresp. rewrite handleSubmit_image.
  cbn [file_dataURL file_type]. cbn zeta.
  rewrite Hresp, (payload_at mime payload Hm Hp). reflexivity.
Qed.

Lemma image_analysis_end_to_end_witness :
  shown_analysis
    (snd (handleSubmit (answering (mkResponse (Some []) (Some "A cat."))) ""
            (Some png_file) []))
    None
  = Some "A cat.".
Proof.
  exact (f_equal (fun r => shown_analysis (snd r) None)
           (image_analysis_end_to_end
              (answering (mkResponse (Some []) (Some "A cat."))) "" "image/png"
              "image/png" "iVBORw0KGgo=" (mkResponse (Some []) (Some "A cat.")) []
              eq_refl eq_refl (fun _ => eq_refl))).
Defined.

(** [ImageAnalyze.handleSubmit] never rejects.  With an image, it either
    waits for the provider with the loading flag still set, or ends with
    the flag cleared, showing an error and no analysis, or the provider's
    text and no error; the error is "An unknown error occurred." when the
    file could not be read.  Without an image it asks for one and sends
    nothing. *)
Theorem image_submit_outcome
        (P : provider) (prompt : string) (imageFile : option file)
        (log : list effect) (e0 a0 : option string) (l0 : bool) :
  let r := handleSubmit P prompt imageFile log in
  match imageFile with
  | None =>
      r = (Fulfilled tt,
           (log ++ [SetError (Some "Please upload an image to analyze.")])%list)
  | Some f =>
      (fst r = Pending /\ shown_loading (snd r) l0 = true)
      \/ (fst r = Fulfilled tt /\ shown_loading (snd r) l0 = false
          /\ ((shown_analysis (snd r) a0 = None
               /\ exists msg,
                   shown_error (snd r) e0 = Some msg
                   /\ (file_dataURL f = None ->
                       msg = "An unknown error occurred."
                       /\ requests (snd r) = requests log))
              \/ (shown_error (snd r) e0 = None
                  /\ exists req resp,
                      generateContent P req = Fulfilled resp
                      /\ requests (snd r) = (requests log ++ [req])%list
                      /\ shown_analysis (snd r) a0 = response_text resp)))
  end.
Proof.
  intros r. unfold r. destruct imageFile as [f | ]; [ | reflexivity].
  rewrite handleSubmit_image.
  destruct (file_dataURL f) as [url | ] eqn:Hfile.
  - cbn zeta.
    match goal with
    | |- context [generateContent P ?q] =>
        destruct (generateContent P q) as [ | resp | e] eqn:Hresp
    end; cbn [fst snd];
      rewrite ?SubmitFacts.shown_loading_app, ?SubmitFacts.shown_error_app,
        ?SubmitFacts.shown_analysis_app,
        ?GeminiServiceFacts.requests_app.
    + left. split; reflexivity.
    + right. split; [reflexivity | ]. split; [reflexivity | ].
      right. split; [reflexivity | ].
      eexists. exists resp. split; [exact Hresp | ]. split; reflexivity.
    + right. split; [reflexivity | ]. split; [reflexivity | ].
      left. split; [reflexivity | ].
      eexists. split; [reflexivity | ]. intros H. discriminate.
  - cbn [fst snd].
    rewrite ?SubmitFacts.shown_loading_app, ?SubmitFacts.shown_error_app,
        ?SubmitFacts.shown_analysis_app,
      ?GeminiServiceFacts.requests_app.
    right. split; [reflexivity | ]. split; [reflexivity | ].
    left. split; [reflexivity | ].
    eexists. split; [reflexivity | ]. intros _. split; [reflexivity | ].
    cbn. rewrite app_nil_r. reflexivity.
Qed.

Lemma image_submit_outcome_witness :
  shown_error
    (snd (handleSubmit (answering (mkResponse (Some []) (Some "A cat."))) ""
            (Some broken_file) []))
    None
  = Some "An unknown error occurred.".
Proof.
  pose proof (image_submit_outcome
                (answering (mkResponse (Some []) (Some "A cat."))) ""
                (Some broken_file) [] None None false) as H.
  cbv zeta beta iota in H.
  destruct H as [[H _] | (_ & _ & [(_ & msg & Hm & Hf) | (H & _)])].
  - vm_compute in H. discriminate.
  - destruct (Hf eq_refl) as [-> _]. exact Hm.
  - vm_compute in H. discriminate.
Defined.

End ImageAnalyzeFacts.

(* ================================================================== *)
(** ** Facts about [generateVideoFromImages] *)

Module ReferenceVideoFacts.

Import Async GeminiService ReferenceVideo Logs Fixtures.
Local Open Scope async_scope.

Lemma payload_unreadable (R : Type) (type : R) (imageFiles : list file)
      (log : list effect) :
  (exists f, In f imageFiles /\ file_dataURL f = None) ->
  referenceImagesPayload imageFiles type log = (Rejected NotAnError, log).
Proof.
  induction imageFiles as [ | g rest IH]; intros (f & Hin & Hf).
  - destruct Hin.
  - cbn [referenceImagesPayload]. unfold bind, fileToBase64.
    destruct (file_dataURL g) as [url | ] eqn:Hg; [ | reflexivity].
    unfold ret at 1. rewrite IH; [reflexivity | ].
    exists f. split; [ | exact Hf].
    destruct Hin as [-> | Hin]; [congruence | exact Hin].
Qed.

Lemma payload_readable (R : Type) (type : R) (imageFiles : list file)
      (log : list effect) :
  (forall f, In f imageFiles -> file_dataURL f <> None) ->
  referenceImagesPayload imageFiles type log
  = (Fulfilled (map (entry type) imageFiles), log).
Proof.
  induction imageFiles as [ | g rest IH]; intros Hall.
  - reflexivity.
  - cbn [referenceImagesPayload map]. unfold bind, fileToBase64, entry.
    destruct (file_dataURL g) as [url | ] eqn:Hg.
    + unfold ret at 1. rewrite IH.
      * reflexivity.
      * intros f Hf. apply Hall. right. exact Hf.
    + exfalso. apply (Hall g); [left; reflexivity | exact Hg].
Qed.

(** [generateVideoFromImages] builds its client first: when the
    constructor throws, as on a missing key, the call is rejected with what
    it threw and nothing is announced.  When the client is built and one of
    the reference images cannot be read, the call is rejected with the
    reader's event right after "Preparing images for video generation...":
    nothing is submitted and the poller is not entered, whatever the other
    images and the provider. *)
Theorem unreadable_reference_image
        (R : Type) (P : provider) (GoogleGenAI : option string -> option exn)
        (fuel : nat)
        (answer : list (referenceImage R) -> promise videoOperation)
        (prompt : string) (imageFiles : list file) (type : R)
        (log : list effect) :
  (forall e,
      GoogleGenAI (API_KEY P) = Some e ->
      generateVideoFromImages P GoogleGenAI fuel answer prompt imageFiles
        type log
      = (Rejected e, log))
  /\ (GoogleGenAI (API_KEY P) = None ->
      (exists f, In f imageFiles /\ file_dataURL f = None) ->
      generateVideoFromImages P GoogleGenAI fuel answer prompt imageFiles
        type log
      = (Rejected NotAnError,
         (log ++ [OnProgress "Preparing images for video generation..."])%list)).
Proof.
  split.
  - intros e He. unfold generateVideoFromImages. rewrite He. reflexivity.
  - intros Hc H. unfold generateVideoFromImages. rewrite Hc.
    unfold bind, perform.
    rewrite (payload_unreadable R type imageFiles _ H). reflexivity.
Qed.

Lemma unreadable_reference_image_witness :
  generateVideoFromImages endless Examples.client_needs_key 5
    (fun _ : list (referenceImage bool) => Fulfilled Examples.notDone)
    "a cat" [png_file; broken_file] true []
  = (Rejected NotAnError,
     [OnProgress "Preparing images for video generation..."]).
Proof.
  apply (proj2 (unreadable_reference_image bool endless
                  Examples.client_needs_key 5
                  (fun _ => Fulfilled Examples.notDone) "a cat"
                  [png_file; broken_file] true []) eq_refl).
  exists broken_file. split; [right; left; reflexivity | reflexivity].
Defined.

(** With a client and readable images, [generateVideoFromImages] announces
    the preparation and then runs the poller on one submission to
    "veo-3.1-generate-preview", whose reference images are one entry per
    file, in the order of the files, each with the file's payload, the
    file's type and the reference type chosen. *)
Theorem reference_images_in_order
        (R : Type) (P : provider) (GoogleGenAI : option string -> option exn)
        (fuel : nat)
        (answer : list (referenceImage R) -> promise videoOperation)
        (prompt : string) (imageFiles : list file) (type : R)
        (log : list effect) :
  GoogleGenAI (API_KEY P) = None ->
  (forall f, In f imageFiles -> file_dataURL f <> None) ->
  generateVideoFromImages P GoogleGenAI fuel answer prompt imageFiles type log
  = handleVideoOperation P fuel
      (perform (GenerateVideos "veo-3.1-generate-preview" prompt) ;;
       await (answer (map (entry type) imageFiles)))
      (log ++ [OnProgress "Preparing images for video generation..."])%list
  /\ map image_mimeType (map (entry type) imageFiles)
     = map file_type imageFiles
  /\ map referenceType (map (entry type) imageFiles)
     = repeat type (List.length imageFiles).
Proof.
  intros Hc H. split; [ | split].
  - unfold generateVideoFromImages. rewrite Hc.
    unfold bind at 1, perform at 1. unfold bind at 1.
    rewrite (payload_readable R type imageFiles _ H). reflexivity.
  - rewrite map_map. reflexivity.
  - rewrite map_map. cbn [entry referenceType].
    induction imageFiles as [ | f rest IH]; [reflexivity | ].
    cbn [map List.length repeat]. f_equal. apply IH.
    intros g Hg. apply H. right. exact Hg.
Qed.

Lemma reference_images_in_order_witness :
  submissions
    (snd (generateVideoFromImages endless Examples.client_needs_key 0
            (fun _ : list (referenceImage bool) => Fulfilled Examples.notDone)
            "a cat" [png_file; png_file] true []))
  = [("veo-3.1-generate-preview", "a cat")].
Proof.
  destruct (reference_images_in_order bool endless Examples.client_needs_key
              0 (fun _ => Fulfilled Examples.notDone) "a cat"
              [png_file; png_file] true [] eq_refl) as (H & _).
  - intros f [<- | [<- | []]]; discriminate.
  - rewrite H. reflexivity.
Defined.

End ReferenceVideoFacts.
